(** * RetroPlayer render manager (xbmc/cores/RetroPlayer/rendering/RPRenderManager.cpp)

    A shallow embedding of [CRPRenderManager].  Every member function is a
    computation in a state-and-fault monad over the manager's members and the
    part of its collaborators it can observe: the heap of reference-counted
    render buffers, the buffer pool registry, the renderer set and a trace
    of the calls made on collaborators.

    Conventions.
    - [unsigned int] and [size_t] values are [N]; a conversion to
      [unsigned int] is written [u32].
    - [AVPixelFormat] and the other enumerations are [Z].
    - Pointers are [nat] addresses; [nullptr] is [None].
    - Undefined behaviour of the C++ code (a copy outside an array, a
      division by zero, a null or dangling dereference) is the result
      [Crash].
    - [CLog::Log] calls and the mutexes are left out: a member function is
      one sequential computation.  The one place where a member function
      gives up m_bufferMutex in the middle of its changes to the render
      buffer set, the copy of CreateRenderBuffer (lines 509-512), has a
      second embedding, [CreateRenderBuffer_unlocked], that takes what
      another thread does there as a parameter.  (AddFrame gives the mutex
      up as well, lines 165-168, after its last write of the set.) *)

From Stdlib Require Import ZArith NArith String Strings.Byte PrimFloat.
From stdpp Require Import base option list sorting gmap.

Local Open Scope N_scope.

(** ** Data model *)

Definition AVPixelFormat := Z.
Definition SCALINGMETHOD := Z.
Definition VIEWMODE := Z.
Definition RENDERFEATURE := Z.

(** libswscale's flag. *)
Definition SWS_FAST_BILINEAR : Z := 1%Z.

Inductive RENDER_STATE :=
| UNCONFIGURED
| CONFIGURING
| RECONFIGURING
| CONFIGURED.

#[global] Instance RENDER_STATE_eq_dec : EqDecision RENDER_STATE.
Proof. solve_decision. Defined.

Definition is_state (a b : RENDER_STATE) : bool := bool_decide (a = b).

(** Conversion to [unsigned int], and from [unsigned int] to [int]. *)
Definition u32 (x : N) : N := x mod 2 ^ 32.
Definition s32 (x : N) : Z :=
  if u32 x <? 2 ^ 31 then Z.of_N (u32 x) else (Z.of_N (u32 x) - 2 ^ 32)%Z.

(** Modelled from the spec: [CRenderVideoSettings] is declared outside this
    file.  The record holds what its four getters return; the manager reads
    the scaling method, the view mode and the rotation one by one (lines
    398-400) and the spec names them as three settings, each written by its
    own setter.  What SetVideoFilter does to the other three values is said
    nowhere (the filter may decide the scaling method), so SetVideoFilter is
    a parameter of the embedding, see [Collaborators]. *)
Record CRenderVideoSettings := {
  vs_videoFilter : string;
  vs_scalingMethod : SCALINGMETHOD;
  vs_renderViewMode : VIEWMODE;
  vs_renderRotation : N
}.

Definition SetScalingMethod (v : SCALINGMETHOD) (s : CRenderVideoSettings) :=
  {| vs_videoFilter := vs_videoFilter s; vs_scalingMethod := v;
     vs_renderViewMode := vs_renderViewMode s;
     vs_renderRotation := vs_renderRotation s |}.
Definition SetRenderViewMode (v : VIEWMODE) (s : CRenderVideoSettings) :=
  {| vs_videoFilter := vs_videoFilter s; vs_scalingMethod := vs_scalingMethod s;
     vs_renderViewMode := v;
     vs_renderRotation := vs_renderRotation s |}.
Definition SetRenderRotation (v : N) (s : CRenderVideoSettings) :=
  {| vs_videoFilter := vs_videoFilter s; vs_scalingMethod := vs_scalingMethod s;
     vs_renderViewMode := vs_renderViewMode s;
     vs_renderRotation := v |}.

Record CRenderSettings := { VideoSettings : CRenderVideoSettings }.

Record CRect := { x1 : float; y1 : float; x2 : float; y2 : float }.

(** The caller's settings object of [RenderControl] and [GetRenderer]. *)
Record IGUIRenderSettings := {
  HasVideoFilter : bool;
  HasViewMode : bool;
  HasRotation : bool;
  GetSettings : CRenderSettings;
  GetDimensions : CRect
}.

(** A render buffer as the manager sees it through [IRenderBuffer]. *)
Record IRenderBuffer := {
  rb_pool : nat;                       (* GetPool() *)
  rb_refs : Z;                         (* Acquire() / Release() *)
  rb_loaded : bool;                    (* IsLoaded() / SetLoaded() *)
  rb_format : AVPixelFormat;           (* GetFormat() *)
  rb_width : N;                        (* GetWidth() *)
  rb_height : N;                       (* GetHeight() *)
  rb_frameSize : N;                    (* GetFrameSize() *)
  rb_memory : option (list byte);      (* GetMemory(), None is nullptr *)
  rb_upload : bool                     (* what UploadTexture() returns *)
}.

Definition rb_with_refs (v : Z) (b : IRenderBuffer) :=
  {| rb_pool := rb_pool b; rb_refs := v; rb_loaded := rb_loaded b;
     rb_format := rb_format b; rb_width := rb_width b; rb_height := rb_height b;
     rb_frameSize := rb_frameSize b; rb_memory := rb_memory b;
     rb_upload := rb_upload b |}.
Definition rb_with_loaded (v : bool) (b : IRenderBuffer) :=
  {| rb_pool := rb_pool b; rb_refs := rb_refs b; rb_loaded := v;
     rb_format := rb_format b; rb_width := rb_width b; rb_height := rb_height b;
     rb_frameSize := rb_frameSize b; rb_memory := rb_memory b;
     rb_upload := rb_upload b |}.
Definition rb_with_memory (v : option (list byte)) (b : IRenderBuffer) :=
  {| rb_pool := rb_pool b; rb_refs := rb_refs b; rb_loaded := rb_loaded b;
     rb_format := rb_format b; rb_width := rb_width b; rb_height := rb_height b;
     rb_frameSize := rb_frameSize b; rb_memory := v;
     rb_upload := rb_upload b |}.

(** A registered buffer pool: its address and whether a renderer that
    draws from it is visible. *)
Record IRenderBufferPool := {
  pool_ptr : nat;
  pool_HasVisibleRenderer : bool
}.

(** A renderer instance: its address, the backend that implements it, the
    pool it is bound to and the three settings the manager writes to it. *)
Record CRPBaseRenderer := {
  rnd_ptr : nat;
  rnd_impl : nat;
  rnd_bufferPool : nat;                (* GetBufferPool() *)
  rnd_scalingMethod : SCALINGMETHOD;
  rnd_viewMode : VIEWMODE;
  rnd_rotation : N
}.

Definition rnd_with_ptr (p : nat) (r : CRPBaseRenderer) :=
  {| rnd_ptr := p; rnd_impl := rnd_impl r; rnd_bufferPool := rnd_bufferPool r;
     rnd_scalingMethod := rnd_scalingMethod r; rnd_viewMode := rnd_viewMode r;
     rnd_rotation := rnd_rotation r |}.
Definition rnd_with_settings (sm : SCALINGMETHOD) (vm : VIEWMODE) (rot : N)
    (r : CRPBaseRenderer) :=
  {| rnd_ptr := rnd_ptr r; rnd_impl := rnd_impl r;
     rnd_bufferPool := rnd_bufferPool r;
     rnd_scalingMethod := sm; rnd_viewMode := vm; rnd_rotation := rot |}.

(** The parameters a libswscale context is built from. *)
Record SwsContext := {
  sws_srcW : Z; sws_srcH : Z; sws_srcFormat : AVPixelFormat;
  sws_dstW : Z; sws_dstH : Z; sws_dstFormat : AVPixelFormat;
  sws_flags : Z
}.

(** Calls on collaborators and writes to the shared buffer set, in the
    order the code makes them. *)
Inductive Event :=
| EvConfigure (format : AVPixelFormat) (nominalWidth nominalHeight maxWidth maxHeight : N)
| EvPostMsgSwitchToFullscreen
| EvGetBuffer (pool : nat) (size : N) (result : option nat)
| EvGetMemory (buffer : nat)
| EvReleaseMemory (buffer : nat)
| EvMemcpyBuffer (buffer : nat) (targetOffset sourceOffset count : N)
| EvMemcpyCache (count : N)
| EvSwsScale (buffer : nat) (ctx : SwsContext) (srcStride srcSliceH dstStride : Z)
| EvSwsFreeContext (format : AVPixelFormat)
| EvAcquire (buffer : nat)
| EvRelease (buffer : nat)
| EvStoreRenderBuffers (buffers : list nat)
| EvUploadTexture (buffer : nat) (result : bool)
| EvSetLoaded (buffer : nat) (loaded : bool)
| EvCreateRenderer (pool : nat)
| EvRendererConfigure (renderer : nat) (format : AVPixelFormat) (width height : N)
| EvRendererFrameMove (renderer : nat)
| EvRendererFlush (renderer : nat)
| EvPreRender (renderer : nat) (clear : bool)
| EvSetBuffer (renderer buffer : nat)
| EvRenderFrame (renderer : nat) (clear : bool) (alpha : N)
| EvFlushPools
| EvSetRenderingResolutionVideo
| EvSetRenderingResolution (coordsRes : nat)
| EvSetFullScreenVideo (fullscreen : bool)
| EvSetViewWindow (coords : CRect)
| EvSetTransform
| EvRemoveTransform
| EvSetScissors (region : CRect)
| EvClear (color : N).

(** The manager's members, followed by what it can observe of the process
    info, the buffer manager and the render context. *)
Record State := {
  m_speed : float;
  m_format : AVPixelFormat;
  m_maxWidth : N;
  m_maxHeight : N;
  m_width : N;
  m_height : N;
  m_state : RENDER_STATE;
  m_bFlush : bool;
  m_bHasCachedFrame : bool;
  m_cachedFrame : list byte;
  m_renderBuffers : list nat;
  m_renderers : list CRPBaseRenderer;        (* std::set, ordered by address *)
  m_scalers : gmap Z (option SwsContext);    (* std::map, a key may hold nullptr *)
  m_bTriggerUpdateResolution : bool;
  m_renderSettings : CRenderSettings;
  bufferPools : list IRenderBufferPool;      (* GetBufferManager().GetBufferPools() *)
  buffers : gmap nat IRenderBuffer;          (* the render buffers, by address *)
  fullScreenVideo : bool;                    (* m_renderContext.IsFullScreenVideo() *)
  scissors : CRect;                          (* m_renderContext.GetScissors() *)
  trace : list Event
}.

(** Field updates. *)
Definition set_m_speed (v : float) (st : State) : State :=
  {| m_speed := v; m_format := m_format st; m_maxWidth := m_maxWidth st;
     m_maxHeight := m_maxHeight st; m_width := m_width st;
     m_height := m_height st; m_state := m_state st; m_bFlush := m_bFlush st;
     m_bHasCachedFrame := m_bHasCachedFrame st;
     m_cachedFrame := m_cachedFrame st;
     m_renderBuffers := m_renderBuffers st; m_renderers := m_renderers st;
     m_scalers := m_scalers st;
     m_bTriggerUpdateResolution := m_bTriggerUpdateResolution st;
     m_renderSettings := m_renderSettings st; bufferPools := bufferPools st;
     buffers := buffers st; fullScreenVideo := fullScreenVideo st;
     scissors := scissors st; trace := trace st |}.
Definition set_m_format (v : AVPixelFormat) (st : State) : State :=
  {| m_speed := m_speed st; m_format := v; m_maxWidth := m_maxWidth st;
     m_maxHeight := m_maxHeight st; m_width := m_width st;
     m_height := m_height st; m_state := m_state st; m_bFlush := m_bFlush st;
     m_bHasCachedFrame := m_bHasCachedFrame st;
     m_cachedFrame := m_cachedFrame st;
     m_renderBuffers := m_renderBuffers st; m_renderers := m_renderers st;
     m_scalers := m_scalers st;
     m_bTriggerUpdateResolution := m_bTriggerUpdateResolution st;
     m_renderSettings := m_renderSettings st; bufferPools := bufferPools st;
     buffers := buffers st; fullScreenVideo := fullScreenVideo st;
     scissors := scissors st; trace := trace st |}.
Definition set_m_maxWidth (v : N) (st : State) : State :=
  {| m_speed := m_speed st; m_format := m_format st; m_maxWidth := v;
     m_maxHeight := m_maxHeight st; m_width := m_width st;
     m_height := m_height st; m_state := m_state st; m_bFlush := m_bFlush st;
     m_bHasCachedFrame := m_bHasCachedFrame st;
     m_cachedFrame := m_cachedFrame st;
     m_renderBuffers := m_renderBuffers st; m_renderers := m_renderers st;
     m_scalers := m_scalers st;
     m_bTriggerUpdateResolution := m_bTriggerUpdateResolution st;
     m_renderSettings := m_renderSettings st; bufferPools := bufferPools st;
     buffers := buffers st; fullScreenVideo := fullScreenVideo st;
     scissors := scissors st; trace := trace st |}.
Definition set_m_maxHeight (v : N) (st : State) : State :=
  {| m_speed := m_speed st; m_format := m_format st;
     m_maxWidth := m_maxWidth st; m_maxHeight := v; m_width := m_width st;
     m_height := m_height st; m_state := m_state st; m_bFlush := m_bFlush st;
     m_bHasCachedFrame := m_bHasCachedFrame st;
     m_cachedFrame := m_cachedFrame st;
     m_renderBuffers := m_renderBuffers st; m_renderers := m_renderers st;
     m_scalers := m_scalers st;
     m_bTriggerUpdateResolution := m_bTriggerUpdateResolution st;
     m_renderSettings := m_renderSettings st; bufferPools := bufferPools st;
     buffers := buffers st; fullScreenVideo := fullScreenVideo st;
     scissors := scissors st; trace := trace st |}.
Definition set_m_width (v : N) (st : State) : State :=
  {| m_speed := m_speed st; m_format := m_format st;
     m_maxWidth := m_maxWidth st; m_maxHeight := m_maxHeight st;
     m_width := v; m_height := m_height st; m_state := m_state st;
     m_bFlush := m_bFlush st; m_bHasCachedFrame := m_bHasCachedFrame st;
     m_cachedFrame := m_cachedFrame st;
     m_renderBuffers := m_renderBuffers st; m_renderers := m_renderers st;
     m_scalers := m_scalers st;
     m_bTriggerUpdateResolution := m_bTriggerUpdateResolution st;
     m_renderSettings := m_renderSettings st; bufferPools := bufferPools st;
     buffers := buffers st; fullScreenVideo := fullScreenVideo st;
     scissors := scissors st; trace := trace st |}.
Definition set_m_height (v : N) (st : State) : State :=
  {| m_speed := m_speed st; m_format := m_format st;
     m_maxWidth := m_maxWidth st; m_maxHeight := m_maxHeight st;
     m_width := m_width st; m_height := v; m_state := m_state st;
     m_bFlush := m_bFlush st; m_bHasCachedFrame := m_bHasCachedFrame st;
     m_cachedFrame := m_cachedFrame st;
     m_renderBuffers := m_renderBuffers st; m_renderers := m_renderers st;
     m_scalers := m_scalers st;
     m_bTriggerUpdateResolution := m_bTriggerUpdateResolution st;
     m_renderSettings := m_renderSettings st; bufferPools := bufferPools st;
     buffers := buffers st; fullScreenVideo := fullScreenVideo st;
     scissors := scissors st; trace := trace st |}.
Definition set_m_state (v : RENDER_STATE) (st : State) : State :=
  {| m_speed := m_speed st; m_format := m_format st;
     m_maxWidth := m_maxWidth st; m_maxHeight := m_maxHeight st;
     m_width := m_width st; m_height := m_height st; m_state := v;
     m_bFlush := m_bFlush st; m_bHasCachedFrame := m_bHasCachedFrame st;
     m_cachedFrame := m_cachedFrame st;
     m_renderBuffers := m_renderBuffers st; m_renderers := m_renderers st;
     m_scalers := m_scalers st;
     m_bTriggerUpdateResolution := m_bTriggerUpdateResolution st;
     m_renderSettings := m_renderSettings st; bufferPools := bufferPools st;
     buffers := buffers st; fullScreenVideo := fullScreenVideo st;
     scissors := scissors st; trace := trace st |}.
Definition set_m_bFlush (v : bool) (st : State) : State :=
  {| m_speed := m_speed st; m_format := m_format st;
     m_maxWidth := m_maxWidth st; m_maxHeight := m_maxHeight st;
     m_width := m_width st; m_height := m_height st; m_state := m_state st;
     m_bFlush := v; m_bHasCachedFrame := m_bHasCachedFrame st;
     m_cachedFrame := m_cachedFrame st;
     m_renderBuffers := m_renderBuffers st; m_renderers := m_renderers st;
     m_scalers := m_scalers st;
     m_bTriggerUpdateResolution := m_bTriggerUpdateResolution st;
     m_renderSettings := m_renderSettings st; bufferPools := bufferPools st;
     buffers := buffers st; fullScreenVideo := fullScreenVideo st;
     scissors := scissors st; trace := trace st |}.
Definition set_m_bHasCachedFrame (v : bool) (st : State) : State :=
  {| m_speed := m_speed st; m_format := m_format st;
     m_maxWidth := m_maxWidth st; m_maxHeight := m_maxHeight st;
     m_width := m_width st; m_height := m_height st; m_state := m_state st;
     m_bFlush := m_bFlush st; m_bHasCachedFrame := v;
     m_cachedFrame := m_cachedFrame st;
     m_renderBuffers := m_renderBuffers st; m_renderers := m_renderers st;
     m_scalers := m_scalers st;
     m_bTriggerUpdateResolution := m_bTriggerUpdateResolution st;
     m_renderSettings := m_renderSettings st; bufferPools := bufferPools st;
     buffers := buffers st; fullScreenVideo := fullScreenVideo st;
     scissors := scissors st; trace := trace st |}.
Definition set_m_cachedFrame (v : list byte) (st : State) : State :=
  {| m_speed := m_speed st; m_format := m_format st;
     m_maxWidth := m_maxWidth st; m_maxHeight := m_maxHeight st;
     m_width := m_width st; m_height := m_height st; m_state := m_state st;
     m_bFlush := m_bFlush st; m_bHasCachedFrame := m_bHasCachedFrame st;
     m_cachedFrame := v; m_renderBuffers := m_renderBuffers st;
     m_renderers := m_renderers st; m_scalers := m_scalers st;
     m_bTriggerUpdateResolution := m_bTriggerUpdateResolution st;
     m_renderSettings := m_renderSettings st; bufferPools := bufferPools st;
     buffers := buffers st; fullScreenVideo := fullScreenVideo st;
     scissors := scissors st; trace := trace st |}.
Definition set_m_renderBuffers (v : list nat) (st : State) : State :=
  {| m_speed := m_speed st; m_format := m_format st;
     m_maxWidth := m_maxWidth st; m_maxHeight := m_maxHeight st;
     m_width := m_width st; m_height := m_height st; m_state := m_state st;
     m_bFlush := m_bFlush st; m_bHasCachedFrame := m_bHasCachedFrame st;
     m_cachedFrame := m_cachedFrame st; m_renderBuffers := v;
     m_renderers := m_renderers st; m_scalers := m_scalers st;
     m_bTriggerUpdateResolution := m_bTriggerUpdateResolution st;
     m_renderSettings := m_renderSettings st; bufferPools := bufferPools st;
     buffers := buffers st; fullScreenVideo := fullScreenVideo st;
     scissors := scissors st; trace := trace st |}.
Definition set_m_renderers (v : list CRPBaseRenderer) (st : State) : State :=
  {| m_speed := m_speed st; m_format := m_format st;
     m_maxWidth := m_maxWidth st; m_maxHeight := m_maxHeight st;
     m_width := m_width st; m_height := m_height st; m_state := m_state st;
     m_bFlush := m_bFlush st; m_bHasCachedFrame := m_bHasCachedFrame st;
     m_cachedFrame := m_cachedFrame st;
     m_renderBuffers := m_renderBuffers st; m_renderers := v;
     m_scalers := m_scalers st;
     m_bTriggerUpdateResolution := m_bTriggerUpdateResolution st;
     m_renderSettings := m_renderSettings st; bufferPools := bufferPools st;
     buffers := buffers st; fullScreenVideo := fullScreenVideo st;
     scissors := scissors st; trace := trace st |}.
Definition set_m_scalers (v : gmap Z (option SwsContext)) (st : State) : State :=
  {| m_speed := m_speed st; m_format := m_format st;
     m_maxWidth := m_maxWidth st; m_maxHeight := m_maxHeight st;
     m_width := m_width st; m_height := m_height st; m_state := m_state st;
     m_bFlush := m_bFlush st; m_bHasCachedFrame := m_bHasCachedFrame st;
     m_cachedFrame := m_cachedFrame st;
     m_renderBuffers := m_renderBuffers st; m_renderers := m_renderers st;
     m_scalers := v;
     m_bTriggerUpdateResolution := m_bTriggerUpdateResolution st;
     m_renderSettings := m_renderSettings st; bufferPools := bufferPools st;
     buffers := buffers st; fullScreenVideo := fullScreenVideo st;
     scissors := scissors st; trace := trace st |}.
Definition set_m_bTriggerUpdateResolution (v : bool) (st : State) : State :=
  {| m_speed := m_speed st; m_format := m_format st;
     m_maxWidth := m_maxWidth st; m_maxHeight := m_maxHeight st;
     m_width := m_width st; m_height := m_height st; m_state := m_state st;
     m_bFlush := m_bFlush st; m_bHasCachedFrame := m_bHasCachedFrame st;
     m_cachedFrame := m_cachedFrame st;
     m_renderBuffers := m_renderBuffers st; m_renderers := m_renderers st;
     m_scalers := m_scalers st; m_bTriggerUpdateResolution := v;
     m_renderSettings := m_renderSettings st; bufferPools := bufferPools st;
     buffers := buffers st; fullScreenVideo := fullScreenVideo st;
     scissors := scissors st; trace := trace st |}.
Definition set_m_renderSettings (v : CRenderSettings) (st : State) : State :=
  {| m_speed := m_speed st; m_format := m_format st;
     m_maxWidth := m_maxWidth st; m_maxHeight := m_maxHeight st;
     m_width := m_width st; m_height := m_height st; m_state := m_state st;
     m_bFlush := m_bFlush st; m_bHasCachedFrame := m_bHasCachedFrame st;
     m_cachedFrame := m_cachedFrame st;
     m_renderBuffers := m_renderBuffers st; m_renderers := m_renderers st;
     m_scalers := m_scalers st;
     m_bTriggerUpdateResolution := m_bTriggerUpdateResolution st;
     m_renderSettings := v; bufferPools := bufferPools st;
     buffers := buffers st; fullScreenVideo := fullScreenVideo st;
     scissors := scissors st; trace := trace st |}.
Definition set_bufferPools (v : list IRenderBufferPool) (st : State) : State :=
  {| m_speed := m_speed st; m_format := m_format st;
     m_maxWidth := m_maxWidth st; m_maxHeight := m_maxHeight st;
     m_width := m_width st; m_height := m_height st; m_state := m_state st;
     m_bFlush := m_bFlush st; m_bHasCachedFrame := m_bHasCachedFrame st;
     m_cachedFrame := m_cachedFrame st;
     m_renderBuffers := m_renderBuffers st; m_renderers := m_renderers st;
     m_scalers := m_scalers st;
     m_bTriggerUpdateResolution := m_bTriggerUpdateResolution st;
     m_renderSettings := m_renderSettings st; bufferPools := v;
     buffers := buffers st; fullScreenVideo := fullScreenVideo st;
     scissors := scissors st; trace := trace st |}.
Definition set_buffers (v : gmap nat IRenderBuffer) (st : State) : State :=
  {| m_speed := m_speed st; m_format := m_format st;
     m_maxWidth := m_maxWidth st; m_maxHeight := m_maxHeight st;
     m_width := m_width st; m_height := m_height st; m_state := m_state st;
     m_bFlush := m_bFlush st; m_bHasCachedFrame := m_bHasCachedFrame st;
     m_cachedFrame := m_cachedFrame st;
     m_renderBuffers := m_renderBuffers st; m_renderers := m_renderers st;
     m_scalers := m_scalers st;
     m_bTriggerUpdateResolution := m_bTriggerUpdateResolution st;
     m_renderSettings := m_renderSettings st; bufferPools := bufferPools st;
     buffers := v; fullScreenVideo := fullScreenVideo st;
     scissors := scissors st; trace := trace st |}.
Definition set_fullScreenVideo (v : bool) (st : State) : State :=
  {| m_speed := m_speed st; m_format := m_format st;
     m_maxWidth := m_maxWidth st; m_maxHeight := m_maxHeight st;
     m_width := m_width st; m_height := m_height st; m_state := m_state st;
     m_bFlush := m_bFlush st; m_bHasCachedFrame := m_bHasCachedFrame st;
     m_cachedFrame := m_cachedFrame st;
     m_renderBuffers := m_renderBuffers st; m_renderers := m_renderers st;
     m_scalers := m_scalers st;
     m_bTriggerUpdateResolution := m_bTriggerUpdateResolution st;
     m_renderSettings := m_renderSettings st; bufferPools := bufferPools st;
     buffers := buffers st; fullScreenVideo := v; scissors := scissors st;
     trace := trace st |}.
Definition set_scissors (v : CRect) (st : State) : State :=
  {| m_speed := m_speed st; m_format := m_format st;
     m_maxWidth := m_maxWidth st; m_maxHeight := m_maxHeight st;
     m_width := m_width st; m_height := m_height st; m_state := m_state st;
     m_bFlush := m_bFlush st; m_bHasCachedFrame := m_bHasCachedFrame st;
     m_cachedFrame := m_cachedFrame st;
     m_renderBuffers := m_renderBuffers st; m_renderers := m_renderers st;
     m_scalers := m_scalers st;
     m_bTriggerUpdateResolution := m_bTriggerUpdateResolution st;
     m_renderSettings := m_renderSettings st; bufferPools := bufferPools st;
     buffers := buffers st; fullScreenVideo := fullScreenVideo st;
     scissors := v; trace := trace st |}.
Definition set_trace (v : list Event) (st : State) : State :=
  {| m_speed := m_speed st; m_format := m_format st;
     m_maxWidth := m_maxWidth st; m_maxHeight := m_maxHeight st;
     m_width := m_width st; m_height := m_height st; m_state := m_state st;
     m_bFlush := m_bFlush st; m_bHasCachedFrame := m_bHasCachedFrame st;
     m_cachedFrame := m_cachedFrame st;
     m_renderBuffers := m_renderBuffers st; m_renderers := m_renderers st;
     m_scalers := m_scalers st;
     m_bTriggerUpdateResolution := m_bTriggerUpdateResolution st;
     m_renderSettings := m_renderSettings st; bufferPools := bufferPools st;
     buffers := buffers st; fullScreenVideo := fullScreenVideo st;
     scissors := scissors st; trace := v |}.

Inductive Fault :=
| NullPointer
| InvalidPointer
| OutOfBounds
| DivisionByZero.

Inductive Result (A : Type) :=
| Ok (a : A) (st : State)
| Crash (f : Fault).
Arguments Ok {A} a st.
Arguments Crash {A} f.

Definition M (A : Type) := State -> Result A.

Definition ret {A} (a : A) : M A := fun st => Ok a st.
Definition bind {A B} (m : M A) (k : A -> M B) : M B :=
  fun st => match m st with
            | Ok a st' => k a st'
            | Crash f => Crash f
            end.
Definition crash {A} (f : Fault) : M A := fun _ => Crash f.
Definition get : M State := fun st => Ok st st.
Definition modify (f : State -> State) : M unit := fun st => Ok tt (f st).

#[global] Instance M_ret : MRet M := @ret.
#[global] Instance M_bind : MBind M := fun A B k m => bind m k.

Fixpoint forM_ {A} (l : list A) (f : A -> M unit) : M unit :=
  match l with
  | [] => ret tt
  | x :: l' => f x;; forM_ l' f
  end.

Definition when (b : bool) (m : M unit) : M unit := if b then m else ret tt.

(** ** Collaborators

    What the manager calls but does not define: the pixel translator,
    libswscale, the buffer pools, the process info and the renderers'
    virtual methods.  They are parameters of the embedding. *)

Class Collaborators := {
  (* CRenderTranslator *)
  TranslateWidthToBytes : N -> AVPixelFormat -> N;
  (* libswscale: the cached-context constructor may return nullptr *)
  sws_getCachedContext :
    option SwsContext -> Z -> Z -> AVPixelFormat -> Z -> Z -> AVPixelFormat ->
    Z -> option SwsContext;
  (* sws_scale ctx src srcStride srcSliceY srcSliceH dst dstStride, on plane 0 *)
  sws_scale :
    SwsContext -> list byte -> Z -> Z -> Z -> list byte -> Z -> list byte;
  (* IRenderBufferPool *)
  pool_IsCompatible : nat -> CRenderVideoSettings -> bool;
  pool_GetBuffer :
    nat -> N -> gmap nat IRenderBuffer -> option nat * gmap nat IRenderBuffer;
  (* CRenderBufferManager *)
  FlushPools : gmap nat IRenderBuffer -> gmap nat IRenderBuffer;
  (* CRPProcessInfo *)
  CreateRenderer : nat -> CRenderSettings -> option CRPBaseRenderer;
  new_renderer_ptr : list nat -> nat;
  HasScalingMethod : SCALINGMETHOD -> bool;
  GetDefaultScalingMethod : SCALINGMETHOD;
  (* CRPBaseRenderer *)
  renderer_Configure : CRPBaseRenderer -> AVPixelFormat -> N -> N -> bool;
  renderer_IsCompatible : CRPBaseRenderer -> CRenderVideoSettings -> bool;
  renderer_Supports : CRPBaseRenderer -> RENDERFEATURE -> bool;
  (* CRenderVideoSettings: its default constructor, and SetVideoFilter *)
  CRenderVideoSettings_default : CRenderVideoSettings;
  SetVideoFilter : string -> CRenderVideoSettings -> CRenderVideoSettings;
  (* CRenderContext and CRect *)
  MergeAlpha : N -> N;
  rect_Intersect : CRect -> CRect -> CRect
}.

(** std::memcpy between two arrays; [None] when a range leaves its array. *)
Definition memcpy (target : list byte) (targetOffset : N) (source : list byte)
    (sourceOffset count : N) : option (list byte) :=
  if (targetOffset + count <=? N.of_nat (length target))
     && (sourceOffset + count <=? N.of_nat (length source))
  then Some (take (N.to_nat targetOffset) target
             ++ take (N.to_nat count) (drop (N.to_nat sourceOffset) source)
             ++ drop (N.to_nat (targetOffset + count)) target)
  else None.

(** std::vector::resize. *)
Definition resize (n : N) (v : list byte) : list byte :=
  take (N.to_nat n) v ++ replicate (N.to_nat n - length v)%nat x00.

Definition is_empty {A} (l : list A) : bool :=
  match l with [] => true | _ => false end.

(** std::set::insert on the renderer set, ordered by address. *)
Fixpoint set_insert (r : CRPBaseRenderer) (l : list CRPBaseRenderer) :
    list CRPBaseRenderer :=
  match l with
  | [] => [r]
  | x :: l' =>
      if Nat.ltb (rnd_ptr r) (rnd_ptr x) then r :: x :: l'
      else if Nat.eqb (rnd_ptr r) (rnd_ptr x) then x :: l'
      else x :: set_insert r l'
  end.

(** A write through a shared_ptr to a renderer held in the set. *)
Definition update_renderer (r : CRPBaseRenderer) (l : list CRPBaseRenderer) :
    list CRPBaseRenderer :=
  map (fun x => if Nat.eqb (rnd_ptr x) (rnd_ptr r) then r else x) l.

(** The iteration order of the std::map of scaler contexts. *)
Definition scaler_le (a b : Z * option SwsContext) : Prop := (a.1 ≤ b.1)%Z.
#[global] Instance scaler_le_dec : RelDecision scaler_le.
Proof. intros a b. unfold scaler_le. apply _. Defined.

Section Manager.
Context `{Collaborators}.

(** ** Primitive steps *)

Definition emit (e : Event) : M unit :=
  modify (fun st => set_trace (trace st ++ [e]) st).

Definition deref (buffer : nat) : M IRenderBuffer :=
  fun st => match buffers st !! buffer with
            | Some rb => Ok rb st
            | None => Crash InvalidPointer
            end.

Definition store (buffer : nat) (rb : IRenderBuffer) : M unit :=
  modify (fun st => set_buffers (<[buffer := rb]> (buffers st)) st).

Definition Acquire (buffer : nat) : M unit :=
  rb ← deref buffer;
  store buffer (rb_with_refs (rb_refs rb + 1) rb);;
  emit (EvAcquire buffer).

Definition Release (buffer : nat) : M unit :=
  rb ← deref buffer;
  store buffer (rb_with_refs (rb_refs rb - 1) rb);;
  emit (EvRelease buffer).

Definition UploadTexture (buffer : nat) : M bool :=
  rb ← deref buffer;
  emit (EvUploadTexture buffer (rb_upload rb));;
  mret (rb_upload rb).

Definition SetLoaded (buffer : nat) (loaded : bool) : M unit :=
  rb ← deref buffer;
  store buffer (rb_with_loaded loaded rb);;
  emit (EvSetLoaded buffer loaded).

Definition GetBuffer (pool : nat) (size : N) : M (option nat) :=
  fun st =>
    let r := pool_GetBuffer pool size (buffers st) in
    Ok r.1 (set_trace (trace st ++ [EvGetBuffer pool size r.1])
              (set_buffers r.2 st)).

(** Every assignment to m_renderBuffers. *)
Definition store_renderBuffers (l : list nat) : M unit :=
  modify (set_m_renderBuffers l);;
  emit (EvStoreRenderBuffers l).

Definition udiv (a b : N) : M N :=
  if b =? 0 then crash DivisionByZero else mret (a / b).

(** std::memcpy into the memory of a render buffer. *)
Definition buffer_memcpy (buffer : nat) (targetOffset : N) (source : list byte)
    (sourceOffset count : N) : M unit :=
  rb ← deref buffer;
  match rb_memory rb with
  | None => crash NullPointer
  | Some target =>
      match memcpy target targetOffset source sourceOffset count with
      | Some target' =>
          store buffer (rb_with_memory (Some target') rb);;
          emit (EvMemcpyBuffer buffer targetOffset sourceOffset count)
      | None => crash OutOfBounds
      end
  end.

(** ** CRPRenderManager *)

Definition Initialize : M unit := mret tt.

Definition Flush : M unit := modify (set_m_bFlush true).

Definition SetSpeed (speed : float) : M unit := modify (set_m_speed speed).

Definition TriggerUpdateResolution : M unit :=
  modify (set_m_bTriggerUpdateResolution true).

Definition UpdateResolution : M unit := mret tt.

Definition ClearBackground : M unit := emit (EvClear 0).

Definition Deinitialize : M unit :=
  st ← get;
  forM_ (merge_sort scaler_le (map_to_list (m_scalers st)))
    (fun pixelScaler =>
       match pixelScaler.2 with
       | Some _ => emit (EvSwsFreeContext pixelScaler.1)
       | None => mret tt
       end);;
  modify (set_m_scalers ∅);;
  st ← get;
  forM_ (m_renderBuffers st) Release;;
  store_renderBuffers [];;
  modify (set_m_renderers []);;
  modify (set_m_state UNCONFIGURED).

Definition Configure (format : AVPixelFormat)
    (nominalWidth nominalHeight maxWidth maxHeight : N) : M bool :=
  emit (EvConfigure format nominalWidth nominalHeight maxWidth maxHeight);;
  modify (set_m_format format);;
  modify (set_m_maxWidth maxWidth);;
  modify (set_m_maxHeight maxHeight);;
  modify (set_m_width nominalWidth);;
  modify (set_m_height nominalHeight);;
  st ← get;
  (if is_state (m_state st) UNCONFIGURED
   then modify (set_m_state CONFIGURING)
   else Flush;; modify (set_m_state RECONFIGURING));;
  mret true.

(** The loop of the row-by-row copy: [count] rows are left, [i] is next. *)
Fixpoint CopyFrame_rows (count : nat) (i : N) (renderBuffer : nat)
    (source : list byte) (sourceStride targetStride widthBytes : N) : M unit :=
  match count with
  | O => mret tt
  | S count' =>
      buffer_memcpy renderBuffer (u32 (targetStride * i))
        source (u32 (sourceStride * i)) widthBytes;;
      CopyFrame_rows count' (i + 1) renderBuffer source
        sourceStride targetStride widthBytes
  end.

Definition CopyFrame (renderBuffer : nat) (format : AVPixelFormat)
    (data : list byte) (size width height : N) : M unit :=
  rb ← deref renderBuffer;
  emit (EvGetMemory renderBuffer);;
  match rb_memory rb with
  | Some target =>
      q ← udiv size height;
      let sourceStride := u32 q in
      q' ← udiv (rb_frameSize rb) (rb_height rb);
      let targetStride := u32 q' in
      st ← get;
      if bool_decide (m_format st = rb_format rb) then
        if sourceStride =? targetStride then
          buffer_memcpy renderBuffer 0 data 0 size
        else
          let widthBytes := TranslateWidthToBytes width (m_format st) in
          if 0 <? widthBytes then
            CopyFrame_rows (N.to_nat height) 0 renderBuffer data
              sourceStride targetStride widthBytes
          else mret tt
      else
        let scalerContext :=
          sws_getCachedContext (default None (m_scalers st !! rb_format rb))
            (s32 width) (s32 height) format
            (s32 (rb_width rb)) (s32 (rb_height rb)) (rb_format rb)
            SWS_FAST_BILINEAR in
        modify (set_m_scalers (<[rb_format rb := scalerContext]> (m_scalers st)));;
        match scalerContext with
        | Some ctx =>
            store renderBuffer
              (rb_with_memory
                 (Some (sws_scale ctx data (s32 sourceStride) 0 (s32 height)
                          target (s32 targetStride))) rb);;
            emit (EvSwsScale renderBuffer ctx (s32 sourceStride) (s32 height)
                    (s32 targetStride))
        | None => mret tt
        end
  | None => mret tt
  end;;
  emit (EvReleaseMemory renderBuffer).

(** std::find_if over m_renderBuffers on GetPool(). *)
Fixpoint find_buffer (bufferPool : nat) (l : list nat) : M (option nat) :=
  match l with
  | [] => mret None
  | b :: l' =>
      rb ← deref b;
      if bool_decide (rb_pool rb = bufferPool) then mret (Some b)
      else find_buffer bufferPool l'
  end.

Definition HasRenderBuffer (bufferPool : nat) : M bool :=
  st ← get;
  it ← find_buffer bufferPool (m_renderBuffers st);
  mret (bool_decide (is_Some it)).

Definition GetRenderBuffer (bufferPool : nat) : M (option nat) :=
  st ← get;
  if m_bFlush st || negb (is_state (m_state st) CONFIGURED) then mret None
  else
    it ← find_buffer bufferPool (m_renderBuffers st);
    match it with
    | Some renderBuffer => Acquire renderBuffer;; mret (Some renderBuffer)
    | None => mret None
    end.

Definition CreateRenderBuffer (bufferPool : nat) : M unit :=
  st ← get;
  if m_bFlush st || negb (is_state (m_state st) CONFIGURED) then mret tt
  else
    has ← HasRenderBuffer bufferPool;
    st ← get;
    if negb has && m_bHasCachedFrame st then
      let cachedFrame := m_cachedFrame st in
      modify (set_m_cachedFrame []);;            (* std::move *)
      if negb (is_empty cachedFrame) then
        renderBuffer ← GetBuffer bufferPool (N.of_nat (length cachedFrame));
        match renderBuffer with
        | Some b =>
            CopyFrame b (m_format st) cachedFrame
              (N.of_nat (length cachedFrame)) (m_width st) (m_height st);;
            st' ← get;
            store_renderBuffers (m_renderBuffers st' ++ [b])
        | None => mret tt
        end;;
        modify (set_m_cachedFrame cachedFrame)   (* moved back *)
      else mret tt
    else mret tt.

(** CreateRenderBuffer beside the thread that calls AddFrame.  The code
    gives up m_bufferMutex for the time of CopyFrame (the CSingleExit of
    lines 509-512) and takes it again before emplace_back, which appends to
    the set as it then is.  [producer] is what the other thread does under
    the mutex in that time; the copy writes nothing but the memory of the
    new buffer, the scaler contexts and the trace, so [producer] is run
    after it. *)
Definition CreateRenderBuffer_unlocked (producer : M unit) (bufferPool : nat) :
    M unit :=
  st ← get;
  if m_bFlush st || negb (is_state (m_state st) CONFIGURED) then mret tt
  else
    has ← HasRenderBuffer bufferPool;
    st ← get;
    if negb has && m_bHasCachedFrame st then
      let cachedFrame := m_cachedFrame st in
      modify (set_m_cachedFrame []);;            (* std::move *)
      if negb (is_empty cachedFrame) then
        renderBuffer ← GetBuffer bufferPool (N.of_nat (length cachedFrame));
        match renderBuffer with
        | Some b =>
            CopyFrame b (m_format st) cachedFrame
              (N.of_nat (length cachedFrame)) (m_width st) (m_height st);;
            producer;;                           (* m_bufferMutex given up *)
            st' ← get;
            store_renderBuffers (m_renderBuffers st' ++ [b])
        | None => mret tt
        end;;
        modify (set_m_cachedFrame cachedFrame)   (* moved back *)
      else mret tt
    else mret tt.

(** The loop of AddFrame over the buffer pools; returns [renderBuffers]. *)
Fixpoint AddFrame_pools (pools : list IRenderBufferPool) (data : list byte)
    (size width height : N) : M (list nat) :=
  match pools with
  | [] => mret []
  | bufferPool :: pools' =>
      if negb (pool_HasVisibleRenderer bufferPool) then
        AddFrame_pools pools' data size width height
      else
        renderBuffer ← GetBuffer (pool_ptr bufferPool) size;
        match renderBuffer with
        | Some b =>
            st ← get;
            CopyFrame b (m_format st) data size width height;;
            renderBuffers ← AddFrame_pools pools' data size width height;
            mret (b :: renderBuffers)
        | None => AddFrame_pools pools' data size width height
        end
  end.

(** The block of AddFrame that caches a frame that arrived while paused. *)
Definition AddFrame_cache (data : list byte) (size : N) : M unit :=
  st ← get;
  if PrimFloat.eqb (m_speed st) 0%float then
    let moved := m_cachedFrame st in
    modify (set_m_cachedFrame []);;              (* std::move *)
    cachedFrame ←
      (if negb (m_bHasCachedFrame st)
       then modify (set_m_bHasCachedFrame true);; mret (resize size moved)
       else mret moved);
    if negb (is_empty cachedFrame) then
      match memcpy cachedFrame 0 data 0 size with
      | Some cachedFrame' =>
          emit (EvMemcpyCache size);;
          modify (set_m_cachedFrame cachedFrame')
      | None => crash OutOfBounds
      end
    else mret tt
  else mret tt.

Definition AddFrame (data : option (list byte))
    (size width height orientationDegCCW : N) : M unit :=
  st ← get;
  if m_bFlush st || negb (is_state (m_state st) CONFIGURED) then mret tt
  else
    match data with
    | None => mret tt
    | Some bytes =>
        if (size =? 0) || (width =? 0) || (height =? 0) then mret tt
        else if negb (width =? m_width st) || negb (height =? m_height st) then
          Configure (m_format st) width height (m_maxWidth st) (m_maxHeight st);;
          mret tt
        else
          renderBuffers ← AddFrame_pools (bufferPools st) bytes size width height;
          st' ← get;
          forM_ (m_renderBuffers st') Release;;
          store_renderBuffers renderBuffers;;
          AddFrame_cache bytes size
    end.

Definition CheckFlush : M unit :=
  st ← get;
  if m_bFlush st then
    forM_ (m_renderBuffers st) Release;;
    store_renderBuffers [];;
    modify (set_m_cachedFrame []);;
    modify (set_m_bHasCachedFrame false);;
    forM_ (m_renderers st) (fun renderer => emit (EvRendererFlush (rnd_ptr renderer)));;
    modify (fun st => set_buffers (FlushPools (buffers st)) st);;
    emit EvFlushPools;;
    modify (set_m_bFlush false)
  else mret tt.

Definition FrameMove : M unit :=
  CheckFlush;;
  st ← get;
  (if is_state (m_state st) CONFIGURING then
     emit EvPostMsgSwitchToFullscreen;;
     modify (set_m_state CONFIGURED)
   else if is_state (m_state st) RECONFIGURING then
     forM_ (m_renderers st)
       (fun renderer =>
          emit (EvRendererConfigure (rnd_ptr renderer)
                  (m_format st) (m_width st) (m_height st)));;
     modify (set_m_state CONFIGURED)
   else mret tt);;
  st' ← get;
  let bIsConfigured := is_state (m_state st') CONFIGURED in
  when bIsConfigured
    (forM_ (m_renderers st')
       (fun renderer => emit (EvRendererFrameMove (rnd_ptr renderer)))).

Definition GetEffectiveSettings (settings : option IGUIRenderSettings)
    (st : State) : CRenderVideoSettings :=
  let base := VideoSettings (m_renderSettings st) in
  let effectiveSettings :=
    match settings with
    | Some s =>
        let requested := VideoSettings (GetSettings s) in
        let e1 := if HasVideoFilter s
                  then SetVideoFilter (vs_videoFilter requested) base else base in
        let e2 := if HasViewMode s
                  then SetRenderViewMode (vs_renderViewMode requested) e1 else e1 in
        if HasRotation s
        then SetRenderRotation (vs_renderRotation requested) e2 else e2
    | None => base
    end in
  if negb (HasScalingMethod (vs_scalingMethod effectiveSettings))
  then SetScalingMethod GetDefaultScalingMethod effectiveSettings
  else effectiveSettings.

(** GetRenderer(IRenderBufferPool*, const CRenderSettings&). *)
Definition GetRenderer_pool (bufferPool : nat) (renderSettings : CRenderSettings) :
    M (option CRPBaseRenderer) :=
  if negb (pool_IsCompatible bufferPool (VideoSettings renderSettings))
  then mret None
  else
    st ← get;
    match find (fun it => bool_decide (rnd_bufferPool it = bufferPool)
                          && renderer_IsCompatible it (VideoSettings renderSettings))
               (m_renderers st) with
    | Some it => mret (Some it)
    | None =>
        emit (EvCreateRenderer bufferPool);;
        match CreateRenderer bufferPool renderSettings with
        | Some created =>
            let renderer :=
              rnd_with_ptr (new_renderer_ptr (map rnd_ptr (m_renderers st)))
                created in
            emit (EvRendererConfigure (rnd_ptr renderer)
                    (m_format st) (m_width st) (m_height st));;
            if renderer_Configure renderer (m_format st) (m_width st) (m_height st)
            then
              CreateRenderBuffer (rnd_bufferPool renderer);;
              modify (fun st => set_m_renderers (set_insert renderer (m_renderers st)) st);;
              mret (Some renderer)
            else mret None
        | None => mret None
        end
    end.

(** The loop of GetRenderer over the buffer pools. *)
Fixpoint GetRenderer_pools (pools : list IRenderBufferPool)
    (renderSettings : CRenderSettings) : M (option CRPBaseRenderer) :=
  match pools with
  | [] => mret None
  | bufferPool :: pools' =>
      renderer ← GetRenderer_pool (pool_ptr bufferPool) renderSettings;
      match renderer with
      | Some r => mret (Some r)
      | None => GetRenderer_pools pools' renderSettings
      end
  end.

Definition GetRenderer (renderSettings : option IGUIRenderSettings) :
    M (option CRPBaseRenderer) :=
  st ← get;
  if is_state (m_state st) UNCONFIGURED then mret None
  else
    let effectiveRenderSettings :=
      {| VideoSettings := GetEffectiveSettings renderSettings st |} in
    renderer ← GetRenderer_pools (bufferPools st) effectiveRenderSettings;
    match renderer with
    | Some r =>
        let r' := rnd_with_settings
                    (vs_scalingMethod (VideoSettings effectiveRenderSettings))
                    (vs_renderViewMode (VideoSettings effectiveRenderSettings))
                    (vs_renderRotation (VideoSettings effectiveRenderSettings)) r in
        modify (fun st => set_m_renderers (update_renderer r' (m_renderers st)) st);;
        mret (Some r')
    | None => mret None
    end.

Definition RenderInternal (renderer : CRPBaseRenderer) (bClear : bool)
    (alpha : N) : M unit :=
  emit (EvPreRender (rnd_ptr renderer) bClear);;
  found ← GetRenderBuffer (rnd_bufferPool renderer);
  renderBuffer ←
    match found with
    | None =>
        CreateRenderBuffer (rnd_bufferPool renderer);;
        GetRenderBuffer (rnd_bufferPool renderer)
    | Some b => mret (Some b)
    end;
  match renderBuffer with
  | Some b =>
      rb ← deref b;
      bUploaded ←
        (if negb (rb_loaded rb)
         then uploaded ← UploadTexture b; SetLoaded b true;; mret uploaded
         else mret true);
      when bUploaded (emit (EvSetBuffer (rnd_ptr renderer) b));;
      Release b
  | None => mret tt
  end;;
  emit (EvRenderFrame (rnd_ptr renderer) bClear alpha).

Definition SetFullScreenVideo (v : bool) : M unit :=
  modify (set_fullScreenVideo v);; emit (EvSetFullScreenVideo v).

Definition SetScissors (r : CRect) : M unit :=
  modify (set_scissors r);; emit (EvSetScissors r).

Definition RenderWindow (bClear : bool) (coordsRes : nat) : M unit :=
  renderer ← GetRenderer None;
  match renderer with
  | None => mret tt
  | Some r =>
      emit EvSetRenderingResolutionVideo;;
      RenderInternal r bClear 255;;
      emit (EvSetRenderingResolution coordsRes)
  end.

Definition RenderControl (bClear bUseAlpha : bool) (renderRegion : CRect)
    (renderSettings : option IGUIRenderSettings) : M unit :=
  renderer ← GetRenderer renderSettings;
  match renderer with
  | None => mret tt
  | Some r =>
      st ← get;
      let bWasFullscreen := fullScreenVideo st in
      when bWasFullscreen (SetFullScreenVideo false);;
      match renderSettings with
      | None => crash NullPointer
      | Some settings =>
          emit (EvSetViewWindow (GetDimensions settings));;
          emit EvSetTransform;;
          when bClear
            (st' ← get;
             let old := scissors st' in
             SetScissors (rect_Intersect renderRegion old);;
             emit (EvClear 0);;
             SetScissors old);;
          let alpha := if bUseAlpha
                       then N.shiftr (MergeAlpha 0xFF000000) 24 else 255 in
          RenderInternal r false alpha;;
          emit EvRemoveTransform;;
          when bWasFullscreen (SetFullScreenVideo true)
      end
  end.

Definition SupportsRenderFeature (feature : RENDERFEATURE) (st : State) : bool :=
  existsb (fun renderer => renderer_Supports renderer feature) (m_renderers st).

Definition SupportsScalingMethod (method : SCALINGMETHOD) (st : State) : bool :=
  existsb (fun bufferPool =>
             pool_IsCompatible (pool_ptr bufferPool)
               (SetScalingMethod method CRenderVideoSettings_default))
          (bufferPools st).

End Manager.

(** ** The member functions as one call type *)

Inductive Call :=
| CallInitialize
| CallDeinitialize
| CallConfigure (format : AVPixelFormat) (nominalWidth nominalHeight maxWidth maxHeight : N)
| CallAddFrame (data : option (list byte)) (size width height orientationDegCCW : N)
| CallSetSpeed (speed : float)
| CallFrameMove
| CallCheckFlush
| CallFlush
| CallTriggerUpdateResolution
| CallRenderWindow (bClear : bool) (coordsRes : nat)
| CallRenderControl (bClear bUseAlpha : bool) (renderRegion : CRect)
    (renderSettings : option IGUIRenderSettings)
| CallClearBackground
| CallRenderInternal (renderer : CRPBaseRenderer) (bClear : bool) (alpha : N)
| CallGetRenderer (renderSettings : option IGUIRenderSettings)
| CallHasRenderBuffer (bufferPool : nat)
| CallGetRenderBuffer (bufferPool : nat)
| CallCreateRenderBuffer (bufferPool : nat)
| CallCopyFrame (renderBuffer : nat) (format : AVPixelFormat) (data : list byte)
    (size width height : N)
| CallUpdateResolution.

Definition run `{Collaborators} (c : Call) : M unit :=
  match c with
  | CallInitialize => Initialize
  | CallDeinitialize => Deinitialize
  | CallConfigure f nw nh mw mh => Configure f nw nh mw mh;; mret tt
  | CallAddFrame d s w h o => AddFrame d s w h o
  | CallSetSpeed v => SetSpeed v
  | CallFrameMove => FrameMove
  | CallCheckFlush => CheckFlush
  | CallFlush => Flush
  | CallTriggerUpdateResolution => TriggerUpdateResolution
  | CallRenderWindow c r => RenderWindow c r
  | CallRenderControl c a r s => RenderControl c a r s
  | CallClearBackground => ClearBackground
  | CallRenderInternal r c a => RenderInternal r c a
  | CallGetRenderer s => GetRenderer s;; mret tt
  | CallHasRenderBuffer p => HasRenderBuffer p;; mret tt
  | CallGetRenderBuffer p => GetRenderBuffer p;; mret tt
  | CallCreateRenderBuffer p => CreateRenderBuffer p
  | CallCopyFrame b f d s w h => CopyFrame b f d s w h
  | CallUpdateResolution => UpdateResolution
  end.

(** A sequence of calls, stopping at the first crash. *)
Fixpoint run_all `{Collaborators} (cs : list Call) : M unit :=
  match cs with
  | [] => mret tt
  | c :: cs' => run c;; run_all cs'
  end.

(** ** What the pools are assumed to do

    A pool hands out a buffer that nobody references, bound to that pool and
    with a reference taken for the caller; it leaves referenced buffers
    alone. *)
Class PoolContract `{Collaborators} : Prop := {
  GetBuffer_keeps : forall p n h b rb,
    h !! b = Some rb -> (1 <= rb_refs rb)%Z ->
    (pool_GetBuffer p n h).2 !! b = Some rb;
  GetBuffer_result : forall p n h b,
    (pool_GetBuffer p n h).1 = Some b ->
    (forall rb0, h !! b = Some rb0 -> (rb_refs rb0 <= 0)%Z)
    /\ exists rb, (pool_GetBuffer p n h).2 !! b = Some rb
                  /\ rb_pool rb = p /\ (1 <= rb_refs rb)%Z
}.

(** ** A sample installation *)

Module Sample.

Definition AV_PIX_FMT_RGB565 : AVPixelFormat := 37%Z.
Definition AV_PIX_FMT_0RGB32 : AVPixelFormat := 295%Z.

(** Modelled from the spec: [CRenderTranslator::TranslateWidthToBytes] is
    declared outside this file; the spec has the width of a row in bytes
    computed from format-specific bytes per pixel. *)
Definition bytes_per_pixel (format : AVPixelFormat) : N :=
  if bool_decide (format = AV_PIX_FMT_0RGB32) then 4
  else if bool_decide (format = AV_PIX_FMT_RGB565) then 2
  else 0.

Definition next_address (h : gmap nat IRenderBuffer) : nat :=
  foldr (fun kv acc => Nat.max (S kv.1) acc) O (map_to_list h).

(** Pool 0 holds RGB565 buffers, pool 1 holds 0RGB32 buffers whose upload
    fails, every other pool is out of buffers. *)
Definition new_buffer (pool : nat) (size : N) : IRenderBuffer :=
  {| rb_pool := pool; rb_refs := 1; rb_loaded := false;
     rb_format := if Nat.eqb pool 0 then AV_PIX_FMT_RGB565 else AV_PIX_FMT_0RGB32;
     rb_width := 4; rb_height := 2; rb_frameSize := size;
     rb_memory := Some (replicate (N.to_nat size) x00);
     rb_upload := Nat.eqb pool 0 |}.

Definition sample_GetBuffer (pool : nat) (size : N) (h : gmap nat IRenderBuffer) :
    option nat * gmap nat IRenderBuffer :=
  if Nat.ltb pool 2
  then (Some (next_address h), <[next_address h := new_buffer pool size]> h)
  else (None, h).

Definition default_settings : CRenderVideoSettings :=
  {| vs_videoFilter := ""; vs_scalingMethod := 1%Z;
     vs_renderViewMode := 0%Z; vs_renderRotation := 0 |}.

Definition collaborators : Collaborators :=
  {| TranslateWidthToBytes w f := u32 (w * bytes_per_pixel f);
     sws_getCachedContext old sw sh sf dw dh df flags :=
       Some {| sws_srcW := sw; sws_srcH := sh; sws_srcFormat := sf;
               sws_dstW := dw; sws_dstH := dh; sws_dstFormat := df;
               sws_flags := flags |};
     sws_scale ctx src srcStride y h dst dstStride := dst;
     pool_IsCompatible p s := Nat.ltb p 2;
     pool_GetBuffer := sample_GetBuffer;
     FlushPools h := h;
     CreateRenderer p s :=
       Some {| rnd_ptr := O; rnd_impl := p; rnd_bufferPool := p;
               rnd_scalingMethod := 0%Z; rnd_viewMode := 0%Z; rnd_rotation := 0 |};
     new_renderer_ptr l := foldr (fun a acc => Nat.max (S a) acc) (S O) l;
     HasScalingMethod m := bool_decide (m = 1%Z);
     GetDefaultScalingMethod := 1%Z;
     renderer_Configure r f w h := true;
     renderer_IsCompatible r s := true;
     renderer_Supports r f := true;
     CRenderVideoSettings_default := default_settings;
     SetVideoFilter v s :=
       {| vs_videoFilter := v; vs_scalingMethod := vs_scalingMethod s;
          vs_renderViewMode := vs_renderViewMode s;
          vs_renderRotation := vs_renderRotation s |};
     MergeAlpha c := c;
     rect_Intersect a b := a |}.

Definition pool0 : IRenderBufferPool :=
  {| pool_ptr := 0; pool_HasVisibleRenderer := true |}.
Definition pool1 : IRenderBufferPool :=
  {| pool_ptr := 1; pool_HasVisibleRenderer := true |}.

Definition no_rect : CRect := {| x1 := 0; y1 := 0; x2 := 0; y2 := 0 |}.

(** A manager right after construction, with two registered pools. *)
Definition fresh : State :=
  {| m_speed := 1; m_format := AV_PIX_FMT_RGB565;
     m_maxWidth := 0; m_maxHeight := 0; m_width := 0; m_height := 0;
     m_state := UNCONFIGURED; m_bFlush := false;
     m_bHasCachedFrame := false; m_cachedFrame := [];
     m_renderBuffers := []; m_renderers := []; m_scalers := ∅;
     m_bTriggerUpdateResolution := false;
     m_renderSettings := {| VideoSettings := default_settings |};
     bufferPools := [pool0; pool1]; buffers := ∅;
     fullScreenVideo := false; scissors := no_rect; trace := [] |}.

(** The state a computation ends in ([fresh] if it crashes). *)
Definition after {A} (m : M A) (st : State) : State :=
  match m st with Ok _ st' => st' | Crash _ => st end.

(** Configured for 4x2 RGB565 frames. *)
Definition configured : State :=
  after (run_all (H := collaborators)
           [CallConfigure AV_PIX_FMT_RGB565 4 2 4 2; CallFrameMove]) fresh.

Definition frame16 : list byte :=
  [x01; x02; x03; x04; x05; x06; x07; x08;
   x09; x0a; x0b; x0c; x0d; x0e; x0f; x10].

End Sample.

Lemma Sample_next_address_above (h : gmap nat IRenderBuffer) b rb :
  h !! b = Some rb -> (b < Sample.next_address h)%nat.
Proof.
  intros Hb. apply elem_of_map_to_list in Hb. unfold Sample.next_address.
  induction (map_to_list h) as [|kv l IH]; [inversion Hb |].
  apply elem_of_cons in Hb as [<- | Hb]; simpl; [lia |].
  specialize (IH Hb). lia.
Qed.

(** ** Reasoning about computations *)

Section Hoare.
Context `{Collaborators}.

Lemma bind_Ok {A B} (m : M A) (k : A -> M B) st b st'' :
  (m ≫= k) st = Ok b st'' <->
  exists a st', m st = Ok a st' /\ k a st' = Ok b st''.
Proof.
  unfold mbind, M_bind, bind. split.
  - destruct (m st) as [a st'|f]; [eauto | discriminate].
  - intros (a & st' & -> & Hk). exact Hk.
Qed.

Lemma bind_Ok_l {A B} (m : M A) (k : A -> M B) st a st' :
  m st = Ok a st' -> (m ≫= k) st = k a st'.
Proof. unfold mbind, M_bind, bind. intros ->. reflexivity. Qed.

Lemma bind_Crash_l {A B} (m : M A) (k : A -> M B) st f :
  m st = Crash f -> (m ≫= k) st = Crash f.
Proof. unfold mbind, M_bind, bind. intros ->. reflexivity. Qed.

(** [keeps f m]: the computation [m] leaves the observation [f] as it was. *)
Definition keeps {A T} (f : State -> T) (m : M A) : Prop :=
  forall st a st', m st = Ok a st' -> f st' = f st.

Lemma keeps_ret {A T} (f : State -> T) (a : A) : keeps f (mret a).
Proof. intros st a' st' E. inversion E. reflexivity. Qed.

Lemma keeps_get {T} (f : State -> T) : keeps f get.
Proof. intros st a' st' E. inversion E. reflexivity. Qed.

Lemma keeps_crash {A T} (f : State -> T) e : keeps f (crash (A := A) e).
Proof. intros st a' st' E. inversion E. Qed.

Lemma keeps_modify {T} (f : State -> T) g :
  (forall st, f (g st) = f st) -> keeps f (modify g).
Proof. intros Hg st a' st' E. inversion E. apply Hg. Qed.

Lemma keeps_bind {A B T} (f : State -> T) (m : M A) (k : A -> M B) :
  keeps f m -> (forall a, keeps f (k a)) -> keeps f (m ≫= k).
Proof.
  intros Hm Hk st b st'' E. apply bind_Ok in E as (a & st' & E1 & E2).
  rewrite (Hk _ _ _ _ E2). exact (Hm _ _ _ E1).
Qed.

Lemma keeps_forM_ {A T} (f : State -> T) (l : list A) (g : A -> M unit) :
  (forall x, keeps f (g x)) -> keeps f (forM_ l g).
Proof.
  intros Hg. induction l as [|x l IH]; simpl.
  - apply keeps_ret.
  - apply keeps_bind; [apply Hg | intros _; exact IH].
Qed.

Lemma keeps_when {T} (f : State -> T) b m : keeps f m -> keeps f (when b m).
Proof. intros Hm. destruct b; simpl; [exact Hm | apply keeps_ret]. Qed.

Lemma emit_run e st : emit e st = Ok tt (set_trace (trace st ++ [e]) st).
Proof. reflexivity. Qed.

Lemma forM_emit {A} (l : list A) (g : A -> Event) st :
  forM_ l (fun x => emit (g x)) st = Ok tt (set_trace (trace st ++ map g l) st).
Proof.
  revert st. induction l as [|x l IH]; intros st; simpl.
  - unfold mret, M_ret, ret. rewrite app_nil_r. destruct st; reflexivity.
  - erewrite bind_Ok_l by reflexivity. rewrite IH. simpl.
    rewrite <- app_assoc. reflexivity.
Qed.

Lemma keeps_GetBuffer {T} (f : State -> T) p n :
  (forall v st, f (set_trace v st) = f st) ->
  (forall v st, f (set_buffers v st) = f st) ->
  keeps f (GetBuffer p n).
Proof.
  intros Ht Hb st a st' E. unfold GetBuffer in E. inversion E.
  rewrite Ht, Hb. reflexivity.
Qed.

End Hoare.

(** *** Which members a member function leaves alone *)

Create HintDb keeps.

Definition ign {T V} (f : State -> T) (set : V -> State -> State) : Prop :=
  forall v st, f (set v st) = f st.

(** Splits a goal [keeps f m] along the structure of [m]. *)
Ltac keeps_auto :=
  repeat first
    [ assumption
    | solve [eauto with keeps]
    | apply keeps_ret | apply keeps_get | apply keeps_crash
    | apply keeps_bind; [| intros ?]
    | apply keeps_modify; intros;
      first [ reflexivity
            | match goal with Hi : ign _ _ |- _ => apply Hi end ]
    | apply keeps_GetBuffer; assumption
    | apply keeps_forM_; intros ?
    | apply keeps_when
    | match goal with
      | |- keeps _ (if ?b then _ else _) => destruct b
      | |- keeps _ (match ?x with _ => _ end) => destruct x
      end ].

(** Opens the primitive steps, then splits. *)
Ltac keeps_prim :=
  unfold emit, store, Acquire, Release, UploadTexture, SetLoaded,
    store_renderBuffers, udiv, buffer_memcpy, Flush, SetFullScreenVideo,
    SetScissors;
  keeps_auto.

(** Takes a successful run apart, step by step. *)
Ltac minv :=
  repeat match goal with
    | E : (_ ≫= _) _ = Ok _ _ |- _ =>
        apply bind_Ok in E; destruct E as (? & ? & ? & E)
    | E : mret _ _ = Ok _ _ |- _ => inversion E; subst; clear E
    | E : ret _ _ = Ok _ _ |- _ => inversion E; subst; clear E
    | E : get _ = Ok _ _ |- _ => inversion E; subst; clear E
    | E : modify _ _ = Ok _ _ |- _ => inversion E; subst; clear E
    | E : emit _ _ = Ok _ _ |- _ => rewrite emit_run in E; inversion E; subst; clear E
    | E : forM_ _ (fun x => emit _) _ = Ok _ _ |- _ =>
        rewrite forM_emit in E; inversion E; subst; clear E
    | E : crash _ _ = Ok _ _ |- _ => inversion E
    | E : Crash _ = Ok _ _ |- _ => inversion E
    | E : Ok _ _ = Ok _ _ |- _ => inversion E; subst; clear E
    end.

Section Frames.
Context `{Collaborators}.
Context {T : Type} (f : State -> T).

Lemma deref_keeps b : keeps f (deref b).
Proof.
  intros st a st' E. unfold deref in E.
  destruct (buffers st !! b); inversion E. reflexivity.
Qed.
#[local] Hint Resolve deref_keeps : keeps.

Lemma find_buffer_keeps p l : keeps f (find_buffer p l).
Proof. induction l as [|b l IH]; simpl; keeps_auto. Qed.
#[local] Hint Resolve find_buffer_keeps : keeps.

Lemma HasRenderBuffer_keeps p : keeps f (HasRenderBuffer p).
Proof. unfold HasRenderBuffer. keeps_auto. Qed.
#[local] Hint Resolve HasRenderBuffer_keeps : keeps.

(** Reference counting, uploading and looking a buffer up write the trace
    and the buffers. *)
Hypothesis Htrace : ign f set_trace.
Hypothesis Hbuffers : ign f set_buffers.

Lemma Release_keeps b : keeps f (Release b).
Proof. keeps_prim. Qed.
#[local] Hint Resolve Release_keeps : keeps.

Lemma GetRenderBuffer_keeps p : keeps f (GetRenderBuffer p).
Proof. unfold GetRenderBuffer. keeps_prim. Qed.
#[local] Hint Resolve GetRenderBuffer_keeps : keeps.

Lemma GetRenderer_pool_keeps p rs :
  ign f set_m_renderers -> (forall q, keeps f (CreateRenderBuffer q)) ->
  keeps f (GetRenderer_pool p rs).
Proof. intros ? ?. unfold GetRenderer_pool. keeps_prim. Qed.
#[local] Hint Resolve GetRenderer_pool_keeps : keeps.

Lemma GetRenderer_pools_keeps ps rs :
  ign f set_m_renderers -> (forall q, keeps f (CreateRenderBuffer q)) ->
  keeps f (GetRenderer_pools ps rs).
Proof. intros ? ?. induction ps as [|p ps IH]; simpl; keeps_auto. Qed.
#[local] Hint Resolve GetRenderer_pools_keeps : keeps.

Lemma GetRenderer_keeps rs :
  ign f set_m_renderers -> (forall q, keeps f (CreateRenderBuffer q)) ->
  keeps f (GetRenderer rs).
Proof. intros ? ?. unfold GetRenderer. keeps_prim. Qed.
#[local] Hint Resolve GetRenderer_keeps : keeps.

Lemma RenderInternal_keeps r c a :
  (forall q, keeps f (CreateRenderBuffer q)) -> keeps f (RenderInternal r c a).
Proof. intros ?. unfold RenderInternal. keeps_prim. Qed.
#[local] Hint Resolve RenderInternal_keeps : keeps.

Lemma RenderWindow_keeps c r :
  ign f set_m_renderers -> (forall q, keeps f (CreateRenderBuffer q)) ->
  keeps f (RenderWindow c r).
Proof. intros ? ?. unfold RenderWindow. keeps_prim. Qed.

Lemma RenderControl_keeps c a r rs :
  ign f set_m_renderers -> ign f set_fullScreenVideo -> ign f set_scissors ->
  (forall q, keeps f (CreateRenderBuffer q)) ->
  keeps f (RenderControl c a r rs).
Proof. intros ? ? ? ?. unfold RenderControl. keeps_prim. Qed.

(** Copying a frame also writes the scaler contexts. *)
Hypothesis Hscalers : ign f set_m_scalers.

Lemma CopyFrame_rows_keeps n i b src ss ts wb :
  keeps f (CopyFrame_rows n i b src ss ts wb).
Proof. revert i. induction n as [|n IH]; intros i; simpl; keeps_prim. Qed.
#[local] Hint Resolve CopyFrame_rows_keeps : keeps.

Lemma CopyFrame_keeps b fmt data size w h : keeps f (CopyFrame b fmt data size w h).
Proof. unfold CopyFrame. keeps_prim. Qed.
#[local] Hint Resolve CopyFrame_keeps : keeps.

Lemma AddFrame_pools_keeps ps data size w h :
  keeps f (AddFrame_pools ps data size w h).
Proof. induction ps as [|p ps IH]; simpl; keeps_prim. Qed.

(** Creating a render buffer also writes the buffer set and, for the time
    of the copy, the cached frame. *)
Lemma CreateRenderBuffer_keeps p :
  ign f set_m_renderBuffers -> ign f set_m_cachedFrame ->
  keeps f (CreateRenderBuffer p).
Proof. intros ? ?. unfold CreateRenderBuffer. keeps_prim. Qed.

End Frames.

#[global] Hint Resolve deref_keeps find_buffer_keeps HasRenderBuffer_keeps
  Release_keeps GetRenderBuffer_keeps CopyFrame_rows_keeps CopyFrame_keeps
  AddFrame_pools_keeps : keeps.
#[global] Hint Extern 1 (ign _ _) => (intros ? ?; reflexivity) : keeps.

(** Closes a side condition [ign f set] of a member [f]. *)
Ltac ign_auto := first [assumption | intros ? ?; reflexivity].

(** Closes [keeps f m] for a member function [m] other than Deinitialize,
    Configure, AddFrame, CheckFlush and FrameMove, and a member [f] that
    rendering does not write; [crb] proves it for CreateRenderBuffer. *)
Ltac keeps_member_with crb :=
  let side := first [ ign_auto | intros; crb ] in
  unfold Initialize, SetSpeed, Flush, TriggerUpdateResolution,
    ClearBackground, UpdateResolution, emit;
  first [ apply RenderWindow_keeps; side
        | apply RenderControl_keeps; side
        | apply RenderInternal_keeps; side
        | crb
        | apply CopyFrame_keeps; side
        | apply keeps_bind;
          [ first [ apply GetRenderer_keeps; side
                  | apply HasRenderBuffer_keeps
                  | apply GetRenderBuffer_keeps; side ]
          | intros ?; apply keeps_ret ]
        | solve [keeps_auto] ].

Ltac keeps_member :=
  keeps_member_with ltac:(apply CreateRenderBuffer_keeps; ign_auto).

Section Configuration.
Context `{Collaborators}.

(** *** Configure *)

(** The state Configure leaves. *)
Definition configured_with (format : AVPixelFormat)
    (nominalWidth nominalHeight maxWidth maxHeight : N) (st : State) : State :=
  let st1 :=
    set_m_height nominalHeight
      (set_m_width nominalWidth
         (set_m_maxHeight maxHeight
            (set_m_maxWidth maxWidth
               (set_m_format format
                  (set_trace
                     (trace st ++ [EvConfigure format nominalWidth nominalHeight
                                     maxWidth maxHeight]) st))))) in
  if is_state (m_state st) UNCONFIGURED
  then set_m_state CONFIGURING st1
  else set_m_state RECONFIGURING (set_m_bFlush true st1).

Lemma Configure_run format nw nh mw mh st :
  Configure format nw nh mw mh st = Ok true (configured_with format nw nh mw mh st).
Proof.
  unfold Configure, configured_with, emit, Flush, mbind, M_bind, bind, modify,
    get, mret, M_ret, ret. simpl.
  destruct (is_state (m_state st) UNCONFIGURED); reflexivity.
Qed.

(** C10. Configure returns true for every combination of arguments and from
    every state of the state machine: its boolean result never reports a
    failure. *)
Theorem Configure_returns_true :
  forall format nominalWidth nominalHeight maxWidth maxHeight st,
  exists st',
    Configure format nominalWidth nominalHeight maxWidth maxHeight st = Ok true st'.
Proof. intros. eexists. apply Configure_run. Qed.

(** *** The guards of AddFrame and CreateRenderBuffer *)

Lemma is_state_false a b : a <> b -> is_state a b = false.
Proof. intros. unfold is_state. apply bool_decide_eq_false. assumption. Qed.

Lemma is_state_true a : is_state a a = true.
Proof. unfold is_state. apply bool_decide_eq_true. reflexivity. Qed.

Lemma blocked_guard st :
  m_bFlush st = true \/ m_state st <> CONFIGURED ->
  m_bFlush st || negb (is_state (m_state st) CONFIGURED) = true.
Proof.
  intros [-> | Hs]; [reflexivity |].
  rewrite (is_state_false _ _ Hs). apply orb_true_r.
Qed.

Lemma open_guard st :
  m_bFlush st = false -> m_state st = CONFIGURED ->
  m_bFlush st || negb (is_state (m_state st) CONFIGURED) = false.
Proof. intros -> ->. reflexivity. Qed.

Lemma AddFrame_blocked data size width height o st :
  m_bFlush st = true \/ m_state st <> CONFIGURED ->
  AddFrame data size width height o st = Ok tt st.
Proof.
  intros Hg. unfold AddFrame. erewrite bind_Ok_l by reflexivity.
  rewrite (blocked_guard _ Hg). reflexivity.
Qed.

Lemma CreateRenderBuffer_blocked bufferPool st :
  m_bFlush st = true \/ m_state st <> CONFIGURED ->
  CreateRenderBuffer bufferPool st = Ok tt st.
Proof.
  intros Hg. unfold CreateRenderBuffer. erewrite bind_Ok_l by reflexivity.
  rewrite (blocked_guard _ Hg). reflexivity.
Qed.

(** C1. AddFrame is a no-op (the whole state, with the buffer heap, the
    render buffer set, the cached frame, the state machine and the trace of
    collaborator calls, is left as it was) when a flush is pending, the state
    is not CONFIGURED, data is null, or size, width or height is zero; so is
    CreateRenderBuffer when a flush is pending or the state is not
    CONFIGURED. *)
Theorem AddFrame_CreateRenderBuffer_guarded :
  forall data size width height orientationDegCCW bufferPool st,
    (m_bFlush st = true \/ m_state st <> CONFIGURED \/ data = None
     \/ size = 0 \/ width = 0 \/ height = 0 ->
     AddFrame data size width height orientationDegCCW st = Ok tt st)
    /\ (m_bFlush st = true \/ m_state st <> CONFIGURED ->
        CreateRenderBuffer bufferPool st = Ok tt st).
Proof.
  intros data size width height o bufferPool st. split.
  - intros Hc.
    destruct (m_bFlush st) eqn:Hf; [apply AddFrame_blocked; auto |].
    destruct (decide (m_state st = CONFIGURED)) as [Hs | Hs];
      [| apply AddFrame_blocked; auto].
    destruct Hc as [Hc | [Hc | Hc]]; [discriminate | contradiction |].
    unfold AddFrame. erewrite bind_Ok_l by reflexivity.
    rewrite (open_guard _ Hf Hs).
    destruct data as [bytes|]; [| reflexivity].
    destruct Hc as [Hc | [-> | [-> | ->]]]; [discriminate | reflexivity | |].
    + rewrite orb_true_r. reflexivity.
    + rewrite !orb_true_r. reflexivity.
  - apply CreateRenderBuffer_blocked.
Qed.

(** C2, as amended. With no flush pending, the state CONFIGURED and a valid
    frame whose width or height differs from the configured one, AddFrame
    makes exactly one Configure call, with the new dimensions, and nothing
    else: the trace grows by that one call, no buffer and no cached byte is
    written, the flush is armed and the state is RECONFIGURING. *)
Theorem AddFrame_mismatch_reconfigures :
  forall bytes size width height orientationDegCCW st,
    m_bFlush st = false -> m_state st = CONFIGURED ->
    size <> 0 -> width <> 0 -> height <> 0 ->
    width <> m_width st \/ height <> m_height st ->
    exists st',
      AddFrame (Some bytes) size width height orientationDegCCW st = Ok tt st'
      /\ trace st' = trace st ++ [EvConfigure (m_format st) width height
                                    (m_maxWidth st) (m_maxHeight st)]
      /\ buffers st' = buffers st
      /\ m_renderBuffers st' = m_renderBuffers st
      /\ m_cachedFrame st' = m_cachedFrame st
      /\ m_bHasCachedFrame st' = m_bHasCachedFrame st
      /\ m_width st' = width /\ m_height st' = height
      /\ m_bFlush st' = true
      /\ m_state st' = RECONFIGURING.
Proof.
  intros bytes size width height o st Hf Hs Hsize Hw Hh Hd.
  exists (configured_with (m_format st) width height (m_maxWidth st)
            (m_maxHeight st) st).
  split.
  - unfold AddFrame. erewrite bind_Ok_l by reflexivity.
    rewrite (open_guard _ Hf Hs).
    apply N.eqb_neq in Hsize, Hw, Hh. rewrite Hsize, Hw, Hh. simpl.
    assert (negb (width =? m_width st) || negb (height =? m_height st) = true)
      as ->.
    { destruct Hd as [Hd | Hd]; apply N.eqb_neq in Hd; rewrite Hd;
        [reflexivity | apply orb_true_r]. }
    erewrite bind_Ok_l by apply Configure_run. reflexivity.
  - unfold configured_with. rewrite Hs. simpl. repeat split; reflexivity.
Qed.

Lemma CheckFlush_keeps {T} (f : State -> T) :
  ign f set_trace -> ign f set_buffers -> ign f set_m_renderBuffers ->
  ign f set_m_cachedFrame -> ign f set_m_bHasCachedFrame -> ign f set_m_bFlush ->
  keeps f CheckFlush.
Proof.
  intros. unfold CheckFlush. keeps_prim.
Qed.

Lemma CheckFlush_keeps_config :
  keeps (fun st => (m_state st, m_renderers st, m_format st, m_width st, m_height st))
    CheckFlush.
Proof. apply CheckFlush_keeps; intros ? ?; reflexivity. Qed.

(** Only FrameMove can set the state to CONFIGURED. *)
Lemma only_FrameMove_commits c st st' :
  c <> CallFrameMove -> m_state st <> CONFIGURED ->
  run c st = Ok tt st' -> m_state st' <> CONFIGURED.
Proof.
  intros Hc Hs E.
  assert (keeps m_state (run c) -> m_state st' <> CONFIGURED) as Hk.
  { intros Hk. rewrite (Hk _ _ _ E). exact Hs. }
  destruct c; simpl in E; try contradiction;
    try solve [apply Hk; simpl; keeps_member].
  - (* Deinitialize ends in UNCONFIGURED *)
    unfold Deinitialize in E. minv. simpl. discriminate.
  - (* Configure ends in CONFIGURING or RECONFIGURING *)
    apply bind_Ok in E as (a & st1 & E & E2). rewrite Configure_run in E.
    minv. unfold configured_with.
    destruct (is_state (m_state st) UNCONFIGURED); simpl; discriminate.
  - (* AddFrame is behind its guard *)
    rewrite AddFrame_blocked in E by auto. inversion E; subst. exact Hs.
Qed.

(** C3. Configure records the format and the dimensions and never sets the
    state to CONFIGURED: from UNCONFIGURED it goes to CONFIGURING, from any
    other state it arms a flush and goes to RECONFIGURING.  No member function
    other than FrameMove takes a state that is not CONFIGURED to CONFIGURED.
    FrameMove commits CONFIGURING and RECONFIGURING to CONFIGURED, and on
    RECONFIGURING it first calls Configure(format, width, height) on every
    renderer of the set, in the set's order. *)
Theorem Configure_commit_is_deferred :
  (forall format nominalWidth nominalHeight maxWidth maxHeight st,
     exists st',
       Configure format nominalWidth nominalHeight maxWidth maxHeight st = Ok true st'
       /\ m_format st' = format
       /\ m_width st' = nominalWidth /\ m_height st' = nominalHeight
       /\ m_maxWidth st' = maxWidth /\ m_maxHeight st' = maxHeight
       /\ m_state st' <> CONFIGURED
       /\ (m_state st = UNCONFIGURED ->
           m_state st' = CONFIGURING /\ m_bFlush st' = m_bFlush st)
       /\ (m_state st <> UNCONFIGURED ->
           m_state st' = RECONFIGURING /\ m_bFlush st' = true))
  /\ (forall c st st',
        c <> CallFrameMove -> m_state st <> CONFIGURED ->
        run c st = Ok tt st' -> m_state st' <> CONFIGURED)
  /\ (forall st st1,
        CheckFlush st = Ok tt st1 ->
        m_state st = CONFIGURING \/ m_state st = RECONFIGURING ->
        exists st',
          FrameMove st = Ok tt st'
          /\ m_state st' = CONFIGURED
          /\ (m_state st = RECONFIGURING ->
              trace st' =
                trace st1
                ++ map (fun r => EvRendererConfigure (rnd_ptr r) (m_format st)
                                   (m_width st) (m_height st)) (m_renderers st)
                ++ map (fun r => EvRendererFrameMove (rnd_ptr r)) (m_renderers st))).
Proof.
  split; [| split].
  - intros. eexists. split; [apply Configure_run |].
    unfold configured_with.
    destruct (decide (m_state st = UNCONFIGURED)) as [Hs | Hs].
    + rewrite Hs. simpl.
      repeat split; try reflexivity; try discriminate; intros; contradiction.
    + rewrite (is_state_false _ _ Hs). simpl.
      repeat split; try reflexivity; try discriminate; intros; contradiction.
  - apply only_FrameMove_commits.
  - intros st st1 Hcf Hs.
    pose proof (CheckFlush_keeps_config _ _ _ Hcf) as Hk.
    injection Hk as Hst Hr Hfmt Hw Hh.
    unfold FrameMove. erewrite bind_Ok_l by exact Hcf.
    erewrite bind_Ok_l by reflexivity. rewrite Hst.
    destruct Hs as [Hs | Hs]; rewrite Hs; simpl.
    + eexists. split; [| split; [| discriminate]].
      * unfold mbind, M_bind, bind. rewrite emit_run.
        unfold modify, get, when. simpl.
        rewrite forM_emit. reflexivity.
      * reflexivity.
    + eexists. split; [| split].
      * unfold mbind, M_bind, bind. rewrite forM_emit.
        unfold modify, get, when. simpl.
        rewrite forM_emit. reflexivity.
      * reflexivity.
      * intros _. simpl. rewrite Hr, Hfmt, Hw, Hh, <- app_assoc. reflexivity.
Qed.

End Configuration.

(** *** Sample runs for the guards and the state machine *)

Module ConfigurationSamples.
Import Sample.

(** Configured, then asked to flush: CONFIGURED with a flush pending. *)
Definition flushing : State :=
  after Flush configured.

(** Configured, with one renderer, then configured again for 8x2 frames. *)
Definition reconfiguring : State :=
  after (run_all (H := collaborators)
           [CallGetRenderer None; CallConfigure AV_PIX_FMT_RGB565 8 2 8 2])
    configured.

End ConfigurationSamples.

Lemma AddFrame_CreateRenderBuffer_guarded_witness :
  AddFrame (H := Sample.collaborators) None 16 4 2 0 Sample.configured
  = Ok tt Sample.configured
  /\ CreateRenderBuffer (H := Sample.collaborators) 0 Sample.fresh
     = Ok tt Sample.fresh.
Proof.
  split.
  - apply (proj1 (AddFrame_CreateRenderBuffer_guarded
                    (H := Sample.collaborators) None 16 4 2 0 0%nat
                    Sample.configured)).
    right; right; left. reflexivity.
  - apply (proj2 (AddFrame_CreateRenderBuffer_guarded
                    (H := Sample.collaborators) None 16 4 2 0 0%nat
                    Sample.fresh)).
    right. vm_compute. discriminate.
Defined.

(** C2, as stated: every AddFrame in the CONFIGURED state with valid data and
    a differing width or height reconfigures.  It fails when a flush is
    pending: AddFrame then returns at its first guard, in the state it was
    called in. *)
Lemma AddFrame_mismatch_while_flushing :
  ~ (forall (C : Collaborators) bytes size width height orientationDegCCW st,
       m_state st = CONFIGURED ->
       size <> 0 -> width <> 0 -> height <> 0 ->
       width <> m_width st \/ height <> m_height st ->
       exists st',
         AddFrame (Some bytes) size width height orientationDegCCW st = Ok tt st'
         /\ trace st' = trace st ++ [EvConfigure (m_format st) width height
                                       (m_maxWidth st) (m_maxHeight st)]
         /\ m_bFlush st' = true
         /\ m_state st' = RECONFIGURING).
Proof.
  intros Hclaim.
  destruct (Hclaim Sample.collaborators Sample.frame16 16 8 2 0
              ConfigurationSamples.flushing)
    as (st' & E & _ & _ & Hs).
  - reflexivity.
  - discriminate.
  - discriminate.
  - discriminate.
  - left. vm_compute. discriminate.
  - rewrite AddFrame_blocked in E by (left; reflexivity).
    inversion E; subst. vm_compute in Hs. discriminate.
Qed.

Lemma AddFrame_mismatch_reconfigures_witness :
  exists st',
    AddFrame (H := Sample.collaborators) (Some Sample.frame16) 16 8 2 0
      Sample.configured = Ok tt st'
    /\ m_width st' = 8 /\ m_bFlush st' = true /\ m_state st' = RECONFIGURING.
Proof.
  destruct (AddFrame_mismatch_reconfigures (H := Sample.collaborators)
              Sample.frame16 16 8 2 0 Sample.configured)
    as (st' & E & _ & _ & _ & _ & _ & Hw & _ & Hf & Hs).
  - reflexivity.
  - reflexivity.
  - discriminate.
  - discriminate.
  - discriminate.
  - left. vm_compute. discriminate.
  - exists st'. repeat split; assumption.
Defined.

Lemma Configure_commit_is_deferred_witness :
  exists st',
    FrameMove (H := Sample.collaborators) ConfigurationSamples.reconfiguring
    = Ok tt st'
    /\ m_state st' = CONFIGURED
    /\ trace st' =
         trace (Sample.after (CheckFlush (H := Sample.collaborators))
                  ConfigurationSamples.reconfiguring)
         ++ [EvRendererConfigure 1 Sample.AV_PIX_FMT_RGB565 8 2;
             EvRendererFrameMove 1].
Proof.
  destruct (proj2 (proj2 (Configure_commit_is_deferred
                            (H := Sample.collaborators)))
              ConfigurationSamples.reconfiguring
              (Sample.after (CheckFlush (H := Sample.collaborators))
                 ConfigurationSamples.reconfiguring))
    as (st' & E & Hs & Ht).
  - vm_compute. reflexivity.
  - right. vm_compute. reflexivity.
  - exists st'. split; [exact E | split; [exact Hs |]].
    rewrite Ht by (vm_compute; reflexivity). reflexivity.
Defined.

(** ** CopyFrame *)

(** The row numbers the loop of CopyFrame visits. *)
Fixpoint row_indices (count : nat) (i : N) : list N :=
  match count with
  | O => []
  | S count' => i :: row_indices count' (i + 1)
  end.

(** Whether every row copy stays inside both arrays. *)
Definition rows_fit (rows : list N) (sourceStride targetStride widthBytes : N)
    (sourceLength targetLength : nat) : bool :=
  forallb (fun i =>
             (u32 (targetStride * i) + widthBytes <=? N.of_nat targetLength)
             && (u32 (sourceStride * i) + widthBytes <=? N.of_nat sourceLength))
          rows.

Section CopyFrame.
Context `{Collaborators}.

Lemma row_indices_length count i : length (row_indices count i) = count.
Proof. revert i. induction count as [|n IH]; intros i; simpl; [| rewrite IH]; reflexivity. Qed.

Lemma deref_run b rb st : buffers st !! b = Some rb -> deref b st = Ok rb st.
Proof. intros E. unfold deref. rewrite E. reflexivity. Qed.

Lemma deref_Ok b rb st st' :
  deref b st = Ok rb st' -> st' = st /\ buffers st !! b = Some rb.
Proof.
  unfold deref. destruct (buffers st !! b); intros E; inversion E; subst; auto.
Qed.

Lemma udiv_run a b st : b <> 0 -> udiv a b st = Ok (a / b) st.
Proof. intros Hb. unfold udiv. apply N.eqb_neq in Hb. rewrite Hb. reflexivity. Qed.

Lemma memcpy_length target toff source soff n target' :
  memcpy target toff source soff n = Some target' ->
  length target' = length target.
Proof.
  unfold memcpy.
  destruct ((toff + n <=? N.of_nat (length target))
            && (soff + n <=? N.of_nat (length source))) eqn:E; [| discriminate].
  intros [= <-]. apply andb_true_iff in E as [E1 E2].
  apply N.leb_le in E1, E2.
  rewrite !length_app, !length_take, !length_drop. lia.
Qed.

Lemma memcpy_prefix target source n target' :
  memcpy target 0 source 0 n = Some target' ->
  target' = take (N.to_nat n) source ++ drop (N.to_nat n) target.
Proof.
  unfold memcpy. destruct (_ && _); [| discriminate]. intros [= <-].
  simpl. rewrite drop_0. reflexivity.
Qed.

(** The state one std::memcpy into a buffer leaves. *)
Definition copied (b : nat) (rb : IRenderBuffer) (target' : list byte)
    (toff soff n : N) (st : State) : State :=
  set_trace (trace st ++ [EvMemcpyBuffer b toff soff n])
    (set_buffers (<[b := rb_with_memory (Some target') rb]> (buffers st)) st).

Lemma buffer_memcpy_run b rb target toff source soff n target' st :
  buffers st !! b = Some rb -> rb_memory rb = Some target ->
  memcpy target toff source soff n = Some target' ->
  buffer_memcpy b toff source soff n st = Ok tt (copied b rb target' toff soff n st).
Proof.
  intros Hb Hm Hc. unfold buffer_memcpy.
  erewrite bind_Ok_l by (apply deref_run; exact Hb).
  rewrite Hm, Hc. reflexivity.
Qed.

Lemma buffer_memcpy_trace b toff source soff n st st' :
  buffer_memcpy b toff source soff n st = Ok tt st' ->
  trace st' = trace st ++ [EvMemcpyBuffer b toff soff n].
Proof.
  unfold buffer_memcpy. intros E.
  apply bind_Ok in E as (rb & st1 & E1 & E).
  apply deref_Ok in E1 as [-> _].
  destruct (rb_memory rb) as [target|]; [| inversion E].
  destruct (memcpy target toff source soff n); [| inversion E].
  inversion E. reflexivity.
Qed.

Definition row_event (b : nat) (sourceStride targetStride widthBytes i : N) : Event :=
  EvMemcpyBuffer b (u32 (targetStride * i)) (u32 (sourceStride * i)) widthBytes.

Lemma CopyFrame_rows_trace count i b source ss ts wb st st' :
  CopyFrame_rows count i b source ss ts wb st = Ok tt st' ->
  trace st' = trace st ++ map (row_event b ss ts wb) (row_indices count i).
Proof.
  revert i st. induction count as [|n IH]; intros i st E; simpl in *.
  - inversion E. rewrite app_nil_r. reflexivity.
  - apply bind_Ok in E as ([] & st1 & E1 & E).
    apply buffer_memcpy_trace in E1. apply IH in E.
    rewrite E, E1, <- app_assoc. reflexivity.
Qed.

Lemma CopyFrame_rows_fit count i b rb target source ss ts wb st :
  buffers st !! b = Some rb -> rb_memory rb = Some target ->
  rows_fit (row_indices count i) ss ts wb (length source) (length target) = true ->
  exists st', CopyFrame_rows count i b source ss ts wb st = Ok tt st'.
Proof.
  revert i rb target st. induction count as [|n IH]; intros i rb target st Hb Hm Hf.
  - eexists. reflexivity.
  - simpl in Hf. apply andb_true_iff in Hf as [Hrow Hf].
    destruct (memcpy target (u32 (ts * i)) source (u32 (ss * i)) wb)
      as [target'|] eqn:Hc.
    + simpl. erewrite bind_Ok_l by (eapply buffer_memcpy_run; eassumption).
      eapply (IH _ (rb_with_memory (Some target') rb) target').
      * simpl. apply lookup_insert_eq.
      * reflexivity.
      * rewrite (memcpy_length _ _ _ _ _ _ Hc). exact Hf.
    + unfold memcpy in Hc. rewrite Hrow in Hc. discriminate.
Qed.

(** Runs CopyFrame up to the comparison of the formats. *)
Ltac CopyFrame_open Hb Hm Hh Hrh :=
  unfold CopyFrame, mbind, M_bind, bind;
  rewrite (deref_run _ _ _ Hb), emit_run, Hm, (udiv_run _ _ _ Hh),
    (udiv_run _ _ _ Hrh);
  unfold get, store, emit, modify; simpl.

(** C4, as amended.  For a render buffer whose memory is available, with
    sourceStride = size / height and targetStride = frameSize / height as
    unsigned int:
    - formats equal and strides equal: one std::memcpy of size bytes, from the
      start of the frame to the start of the buffer;
    - formats equal and strides different: with widthBytes =
      TranslateWidthToBytes(width, format), nothing is copied when widthBytes
      is 0 and otherwise height rows are copied, row i taking widthBytes bytes
      from offset sourceStride * i to offset targetStride * i; no minimum over
      the strides is taken;
    - formats different: the context stored under the buffer's format is
      replaced by what sws_getCachedContext returns for it with
      SWS_FAST_BILINEAR, and, when that is not null, sws_scale writes plane 0
      of the buffer; when it is null nothing is written.
    The buffer's memory is released on every path. *)
Theorem CopyFrame_paths :
  forall b rb target format data size width height st,
    buffers st !! b = Some rb -> rb_memory rb = Some target ->
    height <> 0 -> rb_height rb <> 0 ->
    let sourceStride := u32 (size / height) in
    let targetStride := u32 (rb_frameSize rb / rb_height rb) in
    (m_format st = rb_format rb -> sourceStride = targetStride ->
     forall target', memcpy target 0 data 0 size = Some target' ->
       target' = take (N.to_nat size) data ++ drop (N.to_nat size) target
       /\ CopyFrame b format data size width height st =
          Ok tt (set_trace (trace st ++ [EvGetMemory b; EvMemcpyBuffer b 0 0 size;
                                         EvReleaseMemory b])
                   (set_buffers (<[b := rb_with_memory (Some target') rb]> (buffers st))
                      st)))
    /\ (m_format st = rb_format rb -> sourceStride <> targetStride ->
        let widthBytes := TranslateWidthToBytes width (m_format st) in
        let rows := if 0 <? widthBytes then row_indices (N.to_nat height) 0 else [] in
        ((0 <? widthBytes) = true -> length rows = N.to_nat height)
        /\ (forall st', CopyFrame b format data size width height st = Ok tt st' ->
            trace st' = trace st ++ [EvGetMemory b]
                        ++ map (row_event b sourceStride targetStride widthBytes) rows
                        ++ [EvReleaseMemory b])
        /\ (rows_fit rows sourceStride targetStride widthBytes
              (length data) (length target) = true ->
            exists st', CopyFrame b format data size width height st = Ok tt st'))
    /\ (m_format st <> rb_format rb ->
        let scalerContext :=
          sws_getCachedContext (default None (m_scalers st !! rb_format rb))
            (s32 width) (s32 height) format
            (s32 (rb_width rb)) (s32 (rb_height rb)) (rb_format rb)
            SWS_FAST_BILINEAR in
        exists st',
          CopyFrame b format data size width height st = Ok tt st'
          /\ m_scalers st' = <[rb_format rb := scalerContext]> (m_scalers st)
          /\ match scalerContext with
             | Some ctx =>
                 buffers st' =
                   <[b := rb_with_memory
                            (Some (sws_scale ctx data (s32 sourceStride) 0 (s32 height)
                                     target (s32 targetStride))) rb]> (buffers st)
                 /\ trace st' =
                      trace st ++ [EvGetMemory b;
                                   EvSwsScale b ctx (s32 sourceStride) (s32 height)
                                     (s32 targetStride);
                                   EvReleaseMemory b]
             | None =>
                 buffers st' = buffers st
                 /\ trace st' = trace st ++ [EvGetMemory b; EvReleaseMemory b]
             end).
Proof.
  intros b rb target format data size width height st Hb Hm Hh Hrh ss ts.
  split; [| split].
  - intros Hfmt Hs target' Hc. split; [apply memcpy_prefix; exact Hc |].
    CopyFrame_open Hb Hm Hh Hrh.
    rewrite bool_decide_eq_true_2 by exact Hfmt.
    apply N.eqb_eq in Hs. fold ss ts. rewrite Hs.
    erewrite buffer_memcpy_run by (simpl; eassumption).
    unfold copied. simpl. rewrite <- !app_assoc. reflexivity.
  - intros Hfmt Hs wb rows. apply N.eqb_neq in Hs. split; [| split].
    + intros Hwb. subst rows. rewrite Hwb. apply row_indices_length.
    + intros st'. CopyFrame_open Hb Hm Hh Hrh.
      rewrite bool_decide_eq_true_2 by exact Hfmt.
      fold ss ts. rewrite Hs. subst rows. fold wb.
      destruct (0 <? wb).
      * destruct (CopyFrame_rows _ _ _ _ _ _ _ _) as [[] st1|] eqn:E1;
          [| discriminate].
        apply CopyFrame_rows_trace in E1. intros [= <-]. simpl.
        rewrite E1. simpl. rewrite <- !app_assoc. reflexivity.
      * intros [= <-]. simpl. rewrite <- app_assoc. reflexivity.
    + intros Hfit. CopyFrame_open Hb Hm Hh Hrh.
      rewrite bool_decide_eq_true_2 by exact Hfmt.
      fold ss ts. rewrite Hs. subst rows. fold wb. fold wb in Hfit.
      destruct (0 <? wb).
      * destruct (CopyFrame_rows_fit (N.to_nat height) 0 b rb target data ss ts wb
                    (set_trace (trace st ++ [EvGetMemory b]) st) Hb Hm Hfit)
          as (st1 & E1).
        rewrite E1. eexists. reflexivity.
      * eexists. reflexivity.
  - intros Hfmt ctx. CopyFrame_open Hb Hm Hh Hrh.
    rewrite bool_decide_eq_false_2 by exact Hfmt. fold ss ts. fold ctx.
    destruct ctx as [c|]; eexists; (split; [reflexivity |]); simpl;
      rewrite <- ?app_assoc; auto.
Qed.

End CopyFrame.

Module CopyFrameSamples.
Import Sample.

(** An RGB565 buffer of 4 rows of 10 bytes, 2 pixels wide. *)
Definition padded_buffer : IRenderBuffer :=
  {| rb_pool := 0; rb_refs := 1; rb_loaded := false;
     rb_format := AV_PIX_FMT_RGB565; rb_width := 2; rb_height := 4;
     rb_frameSize := 40; rb_memory := Some (replicate 40 x00);
     rb_upload := true |}.

Definition with_padded_buffer : State :=
  set_buffers {[ 7%nat := padded_buffer ]} configured.

(** A frame of 4 rows of 8 bytes, 3 RGB565 pixels wide. *)
Definition frame32 : list byte := frame16 ++ frame16.

End CopyFrameSamples.

(** A CopyFrame call as AddFrame makes it (lines 113-137): the manager is
    configured and not flushing, the frame is not empty and has the
    dimensions the manager is configured for, and the buffer is the one a
    registered pool with a visible renderer has just handed out for the
    frame's size. *)
Definition called_by_AddFrame `{Collaborators} (b : nat) (size width height : N)
    (st : State) : Prop :=
  m_bFlush st = false /\ m_state st = CONFIGURED
  /\ size <> 0 /\ width <> 0 /\ height <> 0
  /\ width = m_width st /\ height = m_height st
  /\ exists bufferPool st0,
       bufferPool ∈ bufferPools st0
       /\ pool_HasVisibleRenderer bufferPool = true
       /\ GetBuffer (pool_ptr bufferPool) size st0 = Ok (Some b) st.

Module StrideSamples.
Import Sample.

(** What the three pools hand out: pool 0 RGB565 buffers as wide as the
    frames, 4 pixels, pool 1 RGB565 buffers 2 pixels wide, both of 2 rows of
    12 bytes; pool 2 0RGB32 buffers of 2 rows of 16 bytes. *)
Definition pool_buffer (pool : nat) : IRenderBuffer :=
  {| rb_pool := pool; rb_refs := 1; rb_loaded := false;
     rb_format := if Nat.ltb pool 2 then AV_PIX_FMT_RGB565 else AV_PIX_FMT_0RGB32;
     rb_width := if Nat.eqb pool 1 then 2 else 4;
     rb_height := 2;
     rb_frameSize := if Nat.ltb pool 2 then 24 else 32;
     rb_memory := Some (replicate (if Nat.ltb pool 2 then 24 else 32) x00);
     rb_upload := true |}.

(** As [Sample.collaborators], but with these pools, whatever size is asked
    for, and a libswscale that has no context for the conversion. *)
Definition collaborators : Collaborators :=
  {| TranslateWidthToBytes := @TranslateWidthToBytes Sample.collaborators;
     sws_getCachedContext old sw sh sf dw dh df flags := None;
     sws_scale := @sws_scale Sample.collaborators;
     pool_IsCompatible p s := Nat.ltb p 3;
     pool_GetBuffer p size h :=
       if Nat.ltb p 3
       then (Some (next_address h), <[next_address h := pool_buffer p]> h)
       else (None, h);
     FlushPools := @FlushPools Sample.collaborators;
     CreateRenderer := @CreateRenderer Sample.collaborators;
     new_renderer_ptr := @new_renderer_ptr Sample.collaborators;
     HasScalingMethod := @HasScalingMethod Sample.collaborators;
     GetDefaultScalingMethod := @GetDefaultScalingMethod Sample.collaborators;
     renderer_Configure := @renderer_Configure Sample.collaborators;
     renderer_IsCompatible := @renderer_IsCompatible Sample.collaborators;
     renderer_Supports := @renderer_Supports Sample.collaborators;
     CRenderVideoSettings_default :=
       @CRenderVideoSettings_default Sample.collaborators;
     SetVideoFilter := @SetVideoFilter Sample.collaborators;
     MergeAlpha := @MergeAlpha Sample.collaborators;
     rect_Intersect := @rect_Intersect Sample.collaborators |}.

Definition pool2 : IRenderBufferPool :=
  {| pool_ptr := 2; pool_HasVisibleRenderer := true |}.

(** Three registered pools, configured for 4x2 RGB565 frames. *)
Definition configured3 : State :=
  after (run_all (H := collaborators)
           [CallConfigure AV_PIX_FMT_RGB565 4 2 4 2; CallFrameMove])
    (set_bufferPools [pool0; pool1; pool2] fresh).

(** A 4x2 RGB565 frame in rows of 10 bytes: 8 bytes of pixels, 2 of padding. *)
Definition frame20 : list byte :=
  [x01; x02; x03; x04; x05; x06; x07; x08; x00; x00;
   x11; x12; x13; x14; x15; x16; x17; x18; x00; x00].

(** Inside AddFrame of that frame: after GetBuffer on pool 0, after the copy
    and GetBuffer on pool 1, after that copy and GetBuffer on pool 2. *)
Definition at_pool0 : State :=
  after (GetBuffer (H := collaborators) 0 20) configured3.
Definition at_pool1 : State :=
  after (GetBuffer (H := collaborators) 1 20)
    (after (CopyFrame (H := collaborators) 0 AV_PIX_FMT_RGB565 frame20 20 4 2)
       at_pool0).
Definition at_pool2 : State :=
  after (GetBuffer (H := collaborators) 2 20)
    (after (CopyFrame (H := collaborators) 1 AV_PIX_FMT_RGB565 frame20 20 4 2)
       at_pool1).

End StrideSamples.

Lemma StrideSamples_contract : PoolContract (H := StrideSamples.collaborators).
Proof.
  split; simpl.
  - intros p n h b rb Hb _. destruct (Nat.ltb p 3); simpl; [| exact Hb].
    rewrite lookup_insert_ne; [exact Hb |].
    apply Sample_next_address_above in Hb. lia.
  - intros p n h b. destruct (Nat.ltb p 3); simpl; [| discriminate].
    intros [= <-]. split.
    + intros rb0 Hb. apply Sample_next_address_above in Hb. lia.
    + eexists. rewrite lookup_insert_eq. split; [reflexivity |].
      split; [reflexivity | simpl; lia].
Qed.

(** C4, as stated, on the copies AddFrame makes of a 4x2 RGB565 frame in
    rows of 10 bytes, with three pools whose buffers have rows of 12 bytes
    (pools 0 and 1) or another format (pool 2).
    - On the row-by-row path each row is said to copy the minimum of the two
      strides' useful width.  Into the buffer of pool 1, which is 2 pixels
      wide, the rows are copied 8 bytes at a time, the width of the frame,
      which is none of: the smaller stride rounded down to whole pixels
      (10), the smaller stride (10), the smaller of the two row widths in
      bytes (4).
    - Into the buffer of pool 0, which is as wide as the frame, the rows are
      copied 8 bytes at a time as well, not the smaller stride (10).
    - With different formats a conversion is said to be performed.  For the
      buffer of pool 2 libswscale returns no context, and nothing is
      converted.
    The last part is the AddFrame call that makes these three copies. *)
Lemma CopyFrame_rows_copy_widthBytes :
  ~ (forall (C : Collaborators) (P : PoolContract) b rb target data size width
       height st st',
       called_by_AddFrame b size width height st ->
       buffers st !! b = Some rb -> rb_memory rb = Some target ->
       m_format st = rb_format rb ->
       u32 (size / height) <> u32 (rb_frameSize rb / rb_height rb) ->
       CopyFrame b (m_format st) data size width height st = Ok tt st' ->
       let sourceStride := u32 (size / height) in
       let targetStride := u32 (rb_frameSize rb / rb_height rb) in
       let bpp := TranslateWidthToBytes 1 (m_format st) in
       exists n,
         (n = N.min (sourceStride / bpp * bpp) (targetStride / bpp * bpp)
          \/ n = N.min sourceStride targetStride
          \/ n = N.min (TranslateWidthToBytes width (m_format st))
                       (TranslateWidthToBytes (rb_width rb) (m_format st)))
         /\ trace st' =
              trace st ++ [EvGetMemory b]
              ++ map (row_event b sourceStride targetStride n)
                   (row_indices (N.to_nat height) 0)
              ++ [EvReleaseMemory b])
  /\ ~ (forall (C : Collaborators) (P : PoolContract) b rb target data size width
          height st st',
          called_by_AddFrame b size width height st ->
          buffers st !! b = Some rb -> rb_memory rb = Some target ->
          m_format st = rb_format rb -> rb_width rb = width ->
          u32 (size / height) <> u32 (rb_frameSize rb / rb_height rb) ->
          CopyFrame b (m_format st) data size width height st = Ok tt st' ->
          let sourceStride := u32 (size / height) in
          let targetStride := u32 (rb_frameSize rb / rb_height rb) in
          let bpp := TranslateWidthToBytes 1 (m_format st) in
          exists n,
            (n = N.min (sourceStride / bpp * bpp) (targetStride / bpp * bpp)
             \/ n = N.min sourceStride targetStride)
            /\ trace st' =
                 trace st ++ [EvGetMemory b]
                 ++ map (row_event b sourceStride targetStride n)
                      (row_indices (N.to_nat height) 0)
                 ++ [EvReleaseMemory b])
  /\ ~ (forall (C : Collaborators) (P : PoolContract) b rb target data size width
          height st st',
          called_by_AddFrame b size width height st ->
          buffers st !! b = Some rb -> rb_memory rb = Some target ->
          m_format st <> rb_format rb ->
          CopyFrame b (m_format st) data size width height st = Ok tt st' ->
          exists ctx,
            trace st' =
              trace st
              ++ [EvGetMemory b;
                  EvSwsScale b ctx (s32 (u32 (size / height))) (s32 height)
                    (s32 (u32 (rb_frameSize rb / rb_height rb)));
                  EvReleaseMemory b])
  /\ exists st',
       AddFrame (H := StrideSamples.collaborators) (Some StrideSamples.frame20)
         20 4 2 0 StrideSamples.configured3 = Ok tt st'
       /\ trace st' =
            trace StrideSamples.configured3
            ++ [EvGetBuffer 0 20 (Some 0%nat); EvGetMemory 0;
                EvMemcpyBuffer 0 0 0 8; EvMemcpyBuffer 0 12 10 8;
                EvReleaseMemory 0;
                EvGetBuffer 1 20 (Some 1%nat); EvGetMemory 1;
                EvMemcpyBuffer 1 0 0 8; EvMemcpyBuffer 1 12 10 8;
                EvReleaseMemory 1;
                EvGetBuffer 2 20 (Some 2%nat); EvGetMemory 2;
                EvReleaseMemory 2;
                EvStoreRenderBuffers [0; 1; 2]%nat].
Proof.
  split; [| split; [| split]].
  - intros Hclaim.
    destruct (Hclaim StrideSamples.collaborators StrideSamples_contract
                1%nat (StrideSamples.pool_buffer 1) (replicate 24 x00)
                StrideSamples.frame20 20 4 2 StrideSamples.at_pool1
                (Sample.after
                   (CopyFrame (H := StrideSamples.collaborators) 1
                      Sample.AV_PIX_FMT_RGB565 StrideSamples.frame20 20 4 2)
                   StrideSamples.at_pool1))
      as (n & Hn & Ht);
      try (vm_compute; first [reflexivity | intros Heq; discriminate Heq]).
    + do 7 (split; [vm_compute; first [reflexivity | intros Heq; discriminate Heq] |]).
      exists Sample.pool1.
      exists (Sample.after
                (CopyFrame (H := StrideSamples.collaborators) 0
                   Sample.AV_PIX_FMT_RGB565 StrideSamples.frame20 20 4 2)
                StrideSamples.at_pool0).
      split; [| split; vm_compute; reflexivity].
      apply list_elem_of_lookup. exists 1%nat. vm_compute. reflexivity.
    + destruct Hn as [-> | [-> | ->]]; vm_compute in Ht; discriminate.
  - intros Hclaim.
    destruct (Hclaim StrideSamples.collaborators StrideSamples_contract
                0%nat (StrideSamples.pool_buffer 0) (replicate 24 x00)
                StrideSamples.frame20 20 4 2 StrideSamples.at_pool0
                (Sample.after
                   (CopyFrame (H := StrideSamples.collaborators) 0
                      Sample.AV_PIX_FMT_RGB565 StrideSamples.frame20 20 4 2)
                   StrideSamples.at_pool0))
      as (n & Hn & Ht);
      try (vm_compute; first [reflexivity | intros Heq; discriminate Heq]).
    + do 7 (split; [vm_compute; first [reflexivity | intros Heq; discriminate Heq] |]).
      exists Sample.pool0, StrideSamples.configured3.
      split; [| split; vm_compute; reflexivity].
      apply list_elem_of_lookup. exists 0%nat. vm_compute. reflexivity.
    + destruct Hn as [-> | ->]; vm_compute in Ht; discriminate.
  - intros Hclaim.
    destruct (Hclaim StrideSamples.collaborators StrideSamples_contract
                2%nat (StrideSamples.pool_buffer 2) (replicate 32 x00)
                StrideSamples.frame20 20 4 2 StrideSamples.at_pool2
                (Sample.after
                   (CopyFrame (H := StrideSamples.collaborators) 2
                      Sample.AV_PIX_FMT_RGB565 StrideSamples.frame20 20 4 2)
                   StrideSamples.at_pool2))
      as (ctx & Ht);
      try (vm_compute; first [reflexivity | intros Heq; discriminate Heq]).
    + do 7 (split; [vm_compute; first [reflexivity | intros Heq; discriminate Heq] |]).
      exists StrideSamples.pool2.
      exists (Sample.after
                (CopyFrame (H := StrideSamples.collaborators) 1
                   Sample.AV_PIX_FMT_RGB565 StrideSamples.frame20 20 4 2)
                StrideSamples.at_pool1).
      split; [| split; vm_compute; reflexivity].
      apply list_elem_of_lookup. exists 2%nat. vm_compute. reflexivity.
    + vm_compute in Ht. discriminate.
  - eexists. split; vm_compute; reflexivity.
Qed.

Lemma CopyFrame_paths_witness :
  exists st',
    CopyFrame (H := StrideSamples.collaborators) 0 Sample.AV_PIX_FMT_RGB565
      StrideSamples.frame20 20 4 2 StrideSamples.at_pool0
    = Ok tt st'
    /\ trace st' =
         trace StrideSamples.at_pool0
         ++ [EvGetMemory 0; EvMemcpyBuffer 0 0 0 8; EvMemcpyBuffer 0 12 10 8;
             EvReleaseMemory 0].
Proof.
  destruct (CopyFrame_paths (H := StrideSamples.collaborators) 0%nat
              (StrideSamples.pool_buffer 0) (replicate 24 x00)
              Sample.AV_PIX_FMT_RGB565 StrideSamples.frame20 20 4 2
              StrideSamples.at_pool0)
    as (_ & Hrows & _).
  - vm_compute. reflexivity.
  - reflexivity.
  - discriminate.
  - discriminate.
  - destruct Hrows as (_ & Htrace & Hfit).
    + vm_compute. reflexivity.
    + vm_compute. discriminate.
    + destruct Hfit as (st' & E); [vm_compute; reflexivity |].
      exists st'. split; [exact E |]. rewrite (Htrace st' E). reflexivity.
Defined.

(** ** The cached frame *)


(** AddFrame between its guards and its caching block: the loop over the
    pools and the swap of the render buffer set. *)
Definition AddFrame_swap `{Collaborators} (pools : list IRenderBufferPool)
    (bytes : list byte) (size width height : N) : M unit :=
  renderBuffers ← AddFrame_pools pools bytes size width height;
  st' ← get;
  forM_ (m_renderBuffers st') Release;;
  store_renderBuffers renderBuffers.

Section CachedFrame.
Context `{Collaborators}.

Lemma AddFrame_accepted bytes size width height o st :
  m_bFlush st = false -> m_state st = CONFIGURED ->
  size <> 0 -> width <> 0 -> height <> 0 ->
  width = m_width st -> height = m_height st ->
  AddFrame (Some bytes) size width height o st =
  (AddFrame_swap (bufferPools st) bytes size width height;;
   AddFrame_cache bytes size) st.
Proof.
  intros Hf Hs Hsize Hw Hh -> ->.
  unfold AddFrame. erewrite bind_Ok_l by reflexivity.
  rewrite (open_guard _ Hf Hs).
  apply N.eqb_neq in Hsize, Hw, Hh. rewrite Hsize, Hw, Hh, !N.eqb_refl. simpl.
  unfold AddFrame_swap, mbind, M_bind, bind.
  destruct (AddFrame_pools _ _ _ _ _ st) as [rbs st1|]; [| reflexivity].
  unfold get.
  destruct (forM_ (m_renderBuffers st1) Release st1) as [[] st2|]; reflexivity.
Qed.



Lemma is_empty_false {A} (l : list A) : l <> [] -> is_empty l = false.
Proof. destruct l; [contradiction | reflexivity]. Qed.

Lemma memcpy_prefix_Some target source n :
  n <= N.of_nat (length target) -> n <= N.of_nat (length source) ->
  memcpy target 0 source 0 n
  = Some (take (N.to_nat n) source ++ drop (N.to_nat n) target).
Proof.
  intros H1 H2. unfold memcpy. rewrite !N.add_0_l.
  apply N.leb_le in H1, H2. rewrite H1, H2. simpl.
  rewrite drop_0. reflexivity.
Qed.

Lemma memcpy_prefix_None target source n :
  N.of_nat (length target) < n \/ N.of_nat (length source) < n ->
  memcpy target 0 source 0 n = None.
Proof.
  intros Hlt. unfold memcpy. rewrite !N.add_0_l.
  destruct (n <=? N.of_nat (length target)) eqn:E1;
    destruct (n <=? N.of_nat (length source)) eqn:E2; try reflexivity.
  apply N.leb_le in E1, E2. lia.
Qed.





Lemma memcpy_prefix_inv target source n c :
  memcpy target 0 source 0 n = Some c ->
  n <= N.of_nat (length target) /\ n <= N.of_nat (length source)
  /\ c = take (N.to_nat n) source ++ drop (N.to_nat n) target.
Proof.
  intros E.
  destruct (N.le_gt_cases n (N.of_nat (length target))) as [H1|H1];
    [| rewrite memcpy_prefix_None in E by auto; discriminate].
  destruct (N.le_gt_cases n (N.of_nat (length source))) as [H2|H2];
    [| rewrite memcpy_prefix_None in E by auto; discriminate].
  rewrite memcpy_prefix_Some in E by assumption. inversion E. auto.
Qed.






(** The three ways AddFrame can end. *)
Lemma AddFrame_cases data size width height o st st' :
  AddFrame data size width height o st = Ok tt st' ->
  st' = st
  \/ st' = configured_with (m_format st) width height (m_maxWidth st)
             (m_maxHeight st) st
  \/ exists bytes,
       data = Some bytes /\ m_bFlush st = false /\ m_state st = CONFIGURED
       /\ size <> 0 /\ width <> 0 /\ height <> 0
       /\ width = m_width st /\ height = m_height st.
Proof.
  intros E.
  destruct (m_bFlush st) eqn:Hf;
    [left; rewrite AddFrame_blocked in E by auto; congruence |].
  destruct (decide (m_state st = CONFIGURED)) as [Hs | Hs];
    [| left; rewrite AddFrame_blocked in E by auto; congruence].
  unfold AddFrame in E. erewrite bind_Ok_l in E by reflexivity.
  rewrite (open_guard _ Hf Hs) in E.
  destruct data as [bytes|]; [| left; inversion E; reflexivity].
  destruct (size =? 0) eqn:Hsize; [left; inversion E; reflexivity |].
  destruct (width =? 0) eqn:Hw; [left; inversion E; reflexivity |].
  destruct (height =? 0) eqn:Hh; [left; inversion E; reflexivity |].
  simpl in E.
  destruct (width =? m_width st) eqn:Hwe; simpl in E.
  - destruct (height =? m_height st) eqn:Hhe; simpl in E.
    + right; right. exists bytes.
      apply N.eqb_neq in Hsize, Hw, Hh. apply N.eqb_eq in Hwe, Hhe. auto 10.
    + right; left. erewrite bind_Ok_l in E by apply Configure_run.
      inversion E. reflexivity.
  - right; left. erewrite bind_Ok_l in E by apply Configure_run.
    inversion E. reflexivity.
Qed.

Lemma CheckFlush_idle st : m_bFlush st = false -> CheckFlush st = Ok tt st.
Proof.
  intros Hf. unfold CheckFlush. erewrite bind_Ok_l by reflexivity.
  rewrite Hf. reflexivity.
Qed.




End CachedFrame.

Module CachedFrameSamples.
Import Sample.

Definition hidden_pool0 : IRenderBufferPool :=
  {| pool_ptr := 0; pool_HasVisibleRenderer := false |}.

(** Configured and paused, with no visible renderer. *)
Definition paused : State :=
  after (SetSpeed 0) (set_bufferPools [hidden_pool0] configured).

(** Then given one 16-byte frame. *)
Definition cached16 : State :=
  after (AddFrame (H := collaborators) (Some frame16) 16 4 2 0) paused.

Definition frame20 : list byte := frame16 ++ [x11; x12; x13; x14].

End CachedFrameSamples.




(** ** The render buffer set *)

(** [b] is a buffer of pool [p] on which a reference is held. *)
Definition holds (h : gmap nat IRenderBuffer) (b p : nat) : Prop :=
  exists rb, h !! b = Some rb /\ rb_pool rb = p /\ (1 <= rb_refs rb)%Z.

Definition referenced (h : gmap nat IRenderBuffer) (b : nat) : Prop :=
  exists rb, h !! b = Some rb /\ (1 <= rb_refs rb)%Z.

(** The render buffer set holds referenced buffers of pairwise different
    pools: [ps] lists the pools of its buffers. *)
Definition BufferSetInv (st : State) : Prop :=
  exists ps, NoDup ps /\ Forall2 (holds (buffers st)) (m_renderBuffers st) ps.

(** Referenced buffers keep their pool, their count and their loaded flag. *)
Definition kept (h h' : gmap nat IRenderBuffer) : Prop :=
  forall b rb, h !! b = Some rb -> (1 <= rb_refs rb)%Z ->
    exists rb', h' !! b = Some rb' /\ rb_pool rb' = rb_pool rb
                /\ rb_refs rb' = rb_refs rb /\ rb_loaded rb' = rb_loaded rb.

(** A computation that leaves the render buffer set as it is and every
    referenced buffer with its pool, count and loaded flag. *)
Definition leaves_set (m : M unit) : Prop :=
  forall st st', m st = Ok tt st' ->
    m_renderBuffers st' = m_renderBuffers st /\ kept (buffers st) (buffers st').

(** A check of the invariant on a given state. *)
Definition check_BufferSetInv (st : State) : bool :=
  bool_decide (NoDup (map (fun b => rb_pool <$> buffers st !! b)
                        (m_renderBuffers st)))
  && forallb (fun b => match buffers st !! b with
                       | Some rb => (1 <=? rb_refs rb)%Z
                       | None => false
                       end) (m_renderBuffers st).

(** The member functions the invariant of the set is stated for. *)
Definition buffer_set_call (c : Call) : Prop :=
  match c with
  | CallAddFrame _ _ _ _ _ | CallCreateRenderBuffer _ | CallGetRenderBuffer _
  | CallCheckFlush | CallDeinitialize => True
  | _ => False
  end.

Lemma Sample_contract : PoolContract (H := Sample.collaborators).
Proof.
  split; simpl; unfold Sample.sample_GetBuffer.
  - intros p n h b rb Hb _. destruct (Nat.ltb p 2); simpl; [| exact Hb].
    rewrite lookup_insert_ne; [exact Hb |].
    apply Sample_next_address_above in Hb. lia.
  - intros p n h b. destruct (Nat.ltb p 2); simpl; [| discriminate].
    intros [= <-]. split.
    + intros rb0 Hb. apply Sample_next_address_above in Hb. lia.
    + eexists. rewrite lookup_insert_eq. split; [reflexivity |].
      split; [reflexivity | simpl; lia].
Qed.

Lemma check_BufferSetInv_sound st :
  check_BufferSetInv st = true -> BufferSetInv st.
Proof.
  unfold check_BufferSetInv, BufferSetInv. intros Hc.
  apply andb_true_iff in Hc as [Hnd Hall]. apply bool_decide_eq_true in Hnd.
  revert Hnd Hall. generalize (buffers st) as h.
  induction (m_renderBuffers st) as [|b l IH]; intros h Hnd Hall; simpl in *.
  - exists []. split; constructor.
  - apply andb_true_iff in Hall as [Hb Hall].
    apply NoDup_cons in Hnd as [Hnotin Hnd].
    destruct (IH h Hnd Hall) as (ps & Hps & Hf).
    destruct (h !! b) as [rb|] eqn:Hl; [| discriminate].
    exists (rb_pool rb :: ps). split.
    + apply NoDup_cons. split; [| exact Hps].
      intros Hin. apply Hnotin. simpl.
      apply list_elem_of_lookup in Hin as (i & Hi).
      destruct (Forall2_lookup_r _ _ _ i _ Hf Hi) as (b' & Hb' & (rb' & Hl' & Hp' & _)).
      apply list_elem_of_lookup. exists i.
      rewrite list_lookup_fmap, Hb'. simpl. rewrite Hl'. simpl. congruence.
    + constructor; [| exact Hf].
      exists rb. split; [exact Hl |]. split; [reflexivity |].
      apply Z.leb_le. exact Hb.
Qed.

Section BufferSet.
Context `{PoolContract}.

Lemma kept_refl h : kept h h.
Proof. intros b rb Hb _. eauto. Qed.

Lemma kept_trans h1 h2 h3 : kept h1 h2 -> kept h2 h3 -> kept h1 h3.
Proof.
  intros H12 H23 b rb Hb Hr.
  destruct (H12 _ _ Hb Hr) as (rb2 & Hb2 & Hp2 & Hr2 & Hl2).
  destruct (H23 b rb2 Hb2) as (rb3 & Hb3 & Hp3 & Hr3 & Hl3); [lia |].
  exists rb3. repeat split; congruence.
Qed.

Lemma holds_referenced h b p : holds h b p -> referenced h b.
Proof. intros (rb & ? & ? & ?). exists rb. auto. Qed.

Lemma holds_kept h h' b p : kept h h' -> holds h b p -> holds h' b p.
Proof.
  intros Hk (rb & Hb & Hp & Hr).
  destruct (Hk _ _ Hb Hr) as (rb' & Hb' & Hp' & Hr' & _).
  exists rb'. repeat split; [assumption | congruence | lia].
Qed.

Lemma referenced_kept h h' b : kept h h' -> referenced h b -> referenced h' b.
Proof.
  intros Hk (rb & Hb & Hr).
  destruct (Hk _ _ Hb Hr) as (rb' & Hb' & _ & Hr' & _).
  exists rb'. split; [assumption | lia].
Qed.

Lemma Forall2_holds_kept h h' l ps :
  kept h h' -> Forall2 (holds h) l ps -> Forall2 (holds h') l ps.
Proof.
  intros Hk Hf. eapply Forall2_impl; [exact Hf |].
  intros b p. apply holds_kept. exact Hk.
Qed.

Lemma Forall2_holds_same h h' l ps :
  (forall b, b ∈ l -> h' !! b = h !! b) ->
  Forall2 (holds h) l ps -> Forall2 (holds h') l ps.
Proof.
  intros Hs Hf. induction Hf as [|b p l ps Hb Hf IH]; constructor.
  - destruct Hb as (rb & Hb & Hr). exists rb. rewrite Hs by left. auto.
  - apply IH. intros b' Hb'. apply Hs. right. exact Hb'.
Qed.

Lemma GetBuffer_Ok p n st r st' :
  GetBuffer p n st = Ok r st' ->
  r = (pool_GetBuffer p n (buffers st)).1
  /\ buffers st' = (pool_GetBuffer p n (buffers st)).2
  /\ m_renderBuffers st' = m_renderBuffers st
  /\ trace st' = trace st ++ [EvGetBuffer p n r].
Proof. unfold GetBuffer. intros E. inversion E; subst. simpl. auto. Qed.

Lemma GetBuffer_kept p n st r st' :
  GetBuffer p n st = Ok r st' -> kept (buffers st) (buffers st').
Proof.
  intros E. apply GetBuffer_Ok in E as (_ & -> & _). intros b rb Hb Hr.
  exists rb. split; [apply GetBuffer_keeps; assumption | auto].
Qed.

(** The pool, count and loaded flag of every buffer. *)
Definition headers (st : State) : gmap nat (nat * Z * bool) :=
  (fun rb => (rb_pool rb, rb_refs rb, rb_loaded rb)) <$> buffers st.

Lemma headers_kept st st' : headers st' = headers st -> kept (buffers st) (buffers st').
Proof.
  intros Hh b rb Hb _.
  assert (headers st !! b = Some (rb_pool rb, rb_refs rb, rb_loaded rb)) as Hl.
  { unfold headers. rewrite lookup_fmap, Hb. reflexivity. }
  rewrite <- Hh in Hl. unfold headers in Hl. rewrite lookup_fmap in Hl.
  destruct (buffers st' !! b) as [rb'|]; [| discriminate].
  injection Hl as Hp Hr Hl. eauto.
Qed.

Lemma headers_store_memory b rb m st :
  buffers st !! b = Some rb ->
  headers (set_buffers (<[b := rb_with_memory m rb]> (buffers st)) st) = headers st.
Proof.
  intros Hb. unfold headers. simpl. rewrite fmap_insert. apply insert_id.
  rewrite lookup_fmap, Hb. reflexivity.
Qed.

Lemma udiv_Ok a b q st st' : udiv a b st = Ok q st' -> st' = st.
Proof. unfold udiv. destruct (b =? 0); intros E; inversion E. reflexivity. Qed.

Lemma buffer_memcpy_headers b toff src soff n :
  keeps headers (buffer_memcpy b toff src soff n).
Proof.
  intros st a st' E. unfold buffer_memcpy in E.
  apply bind_Ok in E as (rb & st0 & E0 & E). apply deref_Ok in E0 as [-> Hb].
  destruct (rb_memory rb); [| inversion E].
  destruct (memcpy _ _ _ _ _); [| inversion E].
  unfold store in E. minv. apply headers_store_memory. exact Hb.
Qed.

Lemma CopyFrame_rows_headers n i b src ss ts wb :
  keeps headers (CopyFrame_rows n i b src ss ts wb).
Proof.
  revert i. induction n as [|n IH]; intros i; simpl.
  - apply keeps_ret.
  - apply keeps_bind; [apply buffer_memcpy_headers | intros _; apply IH].
Qed.

Lemma CopyFrame_headers b fmt data size w h :
  keeps headers (CopyFrame b fmt data size w h).
Proof.
  intros st a st' E. unfold CopyFrame in E.
  apply bind_Ok in E as (rb & st0 & E0 & E). apply deref_Ok in E0 as [-> Hb].
  apply bind_Ok in E as ([] & st1 & E1 & E).
  rewrite emit_run in E1. inversion E1; subst st1; clear E1.
  apply bind_Ok in E as ([] & st2 & E2 & E).
  rewrite emit_run in E. inversion E; subst st'; clear E.
  change (headers st2 = headers (set_trace (trace st ++ [EvGetMemory b]) st)).
  destruct (rb_memory rb) as [target|]; [| minv; reflexivity].
  apply bind_Ok in E2 as (q & s & Eq & E2). apply udiv_Ok in Eq as ->.
  apply bind_Ok in E2 as (q' & s & Eq & E2). apply udiv_Ok in Eq as ->.
  erewrite bind_Ok_l in E2 by reflexivity. simpl in E2.
  destruct (bool_decide _).
  - destruct (_ =? _).
    + exact (buffer_memcpy_headers _ _ _ _ _ _ _ _ E2).
    + destruct (0 <? _); [| minv; reflexivity].
      exact (CopyFrame_rows_headers _ _ _ _ _ _ _ _ _ _ E2).
  - apply bind_Ok in E2 as ([] & s & Em & E2). minv.
    destruct (sws_getCachedContext _ _ _ _ _ _ _ _); [| minv; reflexivity].
    unfold store in E2. minv.
    unfold headers. simpl. rewrite fmap_insert. apply insert_id.
    rewrite lookup_fmap, Hb. reflexivity.
Qed.

Lemma CopyFrame_kept b fmt data size w h st st' :
  CopyFrame b fmt data size w h st = Ok tt st' ->
  kept (buffers st) (buffers st') /\ m_renderBuffers st' = m_renderBuffers st.
Proof.
  intros E. split.
  - apply headers_kept. exact (CopyFrame_headers _ _ _ _ _ _ _ _ _ E).
  - revert E. apply CopyFrame_keeps; ign_auto.
Qed.

(** The loop of AddFrame: the collected buffers are referenced, were not
    referenced before, and belong to different pools, in registry order. *)
Lemma AddFrame_pools_collects pools data size w h st rbs st' :
  AddFrame_pools pools data size w h st = Ok rbs st' ->
  kept (buffers st) (buffers st')
  /\ m_renderBuffers st' = m_renderBuffers st
  /\ Forall (fun b => ~ referenced (buffers st) b) rbs
  /\ exists ps, ps `sublist_of` map pool_ptr pools
                /\ Forall2 (holds (buffers st')) rbs ps.
Proof.
  revert st rbs st'. induction pools as [|p pools IH]; intros st rbs st' E; simpl in E.
  - minv. split; [apply kept_refl |]. split; [reflexivity |].
    split; [constructor |]. exists []. split; constructor.
  - destruct (pool_HasVisibleRenderer p); simpl in E.
    + apply bind_Ok in E as (r & st1 & E1 & E).
      pose proof (GetBuffer_kept _ _ _ _ _ E1) as Hk1.
      pose proof (GetBuffer_Ok _ _ _ _ _ E1) as (Hr & Hb1 & Hs1 & _).
      destruct r as [b|].
      * erewrite bind_Ok_l in E by reflexivity.
        apply bind_Ok in E as ([] & st2 & E2 & E).
        apply CopyFrame_kept in E2 as [Hk2 Hs2].
        apply bind_Ok in E as (rbs' & st3 & E3 & E). minv.
        destruct (IH _ _ _ E3) as (Hk3 & Hs3 & Hnew & ps & Hsub & Hall).
        symmetry in Hr. destruct (GetBuffer_result _ _ _ _ Hr) as (Hfree & rb & Hb & Hp & Hrefs).
        rewrite <- Hb1 in Hb.
        assert (holds (buffers st1) b (pool_ptr p)) as Hh1 by (exists rb; auto).
        split; [eauto using kept_trans |]. split; [congruence |]. split.
        -- constructor.
           ++ intros (rb0 & Hb0 & Hr0). specialize (Hfree _ Hb0). lia.
           ++ eapply Forall_impl; [exact Hnew |]. intros b' Hn Hr'. apply Hn.
              eauto using referenced_kept, kept_trans.
        -- exists (pool_ptr p :: ps). split; [apply sublist_skip; exact Hsub |].
           constructor; [| exact Hall]. eauto using holds_kept, kept_trans.
      * destruct (IH _ _ _ E) as (Hk3 & Hs3 & Hnew & ps & Hsub & Hall).
        split; [eauto using kept_trans |]. split; [congruence |]. split.
        -- eapply Forall_impl; [exact Hnew |]. intros b' Hn Hr'. apply Hn.
           eauto using referenced_kept.
        -- exists ps. split; [apply sublist_cons; exact Hsub | exact Hall].
    + destruct (IH _ _ _ E) as (Hk3 & Hs3 & Hnew & ps & Hsub & Hall).
      split; [exact Hk3 |]. split; [exact Hs3 |]. split; [exact Hnew |].
      exists ps. split; [apply sublist_cons; exact Hsub | exact Hall].
Qed.

Lemma Release_Ok b st st' :
  Release b st = Ok tt st' ->
  exists rb, buffers st !! b = Some rb
    /\ st' = set_trace (trace st ++ [EvRelease b])
               (set_buffers (<[b := rb_with_refs (rb_refs rb - 1) rb]> (buffers st)) st).
Proof.
  unfold Release, store. intros E.
  apply bind_Ok in E as (rb & st0 & E0 & E). apply deref_Ok in E0 as [-> Hb].
  minv. eauto.
Qed.

Lemma Acquire_Ok b st st' :
  Acquire b st = Ok tt st' ->
  exists rb, buffers st !! b = Some rb
    /\ st' = set_trace (trace st ++ [EvAcquire b])
               (set_buffers (<[b := rb_with_refs (rb_refs rb + 1) rb]> (buffers st)) st).
Proof.
  unfold Acquire, store. intros E.
  apply bind_Ok in E as (rb & st0 & E0 & E). apply deref_Ok in E0 as [-> Hb].
  minv. eauto.
Qed.

Lemma forM_Release l st st' :
  forM_ l Release st = Ok tt st' ->
  m_renderBuffers st' = m_renderBuffers st
  /\ trace st' = trace st ++ map EvRelease l
  /\ forall b, b ∉ l -> buffers st' !! b = buffers st !! b.
Proof.
  revert st. induction l as [|x l IH]; intros st E; simpl in E.
  - minv. rewrite app_nil_r. auto.
  - apply bind_Ok in E as ([] & st1 & E1 & E).
    apply Release_Ok in E1 as (rb & Hb & ->).
    destruct (IH _ E) as (Hs & Ht & Hh). simpl in *.
    split; [exact Hs |]. split; [rewrite Ht, <- app_assoc; reflexivity |].
    intros b Hb'. rewrite Hh by (intros ?; apply Hb'; right; assumption).
    apply lookup_insert_ne. intros ->. apply Hb'. left.
Qed.

Lemma find_buffer_Ok p l st r st' :
  find_buffer p l st = Ok r st' ->
  st' = st
  /\ match r with
     | Some b => b ∈ l /\ exists rb, buffers st !! b = Some rb /\ rb_pool rb = p
     | None => forall b, b ∈ l ->
                 exists rb, buffers st !! b = Some rb /\ rb_pool rb <> p
     end.
Proof.
  induction l as [|x l IH]; intros E; simpl in E.
  - minv. split; [reflexivity |]. intros b Hb. inversion Hb.
  - apply bind_Ok in E as (rb & st0 & E0 & E). apply deref_Ok in E0 as [-> Hb].
    destruct (bool_decide (rb_pool rb = p)) eqn:Hp.
    + minv. apply bool_decide_eq_true in Hp. split; [reflexivity |].
      split; [left | eauto].
    + apply bool_decide_eq_false in Hp. destruct (IH E) as (-> & Hr).
      split; [reflexivity |]. destruct r as [b|].
      * destruct Hr as (Hin & Hrb). split; [right; exact Hin | exact Hrb].
      * intros b Hin. apply elem_of_cons in Hin as [-> | Hin]; eauto.
Qed.

Lemma HasRenderBuffer_Ok p st has st' :
  HasRenderBuffer p st = Ok has st' ->
  st' = st
  /\ (has = false ->
      forall b, b ∈ m_renderBuffers st ->
        exists rb, buffers st !! b = Some rb /\ rb_pool rb <> p).
Proof.
  unfold HasRenderBuffer. intros E. erewrite bind_Ok_l in E by reflexivity.
  apply bind_Ok in E as (r & st1 & E1 & E).
  apply find_buffer_Ok in E1 as (-> & Hr). minv. split; [reflexivity |].
  intros Hhas. destruct r; [| exact Hr].
  apply bool_decide_eq_false in Hhas. exfalso. apply Hhas. eauto.
Qed.

(** What CreateRenderBuffer does to the set and the buffers. *)
Lemma CreateRenderBuffer_adds p st st' :
  CreateRenderBuffer p st = Ok tt st' ->
  kept (buffers st) (buffers st')
  /\ (m_renderBuffers st' = m_renderBuffers st
      \/ exists b,
           m_renderBuffers st' = m_renderBuffers st ++ [b]
           /\ holds (buffers st') b p
           /\ ~ referenced (buffers st) b
           /\ forall b0, b0 ∈ m_renderBuffers st ->
                exists rb0, buffers st !! b0 = Some rb0 /\ rb_pool rb0 <> p).
Proof.
  unfold CreateRenderBuffer. intros E. erewrite bind_Ok_l in E by reflexivity.
  destruct (_ || _); [minv; split; [apply kept_refl | auto] |].
  apply bind_Ok in E as (has & st1 & E1 & E).
  apply HasRenderBuffer_Ok in E1 as (-> & Hnone).
  erewrite bind_Ok_l in E by reflexivity.
  destruct has; simpl in E; [minv; split; [apply kept_refl | auto] |].
  specialize (Hnone eq_refl).
  destruct (m_bHasCachedFrame st); simpl in E;
    [| minv; split; [apply kept_refl | auto]].
  apply bind_Ok in E as ([] & st1 & E1 & E). minv.
  destruct (is_empty (m_cachedFrame st)); simpl in E;
    [minv; split; [apply kept_refl | auto] |].
  apply bind_Ok in E as (r & st1 & E1 & E).
  pose proof (GetBuffer_kept _ _ _ _ _ E1) as Hk1.
  pose proof (GetBuffer_Ok _ _ _ _ _ E1) as (Hr & Hb1 & Hs1 & _).
  simpl in Hk1, Hb1, Hs1.
  apply bind_Ok in E as ([] & st2 & E2 & E).
  inversion E; subst st'; clear E.
  destruct r as [b|].
  - apply bind_Ok in E2 as ([] & st3 & E3 & E2).
    apply CopyFrame_kept in E3 as [Hk3 Hs3].
    erewrite bind_Ok_l in E2 by reflexivity.
    unfold store_renderBuffers in E2. minv. simpl.
    symmetry in Hr.
    destruct (GetBuffer_result _ _ _ _ Hr) as (Hfree & rb & Hb & Hp & Hrefs).
    assert (buffers st1 !! b = Some rb) as Hb' by (rewrite Hb1; exact Hb).
    split; [eauto using kept_trans |]. right. exists b.
    split; [congruence |]. split.
    + apply (holds_kept _ _ _ _ Hk3). exists rb. auto.
    + split; [| exact Hnone].
      intros (rb0 & Hb0 & Hr0). specialize (Hfree _ Hb0). lia.
  - minv. simpl. split; [exact Hk1 | auto].
Qed.

Lemma GetRenderBuffer_Ok p st r st' :
  GetRenderBuffer p st = Ok r st' ->
  match r with
  | None => st' = st
  | Some b =>
      m_bFlush st = false /\ m_state st = CONFIGURED /\ b ∈ m_renderBuffers st
      /\ exists rb,
           buffers st !! b = Some rb /\ rb_pool rb = p
           /\ st' = set_trace (trace st ++ [EvAcquire b])
                      (set_buffers
                         (<[b := rb_with_refs (rb_refs rb + 1) rb]> (buffers st)) st)
  end.
Proof.
  unfold GetRenderBuffer. intros E. erewrite bind_Ok_l in E by reflexivity.
  destruct (m_bFlush st) eqn:Hf; simpl in E; [minv; reflexivity |].
  destruct (decide (m_state st = CONFIGURED)) as [Hs | Hs];
    [rewrite Hs in E | rewrite (is_state_false _ _ Hs) in E]; simpl in E;
    [| minv; reflexivity].
  apply bind_Ok in E as (it & st1 & E1 & E).
  apply find_buffer_Ok in E1 as (-> & Hit).
  destruct it as [b|]; [| minv; reflexivity].
  apply bind_Ok in E as ([] & st1 & E1 & E). minv.
  destruct Hit as (Hin & rb & Hb & Hp).
  apply Acquire_Ok in E1 as (rb' & Hb' & ->).
  assert (rb' = rb) as -> by congruence. eauto 10.
Qed.

Lemma holds_insert_refs h b rb v b' p :
  h !! b = Some rb -> (rb_refs rb <= v)%Z ->
  holds h b' p -> holds (<[b := rb_with_refs v rb]> h) b' p.
Proof.
  intros Hb Hv (rb' & Hb' & Hp & Hr). destruct (decide (b' = b)) as [-> | Hne].
  - exists (rb_with_refs v rb). rewrite lookup_insert_eq.
    assert (rb' = rb) as -> by congruence.
    split; [reflexivity |]. split; [exact Hp | simpl; lia].
  - exists rb'. rewrite lookup_insert_ne by congruence. auto.
Qed.

Lemma AddFrame_swap_Ok pools bytes size w h st st1 :
  AddFrame_swap pools bytes size w h st = Ok tt st1 ->
  exists rbs sa sb,
    AddFrame_pools pools bytes size w h st = Ok rbs sa
    /\ forM_ (m_renderBuffers sa) Release sa = Ok tt sb
    /\ st1 = set_trace (trace sb ++ [EvStoreRenderBuffers rbs])
               (set_m_renderBuffers rbs sb).
Proof.
  unfold AddFrame_swap, store_renderBuffers. intros E.
  apply bind_Ok in E as (rbs & sa & Ea & E).
  erewrite bind_Ok_l in E by reflexivity.
  apply bind_Ok in E as ([] & sb & Eb & E). minv. eauto 10.
Qed.

Lemma AddFrame_cache_Ok bytes size st st' :
  AddFrame_cache bytes size st = Ok tt st' ->
  buffers st' = buffers st /\ m_renderBuffers st' = m_renderBuffers st
  /\ (trace st' = trace st \/ trace st' = trace st ++ [EvMemcpyCache size]).
Proof.
  intros E.
  assert (keeps (fun st => (buffers st, m_renderBuffers st))
            (AddFrame_cache bytes size)) as Hk
    by (unfold AddFrame_cache; keeps_prim).
  pose proof (Hk _ _ _ E) as Hk'. injection Hk' as Hb Hs.
  split; [exact Hb |]. split; [exact Hs |].
  unfold AddFrame_cache in E. erewrite bind_Ok_l in E by reflexivity.
  destruct (PrimFloat.eqb _ _); [| minv; auto].
  apply bind_Ok in E as ([] & st1 & E1 & E).
  inversion E1; subst st1; clear E1.
  apply bind_Ok in E as (c & st1 & E1 & E).
  assert (trace st1 = trace st) as Ht.
  { destruct (m_bHasCachedFrame st); simpl in E1; minv; reflexivity. }
  destruct (is_empty c); simpl in E; [minv; auto |].
  destruct (memcpy _ _ _ _ _); [| inversion E].
  minv. simpl. rewrite Ht. auto.
Qed.

(** An accepted AddFrame: the new list is built, the references on the
    previous buffers are released, the set is replaced. *)
Lemma AddFrame_swaps bytes size width height o st st' :
  m_bFlush st = false -> m_state st = CONFIGURED ->
  size <> 0 -> width <> 0 -> height <> 0 ->
  width = m_width st -> height = m_height st ->
  AddFrame (Some bytes) size width height o st = Ok tt st' ->
  exists rbs sa sb tail,
    AddFrame_pools (bufferPools st) bytes size width height st = Ok rbs sa
    /\ forM_ (m_renderBuffers st) Release sa = Ok tt sb
    /\ trace st' = trace sa ++ map EvRelease (m_renderBuffers st)
                   ++ [EvStoreRenderBuffers rbs] ++ tail
    /\ (tail = [] \/ tail = [EvMemcpyCache size])
    /\ m_renderBuffers st' = rbs
    /\ buffers st' = buffers sb.
Proof.
  intros Hf Hs Hsize Hw Hh Hwe Hhe E.
  rewrite (AddFrame_accepted _ _ _ _ o st Hf Hs Hsize Hw Hh Hwe Hhe) in E.
  apply bind_Ok in E as ([] & st1 & E1 & E).
  apply AddFrame_swap_Ok in E1 as (rbs & sa & sb & Ea & Eb & ->).
  destruct (AddFrame_pools_collects _ _ _ _ _ _ _ _ Ea) as (_ & Hsa & _).
  rewrite Hsa in Eb.
  destruct (forM_Release _ _ _ Eb) as (_ & Htr & _).
  apply AddFrame_cache_Ok in E as (Hb & Hset & Ht). simpl in Hb, Hset, Ht.
  exists rbs, sa, sb.
  destruct Ht as [Ht | Ht]; [exists [] | exists [EvMemcpyCache size]];
    (split; [exact Ea |]); (split; [exact Eb |]);
    (split; [rewrite Ht, Htr, <- ?app_assoc; reflexivity | auto]).
Qed.

Lemma BufferSetInv_empty st : m_renderBuffers st = [] -> BufferSetInv st.
Proof. intros Hs. exists []. rewrite Hs. split; constructor. Qed.

Lemma BufferSetInv_same st st' :
  buffers st' = buffers st -> m_renderBuffers st' = m_renderBuffers st ->
  BufferSetInv st -> BufferSetInv st'.
Proof. intros Hb Hs (ps & Hnd & Hall). exists ps. rewrite Hb, Hs. auto. Qed.

Lemma AddFrame_keeps_invariant data size width height o st st' :
  NoDup (map pool_ptr (bufferPools st)) -> BufferSetInv st ->
  AddFrame data size width height o st = Ok tt st' -> BufferSetInv st'.
Proof.
  intros Hpools Hinv E.
  destruct (AddFrame_cases _ _ _ _ _ _ _ E)
    as [-> | [-> | (bytes & -> & Hf & Hs & Hsize & Hw & Hh & Hwe & Hhe)]].
  - exact Hinv.
  - revert Hinv. apply BufferSetInv_same; unfold configured_with;
      destruct (is_state (m_state st) UNCONFIGURED); reflexivity.
  - destruct (AddFrame_swaps _ _ _ _ _ _ _ Hf Hs Hsize Hw Hh Hwe Hhe E)
      as (rbs & sa & sb & tail & Ea & Eb & _ & _ & Hset & Hbuf).
    destruct (AddFrame_pools_collects _ _ _ _ _ _ _ _ Ea)
      as (Hk & Hsa & Hnew & ps & Hsub & Hall).
    destruct (forM_Release _ _ _ Eb) as (_ & _ & Hsame).
    destruct Hinv as (ps0 & _ & Hold).
    exists ps. split; [eapply sublist_NoDup; eassumption |].
    rewrite Hset, Hbuf. apply (Forall2_holds_same (buffers sa)); [| exact Hall].
    intros b Hb. apply Hsame. intros Hin.
    rewrite Forall_forall in Hnew. apply (Hnew _ Hb).
    apply list_elem_of_lookup in Hin as (i & Hi).
    destruct (Forall2_lookup_l _ _ _ i b Hold Hi) as (p & _ & Hp).
    eapply holds_referenced. exact Hp.
Qed.

Lemma CreateRenderBuffer_keeps_invariant p st st' :
  BufferSetInv st -> CreateRenderBuffer p st = Ok tt st' -> BufferSetInv st'.
Proof.
  intros (ps & Hnd & Hall) E.
  destruct (CreateRenderBuffer_adds _ _ _ E) as (Hk & [Hs | (b & Hs & Hb & _ & Hnone)]).
  - exists ps. rewrite Hs. split; [exact Hnd |]. eapply Forall2_holds_kept; eassumption.
  - exists (ps ++ [p]). rewrite Hs. split.
    + apply NoDup_app. split; [exact Hnd |]. split; [| apply NoDup_singleton].
      intros q Hq Hqp. apply list_elem_of_singleton in Hqp as ->.
      apply list_elem_of_lookup in Hq as (i & Hi).
      destruct (Forall2_lookup_r _ _ _ i p Hall Hi) as (b0 & Hb0 & (rb0 & Hl0 & Hp0 & _)).
      destruct (Hnone b0) as (rb1 & Hl1 & Hne);
        [apply list_elem_of_lookup; eauto |].
      congruence.
    + apply Forall2_app; [eapply Forall2_holds_kept; eassumption |].
      constructor; [exact Hb | constructor].
Qed.

(** With nothing done in the window this is CreateRenderBuffer. *)
Lemma CreateRenderBuffer_unlocked_alone p :
  CreateRenderBuffer_unlocked (mret tt) p = CreateRenderBuffer p.
Proof. reflexivity. Qed.

Lemma leaves_set_ret : leaves_set (mret tt).
Proof. intros st st' E. minv. split; [reflexivity | apply kept_refl]. Qed.

Lemma CreateRenderBuffer_unlocked_adds producer p st st' :
  leaves_set producer ->
  CreateRenderBuffer_unlocked producer p st = Ok tt st' ->
  kept (buffers st) (buffers st')
  /\ (m_renderBuffers st' = m_renderBuffers st
      \/ exists b,
           m_renderBuffers st' = m_renderBuffers st ++ [b]
           /\ holds (buffers st') b p
           /\ ~ referenced (buffers st) b
           /\ forall b0, b0 ∈ m_renderBuffers st ->
                exists rb0, buffers st !! b0 = Some rb0 /\ rb_pool rb0 <> p).
Proof.
  unfold CreateRenderBuffer_unlocked. intros Hprod E.
  erewrite bind_Ok_l in E by reflexivity.
  destruct (_ || _); [minv; split; [apply kept_refl | auto] |].
  apply bind_Ok in E as (has & st1 & E1 & E).
  apply HasRenderBuffer_Ok in E1 as (-> & Hnone).
  erewrite bind_Ok_l in E by reflexivity.
  destruct has; simpl in E; [minv; split; [apply kept_refl | auto] |].
  specialize (Hnone eq_refl).
  destruct (m_bHasCachedFrame st); simpl in E;
    [| minv; split; [apply kept_refl | auto]].
  apply bind_Ok in E as ([] & st1 & E1 & E). minv.
  destruct (is_empty (m_cachedFrame st)); simpl in E;
    [minv; split; [apply kept_refl | auto] |].
  apply bind_Ok in E as (r & st1 & E1 & E).
  pose proof (GetBuffer_kept _ _ _ _ _ E1) as Hk1.
  pose proof (GetBuffer_Ok _ _ _ _ _ E1) as (Hr & Hb1 & Hs1 & _).
  simpl in Hk1, Hb1, Hs1.
  apply bind_Ok in E as ([] & st2 & E2 & E).
  inversion E; subst st'; clear E.
  destruct r as [b|].
  - apply bind_Ok in E2 as ([] & st3 & E3 & E2).
    apply CopyFrame_kept in E3 as [Hk3 Hs3].
    apply bind_Ok in E2 as ([] & st4 & E4 & E2).
    destruct (Hprod _ _ E4) as [Hs4 Hk4].
    erewrite bind_Ok_l in E2 by reflexivity.
    unfold store_renderBuffers in E2. minv. simpl.
    symmetry in Hr.
    destruct (GetBuffer_result _ _ _ _ Hr) as (Hfree & rb & Hb & Hp & Hrefs).
    assert (buffers st1 !! b = Some rb) as Hb' by (rewrite Hb1; exact Hb).
    split; [eauto using kept_trans |]. right. exists b.
    split; [congruence |]. split.
    + apply (holds_kept _ _ _ _ Hk4). apply (holds_kept _ _ _ _ Hk3).
      exists rb. auto.
    + split; [| exact Hnone].
      intros (rb0 & Hb0 & Hr0). specialize (Hfree _ Hb0). lia.
  - minv. simpl. split; [exact Hk1 | auto].
Qed.

Lemma CreateRenderBuffer_unlocked_keeps_invariant producer p st st' :
  leaves_set producer -> BufferSetInv st ->
  CreateRenderBuffer_unlocked producer p st = Ok tt st' -> BufferSetInv st'.
Proof.
  intros Hprod (ps & Hnd & Hall) E.
  destruct (CreateRenderBuffer_unlocked_adds _ _ _ _ Hprod E)
    as (Hk & [Hs | (b & Hs & Hb & _ & Hnone)]).
  - exists ps. rewrite Hs. split; [exact Hnd |]. eapply Forall2_holds_kept; eassumption.
  - exists (ps ++ [p]). rewrite Hs. split.
    + apply NoDup_app. split; [exact Hnd |]. split; [| apply NoDup_singleton].
      intros q Hq Hqp. apply list_elem_of_singleton in Hqp as ->.
      apply list_elem_of_lookup in Hq as (i & Hi).
      destruct (Forall2_lookup_r _ _ _ i p Hall Hi) as (b0 & Hb0 & (rb0 & Hl0 & Hp0 & _)).
      destruct (Hnone b0) as (rb1 & Hl1 & Hne);
        [apply list_elem_of_lookup; eauto |].
      congruence.
    + apply Forall2_app; [eapply Forall2_holds_kept; eassumption |].
      constructor; [exact Hb | constructor].
Qed.

Lemma GetRenderBuffer_keeps_invariant p st r st' :
  BufferSetInv st -> GetRenderBuffer p st = Ok r st' -> BufferSetInv st'.
Proof.
  intros (ps & Hnd & Hall) E. apply GetRenderBuffer_Ok in E.
  destruct r as [b|]; [| subst; exists ps; auto].
  destruct E as (_ & _ & _ & rb & Hb & _ & ->). exists ps. simpl.
  split; [exact Hnd |]. eapply Forall2_impl; [exact Hall |].
  intros b' q. apply holds_insert_refs; [exact Hb | lia].
Qed.

Lemma CheckFlush_empties st st' :
  m_bFlush st = true -> CheckFlush st = Ok tt st' -> m_renderBuffers st' = [].
Proof.
  intros Hf E. unfold CheckFlush in E. erewrite bind_Ok_l in E by reflexivity.
  rewrite Hf in E. unfold store_renderBuffers in E. minv. reflexivity.
Qed.

Lemma Deinitialize_empties st st' :
  Deinitialize st = Ok tt st' -> m_renderBuffers st' = [].
Proof.
  intros E. unfold Deinitialize, store_renderBuffers in E. minv. reflexivity.
Qed.

(** C5, as amended.  If the pools hand out unreferenced buffers of their
    own with a reference taken, and the registry lists every pool once,
    then AddFrame, CreateRenderBuffer, GetRenderBuffer, CheckFlush and
    Deinitialize, run one after another, keep the invariant of the render
    buffer set: its buffers belong to pairwise different pools and a
    reference is held on each.  CreateRenderBuffer keeps it also beside
    another thread, as long as what that thread does while CreateRenderBuffer
    has given up m_bufferMutex for its copy (lines 509-512) leaves the set
    and the referenced buffers as they are.  An accepted AddFrame first
    builds the new list, then releases the references on the previous
    buffers, and only then replaces the set. *)
Theorem buffer_set_invariant :
  (forall c st st',
     buffer_set_call c ->
     NoDup (map pool_ptr (bufferPools st)) -> BufferSetInv st ->
     run c st = Ok tt st' -> BufferSetInv st')
  /\ (forall producer bufferPool st st',
        leaves_set producer -> BufferSetInv st ->
        CreateRenderBuffer_unlocked producer bufferPool st = Ok tt st' ->
        BufferSetInv st')
  /\ (forall bytes size width height o st st',
        m_bFlush st = false -> m_state st = CONFIGURED ->
        size <> 0 -> width <> 0 -> height <> 0 ->
        width = m_width st -> height = m_height st ->
        AddFrame (Some bytes) size width height o st = Ok tt st' ->
        exists rbs sa tail,
          AddFrame_pools (bufferPools st) bytes size width height st = Ok rbs sa
          /\ trace st' = trace sa ++ map EvRelease (m_renderBuffers st)
                         ++ [EvStoreRenderBuffers rbs] ++ tail
          /\ (tail = [] \/ tail = [EvMemcpyCache size])
          /\ m_renderBuffers st' = rbs).
Proof.
  split; [| split].
  - intros c st st' Hc Hpools Hinv E. destruct c; simpl in Hc; try contradiction;
      simpl in E.
    + apply BufferSetInv_empty. exact (Deinitialize_empties _ _ E).
    + exact (AddFrame_keeps_invariant _ _ _ _ _ _ _ Hpools Hinv E).
    + destruct (m_bFlush st) eqn:Hf.
      * apply BufferSetInv_empty. exact (CheckFlush_empties _ _ Hf E).
      * rewrite CheckFlush_idle in E by exact Hf. inversion E; subst. exact Hinv.
    + apply bind_Ok in E as (r & st1 & E & E2). minv.
      exact (GetRenderBuffer_keeps_invariant _ _ _ _ Hinv E).
    + exact (CreateRenderBuffer_keeps_invariant _ _ _ Hinv E).
  - intros producer p st st' Hprod Hinv E.
    exact (CreateRenderBuffer_unlocked_keeps_invariant _ _ _ _ Hprod Hinv E).
  - intros bytes size width height o st st' Hf Hs Hsize Hw Hh Hwe Hhe E.
    destruct (AddFrame_swaps _ _ _ _ _ _ _ Hf Hs Hsize Hw Hh Hwe Hhe E)
      as (rbs & sa & sb & tail & Ea & _ & Ht & Htail & Hset & _).
    exists rbs, sa, tail. auto.
Qed.

End BufferSet.

Module BufferSetSamples.
Import Sample.

(** Configured, then given one frame: the set holds buffers 0 and 1. *)
Definition once : State :=
  after (AddFrame (H := collaborators) (Some frame16) 16 4 2 0) configured.

(** Then given a second frame. *)
Definition twice : State :=
  after (AddFrame (H := collaborators) (Some frame16) 16 4 2 0) once.

End BufferSetSamples.

Module WindowSamples.
Import Sample.

(** The paused manager with its cached frame, once the renderer of pool 0
    is visible. *)
Definition visible : State :=
  set_bufferPools [pool0] CachedFrameSamples.cached16.

(** CreateRenderBuffer for pool 0 with a Flush of another thread in the
    window. *)
Definition flagged : State :=
  after (CreateRenderBuffer_unlocked (H := collaborators) Flush 0) visible.

(** CreateRenderBuffer for pool 0 with an AddFrame of the other thread in
    the window. *)
Definition raced : State :=
  after (CreateRenderBuffer_unlocked (H := collaborators)
           (AddFrame (H := collaborators) (Some frame16) 16 4 2 0) 0) visible.

End WindowSamples.

(** C5, as stated, on the order of the swap: the set is said to be replaced
    before the references on the previous buffers are released.  In the
    second of two AddFrame calls the release of buffer 0 comes before any
    write of the set. *)
Lemma AddFrame_releases_before_replacing :
  ~ (forall (C : Collaborators) bytes size width height o st st' delta b pre post,
       AddFrame (Some bytes) size width height o st = Ok tt st' ->
       trace st' = trace st ++ delta ->
       delta = pre ++ EvRelease b :: post ->
       exists rbs, EvStoreRenderBuffers rbs ∈ pre).
Proof.
  intros Hclaim.
  destruct (Hclaim Sample.collaborators Sample.frame16 16 4 2 0
              BufferSetSamples.once BufferSetSamples.twice
              (drop (length (trace BufferSetSamples.once))
                 (trace BufferSetSamples.twice))
              0%nat
              (take 8 (drop (length (trace BufferSetSamples.once))
                         (trace BufferSetSamples.twice)))
              (drop 9 (drop (length (trace BufferSetSamples.once))
                         (trace BufferSetSamples.twice))))
    as (rbs & Hin).
  - vm_compute. reflexivity.
  - vm_compute. reflexivity.
  - vm_compute. reflexivity.
  - vm_compute in Hin.
    repeat (apply elem_of_cons in Hin as [Hin | Hin]; [discriminate |]).
    inversion Hin.
Qed.

Lemma buffer_set_invariant_witness :
  BufferSetInv BufferSetSamples.twice
  /\ m_renderBuffers BufferSetSamples.twice = [2; 3]%nat
  /\ BufferSetInv WindowSamples.flagged
  /\ m_renderBuffers WindowSamples.flagged = [0]%nat.
Proof.
  split; [| split; [vm_compute; reflexivity | split; [| vm_compute; reflexivity]]].
  - apply (proj1 (@buffer_set_invariant Sample.collaborators Sample_contract)
             (CallAddFrame (Some Sample.frame16) 16 4 2 0) BufferSetSamples.once).
    + exact I.
    + apply (bool_decide_unpack _). vm_compute. exact I.
    + apply check_BufferSetInv_sound. vm_compute. reflexivity.
    + vm_compute. reflexivity.
  - apply (proj1 (proj2 (@buffer_set_invariant Sample.collaborators
                           Sample_contract))
             Flush 0%nat WindowSamples.visible).
    + intros st st' E. unfold Flush in E. inversion E.
      split; [reflexivity | intros b rb Hb _; eauto].
    + apply check_BufferSetInv_sound. vm_compute. reflexivity.
    + vm_compute. reflexivity.
Defined.

(** X26. The render buffer set across the two threads: with an AddFrame of
    the other thread in the time CreateRenderBuffer has given up
    m_bufferMutex for its copy, AddFrame replaces the set by its own buffer
    of pool 0 and CreateRenderBuffer then appends the buffer it took from
    pool 0 before: the set ends with two referenced buffers of one pool,
    which the invariant of the set excludes.  The same two calls one after
    the other, in either order, leave one buffer in the set. *)
Theorem CreateRenderBuffer_window_race :
  BufferSetInv WindowSamples.visible
  /\ CreateRenderBuffer_unlocked (H := Sample.collaborators)
       (AddFrame (H := Sample.collaborators) (Some Sample.frame16) 16 4 2 0) 0
       WindowSamples.visible = Ok tt WindowSamples.raced
  /\ m_renderBuffers WindowSamples.raced = [1; 0]%nat
  /\ holds (buffers WindowSamples.raced) 1 0
  /\ holds (buffers WindowSamples.raced) 0 0
  /\ ~ BufferSetInv WindowSamples.raced
  /\ m_renderBuffers
       (Sample.after
          (run_all (H := Sample.collaborators)
             [CallCreateRenderBuffer 0;
              CallAddFrame (Some Sample.frame16) 16 4 2 0])
          WindowSamples.visible) = [1]%nat
  /\ m_renderBuffers
       (Sample.after
          (run_all (H := Sample.collaborators)
             [CallAddFrame (Some Sample.frame16) 16 4 2 0;
              CallCreateRenderBuffer 0])
          WindowSamples.visible) = [0]%nat.
Proof.
  assert (holds (buffers WindowSamples.raced) 1 0) as H1.
  { eexists. split; [vm_compute; reflexivity |]. split; [reflexivity | simpl; lia]. }
  assert (holds (buffers WindowSamples.raced) 0 0) as H0.
  { eexists. split; [vm_compute; reflexivity |]. split; [reflexivity | simpl; lia]. }
  split; [apply check_BufferSetInv_sound; vm_compute; reflexivity |].
  split; [vm_compute; reflexivity |].
  split; [vm_compute; reflexivity |].
  split; [exact H1 |]. split; [exact H0 |].
  split; [| split; vm_compute; reflexivity].
  intros (ps & Hnd & Hall).
  replace (m_renderBuffers WindowSamples.raced) with [1; 0]%nat in Hall
    by (vm_compute; reflexivity).
  apply Forall2_cons_inv_l in Hall as (p1 & ps1 & (rb1 & Hl1 & Hp1 & _) & Hall & ->).
  apply Forall2_cons_inv_l in Hall as (p0 & ps0 & (rb0 & Hl0 & Hp0 & _) & Hall & ->).
  vm_compute in Hl1, Hl0. injection Hl1 as <-. injection Hl0 as <-.
  simpl in Hp1, Hp0. subst p1 p0.
  apply NoDup_cons in Hnd as [Hin _]. apply Hin. left.
Qed.

(** ** Render dispatch and texture upload *)

Definition is_upload (b : nat) (e : Event) : bool :=
  match e with
  | EvUploadTexture b' _ => Nat.eqb b' b
  | _ => false
  end.

(** How often UploadTexture was called on buffer [b]. *)
Fixpoint uploads (b : nat) (tr : list Event) : nat :=
  match tr with
  | [] => O
  | e :: tr' => ((if is_upload b e then 1 else 0) + uploads b tr')%nat
  end.

(** Events other than an upload, a change of the loaded flag and a binding
    of a buffer to a renderer. *)
Definition quiet (e : Event) : bool :=
  match e with
  | EvUploadTexture _ _ | EvSetLoaded _ _ | EvSetBuffer _ _ => false
  | _ => true
  end.

(** The trace grew by events that satisfy [Q]. *)
Definition appends (Q : Event -> bool) (st st' : State) : Prop :=
  exists evs, trace st' = trace st ++ evs /\ forallb Q evs = true.

(** Every successful run of [m] relates its two states by [R]. *)
Definition follows {A} (R : State -> State -> Prop) (m : M A) : Prop :=
  forall st a st', m st = Ok a st' -> R st st'.

Definition loaded_in (st : State) (b : nat) : Prop :=
  exists rb, buffers st !! b = Some rb /\ rb_loaded rb = true.

(** A reference is held on every buffer of the set. *)
Definition SetRef (st : State) : Prop :=
  Forall (referenced (buffers st)) (m_renderBuffers st).

Definition check_SetRef (st : State) : bool :=
  forallb (fun b => match buffers st !! b with
                    | Some rb => (1 <=? rb_refs rb)%Z
                    | None => false
                    end) (m_renderBuffers st).

(** Referenced buffers keep their pool and their count, and stay loaded. *)
Definition kept_up (h h' : gmap nat IRenderBuffer) : Prop :=
  forall b rb, h !! b = Some rb -> (1 <= rb_refs rb)%Z ->
    exists rb', h' !! b = Some rb' /\ rb_pool rb' = rb_pool rb
                /\ rb_refs rb' = rb_refs rb
                /\ (rb_loaded rb = true -> rb_loaded rb' = true).

(** What rendering may do: the set stays referenced, referenced buffers
    stay loaded, and a buffer is uploaded at most once, ending referenced
    and loaded, and only if it was not both before. *)
Definition renders (st st' : State) : Prop :=
  SetRef st ->
  SetRef st' /\ kept_up (buffers st) (buffers st')
  /\ forall b,
       uploads b (trace st') = uploads b (trace st)
       \/ (uploads b (trace st') = S (uploads b (trace st))
           /\ referenced (buffers st') b /\ loaded_in st' b
           /\ ~ (referenced (buffers st) b /\ loaded_in st b)).

Definition render_call (c : Call) : Prop :=
  match c with
  | CallRenderWindow _ _ | CallRenderControl _ _ _ _ => True
  | _ => False
  end.

(** RenderInternal up to the buffer it renders. *)
Definition RenderInternal_acquire `{Collaborators} (bufferPool : nat) :
    M (option nat) :=
  found ← GetRenderBuffer bufferPool;
  match found with
  | None => CreateRenderBuffer bufferPool;; GetRenderBuffer bufferPool
  | Some b => mret (Some b)
  end.

(** RenderInternal on the buffer it found. *)
Definition RenderInternal_present (renderer : CRPBaseRenderer) (b : nat) : M unit :=
  rb ← deref b;
  bUploaded ←
    (if negb (rb_loaded rb)
     then uploaded ← UploadTexture b; SetLoaded b true;; mret uploaded
     else mret true);
  when bUploaded (emit (EvSetBuffer (rnd_ptr renderer) b));;
  Release b.

Section Follows.
Context (R : State -> State -> Prop) `{!Reflexive R, !Transitive R}.

Lemma follows_ret {A} (a : A) : follows R (mret a).
Proof. intros st a' st' E. inversion E. reflexivity. Qed.

Lemma follows_get : follows R get.
Proof. intros st a' st' E. inversion E. reflexivity. Qed.

Lemma follows_crash {A} e : follows R (crash (A := A) e).
Proof. intros st a' st' E. inversion E. Qed.

Lemma follows_modify g : (forall st, R st (g st)) -> follows R (modify g).
Proof. intros Hg st a' st' E. inversion E. apply Hg. Qed.

Lemma follows_bind {A B} (m : M A) (k : A -> M B) :
  follows R m -> (forall a, follows R (k a)) -> follows R (m ≫= k).
Proof.
  intros Hm Hk st b st'' E. apply bind_Ok in E as (a & st' & E1 & E2).
  transitivity st'; [exact (Hm _ _ _ E1) | exact (Hk _ _ _ _ E2)].
Qed.

Lemma follows_forM_ {A} (l : list A) (g : A -> M unit) :
  (forall x, follows R (g x)) -> follows R (forM_ l g).
Proof.
  intros Hg. induction l as [|x l IH]; simpl.
  - apply follows_ret.
  - apply follows_bind; [apply Hg | intros _; exact IH].
Qed.

Lemma follows_when b m : follows R m -> follows R (when b m).
Proof. intros Hm. destruct b; simpl; [exact Hm | apply follows_ret]. Qed.

Lemma follows_deref b : follows R (deref b).
Proof. intros st a st' E. apply deref_Ok in E as [-> _]. reflexivity. Qed.

Lemma follows_udiv a b : follows R (udiv a b).
Proof. intros st q st' E. apply udiv_Ok in E as ->. reflexivity. Qed.

Lemma follows_find_buffer `{Collaborators} p l : follows R (find_buffer p l).
Proof.
  intros st a st' E.
  assert (st' = st) as -> by exact (find_buffer_keeps id p l _ _ _ E).
  reflexivity.
Qed.

Lemma follows_HasRenderBuffer `{Collaborators} p : follows R (HasRenderBuffer p).
Proof.
  intros st a st' E.
  assert (st' = st) as -> by exact (HasRenderBuffer_keeps id p _ _ _ E).
  reflexivity.
Qed.

End Follows.

Create HintDb follows.
#[global] Hint Resolve follows_deref follows_udiv follows_find_buffer
  follows_HasRenderBuffer : follows.

(** Splits a goal [follows R m] along the structure of [m]; [step] proves
    [R st (g st)] for the state updates [g] met. *)
Ltac follows_auto step :=
  repeat first
    [ assumption
    | solve [eauto with follows typeclass_instances]
    | apply follows_ret; solve [eauto with typeclass_instances]
    | apply follows_get; solve [eauto with typeclass_instances]
    | apply follows_crash
    | apply follows_bind; [solve [eauto with typeclass_instances] | | intros ?]
    | apply follows_modify; intros; step
    | apply follows_forM_; [solve [eauto with typeclass_instances]
                           | solve [eauto with typeclass_instances] | intros ?]
    | apply follows_when; [solve [eauto with typeclass_instances] |]
    | match goal with
      | |- follows _ (if ?b then _ else _) => destruct b
      | |- follows _ (match ?x with _ => _ end) => destruct x
      end ].

Ltac follows_prim step :=
  unfold emit, store, Acquire, Release, UploadTexture, SetLoaded,
    store_renderBuffers, buffer_memcpy, Flush, SetFullScreenVideo, SetScissors;
  follows_auto step.

(** A state update that appends nothing or one event that satisfies [Q]. *)
Ltac appends_step :=
  first [ exists []; split; [simpl; rewrite app_nil_r; reflexivity | reflexivity]
        | eexists [_]; split; [reflexivity | reflexivity] ].

Section Appends.
Context (Q : Event -> bool).

#[global] Instance appends_refl : Reflexive (appends Q).
Proof. intros st. exists []. rewrite app_nil_r. auto. Qed.

#[global] Instance appends_trans : Transitive (appends Q).
Proof.
  intros s1 s2 s3 (e1 & H1 & Q1) (e2 & H2 & Q2). exists (e1 ++ e2).
  rewrite H2, H1, <- app_assoc. split; [reflexivity |].
  rewrite forallb_app, Q1, Q2. reflexivity.
Qed.

End Appends.

Lemma uploads_app b t1 t2 : uploads b (t1 ++ t2) = (uploads b t1 + uploads b t2)%nat.
Proof. induction t1 as [|e t1 IH]; simpl; [reflexivity | rewrite IH; lia]. Qed.

Lemma uploads_quiet b evs : forallb quiet evs = true -> uploads b evs = O.
Proof.
  induction evs as [|e evs IH]; simpl; [reflexivity |].
  intros Hq. apply andb_true_iff in Hq as [He Hq]. rewrite (IH Hq).
  destruct e; simpl in *; try reflexivity; discriminate.
Qed.

Lemma appends_quiet_uploads st st' b :
  appends quiet st st' -> uploads b (trace st') = uploads b (trace st).
Proof.
  intros (evs & -> & Hq). rewrite uploads_app, (uploads_quiet _ _ Hq). lia.
Qed.

Section QuietSteps.
Context `{Collaborators}.

Lemma GetBuffer_quiet p n : follows (appends quiet) (GetBuffer p n).
Proof.
  intros st r st' E. unfold GetBuffer in E. inversion E; subst.
  eexists [_]. split; reflexivity.
Qed.
#[local] Hint Resolve GetBuffer_quiet : follows.

Lemma CopyFrame_rows_quiet n i b src ss ts wb :
  follows (appends quiet) (CopyFrame_rows n i b src ss ts wb).
Proof. revert i. induction n as [|n IH]; intros i; simpl; follows_prim appends_step. Qed.
#[local] Hint Resolve CopyFrame_rows_quiet : follows.

Lemma CopyFrame_quiet b fmt data size w h :
  follows (appends quiet) (CopyFrame b fmt data size w h).
Proof. unfold CopyFrame. follows_prim appends_step. Qed.
#[local] Hint Resolve CopyFrame_quiet : follows.

Lemma CreateRenderBuffer_quiet p : follows (appends quiet) (CreateRenderBuffer p).
Proof. unfold CreateRenderBuffer. follows_prim appends_step. Qed.
#[local] Hint Resolve CreateRenderBuffer_quiet : follows.

Lemma GetRenderBuffer_quiet p : follows (appends quiet) (GetRenderBuffer p).
Proof. unfold GetRenderBuffer. follows_prim appends_step. Qed.
#[local] Hint Resolve GetRenderBuffer_quiet : follows.

Lemma RenderInternal_acquire_quiet p :
  follows (appends quiet) (RenderInternal_acquire p).
Proof. unfold RenderInternal_acquire. follows_prim appends_step. Qed.

End QuietSteps.

Section Renders.
Context `{PoolContract}.

Lemma kept_kept_up h h' : kept h h' -> kept_up h h'.
Proof.
  intros Hk b rb Hb Hr. destruct (Hk _ _ Hb Hr) as (rb' & ? & ? & ? & Hl).
  exists rb'. repeat split; try assumption. intros. congruence.
Qed.

Lemma kept_up_refl h : kept_up h h.
Proof. intros b rb Hb _. eauto 10. Qed.

Lemma kept_up_trans h1 h2 h3 : kept_up h1 h2 -> kept_up h2 h3 -> kept_up h1 h3.
Proof.
  intros H12 H23 b rb Hb Hr.
  destruct (H12 _ _ Hb Hr) as (rb2 & Hb2 & Hp2 & Hr2 & Hl2).
  destruct (H23 b rb2 Hb2) as (rb3 & Hb3 & Hp3 & Hr3 & Hl3); [lia |].
  exists rb3. repeat split; [assumption | congruence | congruence | auto].
Qed.

Lemma referenced_kept_up h h' b : kept_up h h' -> referenced h b -> referenced h' b.
Proof.
  intros Hk (rb & Hb & Hr).
  destruct (Hk _ _ Hb Hr) as (rb' & Hb' & _ & Hr' & _).
  exists rb'. split; [assumption | lia].
Qed.

Lemma loaded_kept_up st st' b :
  kept_up (buffers st) (buffers st') ->
  referenced (buffers st) b -> loaded_in st b -> loaded_in st' b.
Proof.
  intros Hk (rb & Hb & Hr) (rb0 & Hb0 & Hl).
  assert (rb0 = rb) as -> by congruence.
  destruct (Hk _ _ Hb Hr) as (rb' & Hb' & _ & _ & Hl').
  exists rb'. auto.
Qed.

Lemma SetRef_kept_up st st' :
  kept_up (buffers st) (buffers st') ->
  m_renderBuffers st' = m_renderBuffers st -> SetRef st -> SetRef st'.
Proof.
  unfold SetRef. intros Hk -> Hs. eapply Forall_impl; [exact Hs |].
  intros b. apply referenced_kept_up. exact Hk.
Qed.

#[global] Instance renders_refl : Reflexive renders.
Proof.
  intros st Hs. split; [exact Hs |]. split; [apply kept_up_refl | auto].
Qed.

#[global] Instance renders_trans : Transitive renders.
Proof.
  intros s1 s2 s3 H12 H23 Hs1.
  destruct (H12 Hs1) as (Hs2 & Hk12 & Hu12).
  destruct (H23 Hs2) as (Hs3 & Hk23 & Hu23).
  split; [exact Hs3 |]. split; [eauto using kept_up_trans |].
  intros b. destruct (Hu12 b) as [E12 | (E12 & Hr2 & Hl2 & Hn1)];
    destruct (Hu23 b) as [E23 | (E23 & Hr3 & Hl3 & Hn2)].
  - left. congruence.
  - right. split; [congruence |]. split; [exact Hr3 |]. split; [exact Hl3 |].
    intros [Hr1 Hl1]. apply Hn2.
    eauto using referenced_kept_up, loaded_kept_up.
  - right. split; [congruence |].
    split; [eauto using referenced_kept_up |].
    split; [eauto using loaded_kept_up | exact Hn1].
  - exfalso. apply Hn2. auto.
Qed.

Lemma renders_same st st' :
  buffers st' = buffers st -> m_renderBuffers st' = m_renderBuffers st ->
  appends quiet st st' -> renders st st'.
Proof.
  intros Hb Hs Hq Hset. unfold SetRef. rewrite Hb, Hs.
  split; [exact Hset |]. split; [apply kept_up_refl |].
  intros b. left. apply appends_quiet_uploads. exact Hq.
Qed.

Lemma CreateRenderBuffer_renders p : follows renders (CreateRenderBuffer p).
Proof.
  intros st [] st' E Hset.
  pose proof (CreateRenderBuffer_quiet p _ _ _ E) as Hq.
  destruct (CreateRenderBuffer_adds _ _ _ E) as (Hk & Hs).
  split; [| split; [apply kept_kept_up; exact Hk |
                    intros b; left; apply appends_quiet_uploads; exact Hq]].
  unfold SetRef in *. destruct Hs as [-> | (b & -> & Hb & _)].
  - eapply Forall_impl; [exact Hset |]. intros b. apply referenced_kept. exact Hk.
  - apply Forall_app. split.
    + eapply Forall_impl; [exact Hset |]. intros b0. apply referenced_kept. exact Hk.
    + constructor; [eapply holds_referenced; exact Hb | constructor].
Qed.
#[local] Hint Resolve CreateRenderBuffer_renders : follows.

(** A state update that leaves the buffers and the set alone. *)
Ltac renders_step :=
  apply renders_same; [reflexivity | reflexivity | appends_step].

Lemma GetRenderer_pool_renders p rs : follows renders (GetRenderer_pool p rs).
Proof. unfold GetRenderer_pool. follows_prim renders_step. Qed.
#[local] Hint Resolve GetRenderer_pool_renders : follows.

Lemma GetRenderer_pools_renders ps rs : follows renders (GetRenderer_pools ps rs).
Proof. induction ps as [|p ps IH]; simpl; follows_prim renders_step. Qed.
#[local] Hint Resolve GetRenderer_pools_renders : follows.

Lemma GetRenderer_renders rs : follows renders (GetRenderer rs).
Proof. unfold GetRenderer. follows_prim renders_step. Qed.
#[local] Hint Resolve GetRenderer_renders : follows.

Lemma RenderInternal_split r c a st :
  RenderInternal r c a st =
  (emit (EvPreRender (rnd_ptr r) c);;
   renderBuffer ← RenderInternal_acquire (rnd_bufferPool r);
   match renderBuffer with
   | Some b => RenderInternal_present r b
   | None => mret tt
   end;;
   emit (EvRenderFrame (rnd_ptr r) c a)) st.
Proof.
  unfold RenderInternal, RenderInternal_acquire, RenderInternal_present,
    mbind, M_bind, bind.
  rewrite emit_run.
  destruct (GetRenderBuffer _ _) as [[b|] s1|]; reflexivity.
Qed.

Lemma RenderInternal_acquire_Ok p st renderBuffer st' :
  RenderInternal_acquire p st = Ok renderBuffer st' ->
  exists mid,
    (SetRef st -> SetRef mid) /\ kept (buffers st) (buffers mid)
    /\ m_renderBuffers st' = m_renderBuffers mid
    /\ match renderBuffer with
       | None => buffers st' = buffers mid
       | Some b =>
           b ∈ m_renderBuffers mid
           /\ exists rb,
                buffers mid !! b = Some rb
                /\ buffers st' =
                     <[b := rb_with_refs (rb_refs rb + 1) rb]> (buffers mid)
       end.
Proof.
  intros E. unfold RenderInternal_acquire in E.
  apply bind_Ok in E as (found & s1 & E1 & E).
  apply GetRenderBuffer_Ok in E1. destruct found as [b|].
  - inversion E; subst; clear E.
    destruct E1 as (_ & _ & Hin & rb & Hb & _ & ->).
    exists st. split; [auto |]. split; [apply kept_refl |].
    split; [reflexivity |]. split; [exact Hin |]. exists rb. auto.
  - subst s1. apply bind_Ok in E as ([] & s2 & E2 & E).
    pose proof (CreateRenderBuffer_renders p _ _ _ E2) as Hset2.
    destruct (CreateRenderBuffer_adds _ _ _ E2) as (Hk & _).
    apply GetRenderBuffer_Ok in E. exists s2.
    split; [intros Hset; apply Hset2; exact Hset |]. split; [exact Hk |].
    destruct renderBuffer as [b|]; [| subst; auto].
    destruct E as (_ & _ & Hin & rb & Hb & _ & ->).
    split; [reflexivity |]. split; [exact Hin |]. exists rb. auto.
Qed.

(** The buffer RenderInternal leaves behind. *)
Definition presented (rb : IRenderBuffer) : IRenderBuffer :=
  rb_with_refs (rb_refs rb - 1)
    (if rb_loaded rb then rb else rb_with_loaded true rb).

Definition present_events (renderer b : nat) (rb : IRenderBuffer) : list Event :=
  (if rb_loaded rb then []
   else [EvUploadTexture b (rb_upload rb); EvSetLoaded b true])
  ++ (if rb_loaded rb || rb_upload rb then [EvSetBuffer renderer b] else [])
  ++ [EvRelease b].

Lemma RenderInternal_present_Ok r b st st' :
  RenderInternal_present r b st = Ok tt st' ->
  exists rb,
    buffers st !! b = Some rb
    /\ m_renderBuffers st' = m_renderBuffers st
    /\ buffers st' = <[b := presented rb]> (buffers st)
    /\ trace st' = trace st ++ present_events (rnd_ptr r) b rb.
Proof.
  unfold RenderInternal_present. intros E.
  apply bind_Ok in E as (rb & s0 & E0 & E). apply deref_Ok in E0 as [-> Hb].
  exists rb. split; [exact Hb |]. unfold presented, present_events.
  destruct (rb_loaded rb) eqn:Hl; simpl in E.
  - erewrite bind_Ok_l in E by reflexivity. simpl in E.
    apply bind_Ok in E as ([] & s1 & E1 & E). rewrite emit_run in E1.
    inversion E1; subst s1; clear E1.
    apply Release_Ok in E as (rb' & Hb' & ->). simpl in Hb'.
    assert (rb' = rb) as -> by congruence. simpl.
    rewrite <- app_assoc. auto.
  - apply bind_Ok in E as (up & s1 & E1 & E).
    apply bind_Ok in E1 as (u & s2 & E1 & E2).
    unfold UploadTexture in E1.
    apply bind_Ok in E1 as (rb1 & s3 & E3 & E1). apply deref_Ok in E3 as [-> Hb1].
    assert (rb1 = rb) as -> by congruence.
    apply bind_Ok in E1 as ([] & s3 & E3 & E1). rewrite emit_run in E3.
    inversion E3; subst s3; clear E3. inversion E1; subst u s2; clear E1.
    apply bind_Ok in E2 as ([] & s2 & E2 & E3). inversion E3; subst up s1; clear E3.
    unfold SetLoaded, store in E2.
    apply bind_Ok in E2 as (rb2 & s3 & E3 & E2). apply deref_Ok in E3 as [-> Hb2].
    simpl in Hb2. assert (rb2 = rb) as -> by congruence.
    apply bind_Ok in E2 as ([] & s3 & E3 & E2). inversion E3; subst s3; clear E3.
    rewrite emit_run in E2. inversion E2; subst s2; clear E2.
    apply bind_Ok in E as ([] & s1 & E1 & E).
    assert (m_renderBuffers s1 = m_renderBuffers st
            /\ buffers s1 = <[b := rb_with_loaded true rb]> (buffers st)
            /\ trace s1 = trace st ++ [EvUploadTexture b (rb_upload rb);
                                      EvSetLoaded b true]
                          ++ (if rb_upload rb then [EvSetBuffer (rnd_ptr r) b] else []))
      as (Hs1 & Hb1' & Ht1).
    { destruct (rb_upload rb); simpl in E1;
        [rewrite emit_run in E1 |]; inversion E1; subst s1; simpl;
        rewrite <- ?app_assoc; auto. }
    apply Release_Ok in E as (rb' & Hb' & ->). simpl.
    rewrite Hb1', lookup_insert_eq in Hb'. inversion Hb'; subst rb'.
    rewrite Hb1', insert_insert_eq, Ht1, <- !app_assoc. simpl. auto.
Qed.

Lemma uploads_present_events r b rb b0 :
  uploads b0 (present_events r b rb) =
  if negb (rb_loaded rb) && Nat.eqb b b0 then 1%nat else O.
Proof.
  unfold present_events.
  destruct (rb_loaded rb), (rb_upload rb), (Nat.eqb b b0) eqn:Hb; simpl;
    rewrite ?Hb; reflexivity.
Qed.

Lemma RenderInternal_renders r c a : follows renders (RenderInternal r c a).
Proof.
  intros st [] st' E Hset. rewrite RenderInternal_split in E.
  apply bind_Ok in E as ([] & s0 & E0 & E). rewrite emit_run in E0.
  inversion E0; subst s0; clear E0.
  apply bind_Ok in E as (rbuf & s1 & E1 & E).
  pose proof (RenderInternal_acquire_quiet _ _ _ _ E1) as (ev1 & Ht1 & Hq1).
  apply RenderInternal_acquire_Ok in E1 as (mid & Hmid & Hk & Hs1 & Hbuf).
  specialize (Hmid Hset). simpl in Hk, Ht1.
  apply bind_Ok in E as ([] & s2 & E2 & E). rewrite emit_run in E.
  inversion E; subst st'; clear E. simpl.
  destruct rbuf as [b|].
  - destruct Hbuf as (Hin & rb & Hb & Hb1).
    apply RenderInternal_present_Ok in E2 as (rb1 & Hl1 & Hs2 & Hb2 & Ht2).
    rewrite Hb1, lookup_insert_eq in Hl1. inversion Hl1; subst rb1; clear Hl1.
    rewrite Hb1, insert_insert_eq in Hb2.
    set (rbA := rb_with_refs (rb_refs rb + 1) rb) in *.
    assert (rb_pool (presented rbA) = rb_pool rb
            /\ rb_refs (presented rbA) = rb_refs rb
            /\ rb_loaded (presented rbA) = true) as (Hpp & Hpr & Hpl).
    { unfold presented, rbA. simpl.
      destruct (rb_loaded rb) eqn:Hl; simpl; repeat split;
        first [reflexivity | assumption | lia]. }
    assert (referenced (buffers mid) b) as (rb0 & Hb0 & Hr0).
    { unfold SetRef in Hmid. rewrite Forall_forall in Hmid. auto. }
    assert (rb0 = rb) as -> by congruence.
    assert (buffers s2 !! b = Some (presented rbA)) as Hfin
      by (rewrite Hb2; apply lookup_insert_eq).
    assert (kept_up (buffers mid) (buffers s2)) as Hk2.
    { intros b' rb' Hb' Hr'. destruct (decide (b' = b)) as [-> | Hne].
      - exists (presented rbA). assert (rb' = rb) as -> by congruence. auto.
      - rewrite Hb2, lookup_insert_ne by congruence. eauto 10. }
    assert (kept_up (buffers st) (buffers s2)) as Hk02
      by (eapply kept_up_trans; [apply kept_kept_up; exact Hk | exact Hk2]).
    split; [| split; [exact Hk02 |]].
    + unfold SetRef. simpl. rewrite Hs2, Hs1.
      eapply Forall_impl; [exact Hmid |]. intros b'.
      apply referenced_kept_up. exact Hk2.
    + intros b0. rewrite uploads_app, Ht2, Ht1. simpl.
      rewrite !uploads_app, (uploads_quiet _ _ Hq1), uploads_present_events.
      simpl. destruct (rb_loaded rb) eqn:Hl; simpl; [left; lia |].
      destruct (Nat.eqb b b0) eqn:Hbb; [| left; lia].
      apply Nat.eqb_eq in Hbb. subst b0. right. split; [lia |].
      split; [| split].
      * exists (presented rbA). split; [exact Hfin | lia].
      * exists (presented rbA). auto.
      * intros [(rbs & Hbs & Hrs) (rbl & Hbl & Hll)].
        assert (rbl = rbs) as -> by congruence.
        destruct (Hk _ _ Hbs Hrs) as (rbm & Hbm & _ & _ & Hlm).
        assert (rbm = rb) as -> by congruence. congruence.
  - inversion E2; subst s2; clear E2.
    split; [| split; [rewrite Hbuf; apply kept_kept_up; exact Hk |]].
    + unfold SetRef. simpl. rewrite Hbuf, Hs1. exact Hmid.
    + intros b0. left. rewrite Ht1. simpl.
      rewrite !uploads_app, (uploads_quiet _ _ Hq1). simpl. lia.
Qed.
#[local] Hint Resolve RenderInternal_renders : follows.

Lemma RenderWindow_renders c r : follows renders (RenderWindow c r).
Proof. unfold RenderWindow. follows_prim renders_step. Qed.

Lemma RenderControl_renders c a r rs : follows renders (RenderControl c a r rs).
Proof. unfold RenderControl. follows_prim renders_step. Qed.

Lemma render_calls_render cs :
  Forall render_call cs -> follows renders (run_all cs).
Proof.
  induction 1 as [|c cs Hc _ IH]; simpl.
  - apply follows_ret. apply _.
  - apply follows_bind; [apply _ | | intros _; exact IH].
    destruct c; simpl in Hc; try contradiction; simpl.
    + apply RenderWindow_renders.
    + apply RenderControl_renders.
Qed.


Lemma check_SetRef_sound st : check_SetRef st = true -> SetRef st.
Proof.
  unfold check_SetRef, SetRef. intros Hc. apply Forall_forall. intros b Hb.
  rewrite forallb_forall in Hc. apply list_elem_of_In in Hb.
  specialize (Hc b Hb).
  destruct (buffers st !! b) as [rb|] eqn:Hl; [| discriminate].
  exists rb. split; [exact Hl |]. apply Z.leb_le. exact Hc.
Qed.

(** How RenderInternal ends: on no buffer, on a loaded buffer, on a buffer
    whose upload succeeds, on a buffer whose upload fails. *)
Lemma RenderInternal_dispatch r c a st st' :
  RenderInternal r c a st = Ok tt st' ->
  exists pre present,
    trace st' = trace st ++ pre ++ present ++ [EvRenderFrame (rnd_ptr r) c a]
    /\ forallb quiet pre = true
    /\ (present = []
        \/ exists b,
             loaded_in st' b
             /\ (present = [EvSetBuffer (rnd_ptr r) b; EvRelease b]
                 \/ present = [EvUploadTexture b true; EvSetLoaded b true;
                               EvSetBuffer (rnd_ptr r) b; EvRelease b]
                 \/ present = [EvUploadTexture b false; EvSetLoaded b true;
                               EvRelease b])).
Proof.
  intros E. rewrite RenderInternal_split in E.
  apply bind_Ok in E as ([] & s0 & E0 & E). rewrite emit_run in E0.
  inversion E0; subst s0; clear E0.
  apply bind_Ok in E as (rbuf & s1 & E1 & E).
  pose proof (RenderInternal_acquire_quiet _ _ _ _ E1) as (ev1 & Ht1 & Hq1).
  apply RenderInternal_acquire_Ok in E1 as (mid & _ & _ & _ & Hbuf).
  simpl in Ht1.
  apply bind_Ok in E as ([] & s2 & E2 & E). rewrite emit_run in E.
  inversion E; subst st'; clear E. simpl.
  exists (EvPreRender (rnd_ptr r) c :: ev1). destruct rbuf as [b|].
  - destruct Hbuf as (_ & rb & _ & Hb1).
    apply RenderInternal_present_Ok in E2 as (rb1 & Hl1 & _ & Hb2 & Ht2).
    exists (present_events (rnd_ptr r) b rb1).
    split; [rewrite Ht2, Ht1, <- !app_assoc; reflexivity |].
    split; [exact Hq1 |]. right. exists b. split.
    + exists (presented rb1). simpl. rewrite Hb2, lookup_insert_eq.
      split; [reflexivity |]. unfold presented. simpl.
      destruct (rb_loaded rb1) eqn:Hl; simpl; auto.
    + unfold present_events.
      destruct (rb_loaded rb1); simpl; [auto |].
      destruct (rb_upload rb1); simpl; auto.
  - inversion E2; subst s2; clear E2. exists [].
    split; [rewrite Ht1, <- !app_assoc; reflexivity |]. auto.
Qed.

(** C7. If the pools hand out unreferenced buffers and a reference is held
    on every buffer of the set, then over any sequence of RenderWindow and
    RenderControl calls UploadTexture is called at most once on any buffer,
    and never on a buffer that is referenced and already marked loaded.
    Every RenderInternal ends in one of four ways: no buffer; a loaded
    buffer, bound and released; an upload that succeeds, after which the
    buffer is marked loaded, bound and released; an upload that fails, after
    which the buffer is marked loaded all the same and released without
    being bound. *)
Theorem upload_attempted_once :
  (forall cs st st' b,
     Forall render_call cs -> SetRef st ->
     run_all cs st = Ok tt st' ->
     (uploads b (trace st') <= S (uploads b (trace st)))%nat
     /\ (referenced (buffers st) b -> loaded_in st b ->
         uploads b (trace st') = uploads b (trace st)))
  /\ (forall r c a st st',
        RenderInternal r c a st = Ok tt st' ->
        exists pre present,
          trace st' = trace st ++ pre ++ present ++ [EvRenderFrame (rnd_ptr r) c a]
          /\ forallb quiet pre = true
          /\ (present = []
              \/ exists b,
                   loaded_in st' b
                   /\ (present = [EvSetBuffer (rnd_ptr r) b; EvRelease b]
                       \/ present = [EvUploadTexture b true; EvSetLoaded b true;
                                     EvSetBuffer (rnd_ptr r) b; EvRelease b]
                       \/ present = [EvUploadTexture b false; EvSetLoaded b true;
                                     EvRelease b]))).
Proof.
  split.
  - intros cs st st' b Hcs Hset E.
    destruct (render_calls_render cs Hcs _ _ _ E Hset) as (_ & _ & Hu).
    destruct (Hu b) as [-> | (-> & _ & _ & Hn)].
    + split; [lia | reflexivity].
    + split; [lia |]. intros Hr Hl. exfalso. apply Hn. auto.
  - apply RenderInternal_dispatch.
Qed.

End Renders.

Module RenderSamples.
Import Sample.

(** Three presentation ticks on a manager that holds one frame. *)
Definition ticks : list Call :=
  [CallRenderWindow true 0; CallRenderControl false true no_rect
                              (Some {| HasVideoFilter := false; HasViewMode := false;
                                       HasRotation := false;
                                       GetSettings := {| VideoSettings := default_settings |};
                                       GetDimensions := no_rect |});
   CallRenderWindow true 0].

Definition rendered : State :=
  after (run_all (H := collaborators) ticks) BufferSetSamples.once.

(** A renderer on pool 1, whose uploads fail. *)
Definition renderer1 : CRPBaseRenderer :=
  {| rnd_ptr := 9; rnd_impl := 1; rnd_bufferPool := 1;
     rnd_scalingMethod := 1%Z; rnd_viewMode := 0%Z; rnd_rotation := 0 |}.

End RenderSamples.

Lemma upload_attempted_once_witness :
  (uploads 0 (trace RenderSamples.rendered)
   <= S (uploads 0 (trace BufferSetSamples.once)))%nat
  /\ uploads 0 (trace RenderSamples.rendered) = 1%nat
  /\ exists st',
       RenderInternal (H := Sample.collaborators) RenderSamples.renderer1 true 255
         BufferSetSamples.once = Ok tt st'
       /\ trace st' = trace BufferSetSamples.once
                      ++ [EvPreRender 9 true; EvAcquire 1;
                          EvUploadTexture 1 false; EvSetLoaded 1 true;
                          EvRelease 1; EvRenderFrame 9 true 255].
Proof.
  split; [| split].
  - apply (proj1 (@upload_attempted_once Sample.collaborators Sample_contract)
             RenderSamples.ticks BufferSetSamples.once RenderSamples.rendered 0%nat).
    + repeat constructor.
    + apply check_SetRef_sound. vm_compute. reflexivity.
    + vm_compute. reflexivity.
  - vm_compute. reflexivity.
  - eexists. split; vm_compute; reflexivity.
Defined.

(** ** Renderer resolution *)

(** What the process info and the renderers are assumed to do: a new
    renderer has an address of its own, is bound to the pool it was created
    for and is compatible with the settings it was created for; what its
    IsCompatible and Configure answer does not depend on its address or on
    the scaling method, view mode and rotation written to it. *)
Class RendererContract `{Collaborators} : Prop := {
  new_renderer_ptr_fresh : forall l, new_renderer_ptr l ∉ l;
  CreateRenderer_pool : forall p s r,
    CreateRenderer p s = Some r -> rnd_bufferPool r = p;
  CreateRenderer_compatible : forall p s r,
    CreateRenderer p s = Some r ->
    renderer_IsCompatible r (VideoSettings s) = true;
  IsCompatible_ptr : forall r ptr s,
    renderer_IsCompatible (rnd_with_ptr ptr r) s = renderer_IsCompatible r s;
  IsCompatible_settings : forall r sm vm rot s,
    renderer_IsCompatible (rnd_with_settings sm vm rot r) s
    = renderer_IsCompatible r s;
  Configure_ptr : forall r ptr f w h,
    renderer_Configure (rnd_with_ptr ptr r) f w h = renderer_Configure r f w h
}.

(** The test of the loop over m_renderers. *)
Definition matches `{Collaborators} (bufferPool : nat)
    (renderSettings : CRenderSettings) (it : CRPBaseRenderer) : bool :=
  bool_decide (rnd_bufferPool it = bufferPool)
  && renderer_IsCompatible it (VideoSettings renderSettings).

(** GetRenderer(pool, settings) as a function of the renderer set: the
    renderer returned and the set left. *)
Definition resolve_pool `{Collaborators} (bufferPool : nat)
    (renderSettings : CRenderSettings) (format : AVPixelFormat) (width height : N)
    (renderers : list CRPBaseRenderer) :
    option CRPBaseRenderer * list CRPBaseRenderer :=
  if negb (pool_IsCompatible bufferPool (VideoSettings renderSettings))
  then (None, renderers)
  else
    match find (matches bufferPool renderSettings) renderers with
    | Some it => (Some it, renderers)
    | None =>
        match CreateRenderer bufferPool renderSettings with
        | Some created =>
            let renderer :=
              rnd_with_ptr (new_renderer_ptr (map rnd_ptr renderers)) created in
            if renderer_Configure renderer format width height
            then (Some renderer, set_insert renderer renderers)
            else (None, renderers)
        | None => (None, renderers)
        end
    end.

Fixpoint resolve_pools `{Collaborators} (pools : list IRenderBufferPool)
    (renderSettings : CRenderSettings) (format : AVPixelFormat) (width height : N)
    (renderers : list CRPBaseRenderer) :
    option CRPBaseRenderer * list CRPBaseRenderer :=
  match pools with
  | [] => (None, renderers)
  | bufferPool :: pools' =>
      match resolve_pool (pool_ptr bufferPool) renderSettings format width height
              renderers with
      | (Some r, renderers') => (Some r, renderers')
      | (None, renderers') =>
          resolve_pools pools' renderSettings format width height renderers'
      end
  end.

(** Whether GetRenderer(pool, settings) gets by without a new renderer. *)
Definition no_creation `{Collaborators} (bufferPool : nat)
    (renderSettings : CRenderSettings) (format : AVPixelFormat) (width height : N)
    (renderers : list CRPBaseRenderer) : bool :=
  negb (pool_IsCompatible bufferPool (VideoSettings renderSettings))
  || match find (matches bufferPool renderSettings) renderers with
     | Some _ => true
     | None =>
         match CreateRenderer bufferPool renderSettings with
         | Some created =>
             negb (renderer_Configure
                     (rnd_with_ptr (new_renderer_ptr (map rnd_ptr renderers)) created)
                     format width height)
         | None => true
         end
     end.

(** Whether the loop over the pools gets by without a new renderer. *)
Fixpoint quiet_resolution `{Collaborators} (pools : list IRenderBufferPool)
    (renderSettings : CRenderSettings) (format : AVPixelFormat) (width height : N)
    (renderers : list CRPBaseRenderer) : bool :=
  match pools with
  | [] => true
  | bufferPool :: pools' =>
      no_creation (pool_ptr bufferPool) renderSettings format width height renderers
      && match (resolve_pool (pool_ptr bufferPool) renderSettings format width
                  height renderers).1 with
         | Some _ => true
         | None => quiet_resolution pools' renderSettings format width height renderers
         end
  end.

(** What GetRenderer reads besides the renderer set. *)
Definition resolution_inputs (st : State) :=
  (m_state st, m_format st, m_width st, m_height st, m_renderSettings st,
   bufferPools st).


Lemma Sample_new_ptr_above l a :
  a ∈ l -> (a < foldr (fun a acc => Nat.max (S a) acc) (S O) l)%nat.
Proof.
  induction l as [|x l IH]; intros Ha; [inversion Ha |].
  apply elem_of_cons in Ha as [<- | Ha]; simpl; [lia |].
  specialize (IH Ha). lia.
Qed.

Lemma Sample_renderers : RendererContract (H := Sample.collaborators).
Proof.
  split; simpl; try reflexivity.
  - intros l Hin. apply Sample_new_ptr_above in Hin. lia.
  - intros p s r [= <-]. reflexivity.
Qed.

Section Resolution.
Context `{RendererContract}.

Lemma find_map_same {A} (q : A -> bool) (g : A -> A) (l : list A) :
  (forall x, x ∈ l -> q (g x) = q x) ->
  find q (map g l) = g <$> find q l.
Proof.
  induction l as [|x l IH]; intros Hq; simpl; [reflexivity |].
  rewrite (Hq x) by left. destruct (q x); [reflexivity |].
  apply IH. intros y Hy. apply Hq. right. exact Hy.
Qed.

Lemma find_None_elem {A} (q : A -> bool) (l : list A) x :
  find q l = None -> x ∈ l -> q x = false.
Proof.
  intros Hf Hx. apply list_elem_of_In in Hx. exact (find_none q l Hf x Hx).
Qed.

Lemma find_Some_elem {A} (q : A -> bool) (l : list A) x :
  find q l = Some x -> x ∈ l /\ q x = true.
Proof.
  intros Hf. apply find_some in Hf as [Hx Hq]. apply list_elem_of_In in Hx. auto.
Qed.

Lemma set_insert_elem r l x :
  x ∈ set_insert r l -> x = r \/ x ∈ l.
Proof.
  induction l as [|y l IH]; simpl.
  - intros Hx. apply list_elem_of_singleton in Hx. auto.
  - destruct (Nat.ltb _ _).
    + intros Hx. apply elem_of_cons in Hx as [-> | Hx]; auto.
    + destruct (Nat.eqb _ _); [auto |].
      intros Hx. apply elem_of_cons in Hx as [-> | Hx]; [right; left |].
      destruct (IH Hx) as [-> | Hl]; [auto | right; right; exact Hl].
Qed.

Lemma set_insert_new r l :
  rnd_ptr r ∉ map rnd_ptr l -> r ∈ set_insert r l.
Proof.
  induction l as [|y l IH]; simpl; intros Hn; [left |].
  destruct (Nat.ltb _ _); [left |].
  destruct (Nat.eqb _ _) eqn:He.
  - exfalso. apply Hn. apply Nat.eqb_eq in He. rewrite He. left.
  - right. apply IH. intros Hin. apply Hn. right. exact Hin.
Qed.

Lemma set_insert_NoDup r l :
  rnd_ptr r ∉ map rnd_ptr l -> NoDup (map rnd_ptr l) ->
  NoDup (map rnd_ptr (set_insert r l)).
Proof.
  induction l as [|y l IH]; simpl; intros Hn Hnd.
  - apply NoDup_singleton.
  - destruct (Nat.ltb _ _); simpl; [apply NoDup_cons; auto |].
    destruct (Nat.eqb _ _); simpl; [exact Hnd |].
    apply NoDup_cons in Hnd as [Hy Hnd]. apply NoDup_cons. split.
    + intros Hin. apply list_elem_of_fmap in Hin as (x & Hp & Hx).
      apply set_insert_elem in Hx as [-> | Hx].
      * apply Hn. rewrite <- Hp. left.
      * apply Hy. rewrite Hp. apply list_elem_of_fmap. eauto.
    + apply IH; [| exact Hnd]. intros Hin. apply Hn. right. exact Hin.
Qed.

Lemma find_set_insert_other q r l :
  q r = false -> find q (set_insert r l) = find q l.
Proof.
  intros Hq. induction l as [|y l IH]; simpl; [rewrite Hq; reflexivity |].
  destruct (Nat.ltb _ _); simpl; [rewrite Hq; reflexivity |].
  destruct (Nat.eqb _ _); simpl; [reflexivity |].
  destruct (q y); [reflexivity | exact IH].
Qed.

Lemma find_set_insert_new q r l :
  find q l = None -> q r = true -> rnd_ptr r ∉ map rnd_ptr l ->
  find q (set_insert r l) = Some r.
Proof.
  intros Hf Hq. induction l as [|y l IH]; simpl; intros Hn;
    [rewrite Hq; reflexivity |].
  simpl in Hf. destruct (q y) eqn:Hy; [discriminate |].
  destruct (Nat.ltb _ _); simpl; [rewrite Hq; reflexivity |].
  destruct (Nat.eqb _ _) eqn:He; simpl.
  - exfalso. apply Hn. apply Nat.eqb_eq in He. rewrite He. left.
  - rewrite Hy. apply IH; [exact Hf |]. intros Hin. apply Hn. right. exact Hin.
Qed.

Lemma NoDup_ptr_eq l x y :
  NoDup (map rnd_ptr l) -> x ∈ l -> y ∈ l -> rnd_ptr x = rnd_ptr y -> x = y.
Proof.
  induction l as [|z l IH]; simpl; intros Hnd Hx Hy He; [inversion Hx |].
  apply NoDup_cons in Hnd as [Hz Hnd].
  apply elem_of_cons in Hx as [-> | Hx]; apply elem_of_cons in Hy as [-> | Hy].
  - reflexivity.
  - exfalso. apply Hz. rewrite He. apply list_elem_of_fmap. eauto.
  - exfalso. apply Hz. rewrite <- He. apply list_elem_of_fmap. eauto.
  - auto.
Qed.

Lemma update_renderer_ptrs r l :
  map rnd_ptr (update_renderer r l) = map rnd_ptr l.
Proof.
  unfold update_renderer. rewrite map_map. apply map_ext. intros x.
  destruct (Nat.eqb _ _) eqn:He; [| reflexivity].
  apply Nat.eqb_eq in He. congruence.
Qed.


Lemma resolve_pool_None p s f w h l l' :
  resolve_pool p s f w h l = (None, l') -> l' = l.
Proof.
  unfold resolve_pool. destruct (negb _); [congruence |].
  destruct (find _ _); [congruence |].
  destruct (CreateRenderer _ _); [| congruence].
  destruct (renderer_Configure _ _ _ _); congruence.
Qed.

(** What is known of a renderer a resolution returned. *)
Definition resolved (s : CRenderSettings) (f : AVPixelFormat) (w h : N)
    (l : list CRPBaseRenderer) (r : CRPBaseRenderer) (l' : list CRPBaseRenderer) :
    Prop :=
  r ∈ l' /\ NoDup (map rnd_ptr l')
  /\ pool_IsCompatible (rnd_bufferPool r) (VideoSettings s) = true
  /\ matches (rnd_bufferPool r) s r = true
  /\ ((l' = l /\ r ∈ l)
      \/ (l' = set_insert r l /\ (rnd_ptr r ∉ map rnd_ptr l)
          /\ resolve_pool (rnd_bufferPool r) s f w h l = (Some r, l'))).

Lemma resolve_pool_Some p s f w h l r l' :
  NoDup (map rnd_ptr l) ->
  resolve_pool p s f w h l = (Some r, l') ->
  rnd_bufferPool r = p /\ find (matches p s) l' = Some r
  /\ resolved s f w h l r l'.
Proof.
  intros Hnd E. pose proof E as E0. unfold resolve_pool in E.
  destruct (pool_IsCompatible p (VideoSettings s)) eqn:Hp; simpl in E;
    [| congruence].
  destruct (find _ _) as [it|] eqn:Hf.
  - injection E as <- <-. pose proof Hf as Hf0.
    apply find_Some_elem in Hf as [Hin Hm].
    pose proof Hm as Hm'. unfold matches in Hm'.
    apply andb_true_iff in Hm' as [Hpool _]. apply bool_decide_eq_true in Hpool.
    split; [exact Hpool |]. split; [exact Hf0 |].
    unfold resolved. rewrite Hpool. auto 10.
  - destruct (CreateRenderer p s) as [c|] eqn:Hc; [| congruence].
    destruct (renderer_Configure _ _ _ _) eqn:Hcfg; [| congruence].
    injection E as <- <-.
    set (r := rnd_with_ptr (new_renderer_ptr (map rnd_ptr l)) c) in *.
    assert (rnd_bufferPool r = p) as Hpool
      by (simpl; eapply CreateRenderer_pool; exact Hc).
    assert (rnd_ptr r ∉ map rnd_ptr l) as Hfresh
      by (simpl; apply new_renderer_ptr_fresh).
    assert (matches p s r = true) as Hm.
    { unfold matches. rewrite bool_decide_eq_true_2 by exact Hpool. simpl.
      unfold r. rewrite IsCompatible_ptr.
      eapply CreateRenderer_compatible. exact Hc. }
    split; [exact Hpool |].
    split; [apply find_set_insert_new; assumption |].
    unfold resolved. rewrite Hpool.
    split; [apply set_insert_new; exact Hfresh |].
    split; [apply set_insert_NoDup; assumption |].
    split; [exact Hp |]. split; [exact Hm |]. right. auto.
Qed.


(** After the settings of the resolution were written to the renderer it
    returned, the same resolution returns that renderer, creates nothing and
    leaves the set as it is. *)
Lemma resolve_pools_again ps s f w h l r l' :
  NoDup (map rnd_ptr l) ->
  resolve_pools ps s f w h l = (Some r, l') ->
  forall sm vm rot,
    let r' := rnd_with_settings sm vm rot r in
    resolved s f w h l r l'
    /\ resolve_pools ps s f w h (update_renderer r' l')
       = (Some r', update_renderer r' l')
    /\ quiet_resolution ps s f w h (update_renderer r' l') = true.
Proof.
  intros Hnd E sm vm rot r'.
  assert (forall l1, r ∈ l1 -> NoDup (map rnd_ptr l1) ->
            forall q, find (matches q s) (update_renderer r' l1)
                      = (fun x => if Nat.eqb (rnd_ptr x) (rnd_ptr r') then r' else x)
                        <$> (find (matches q s) l1)) as Hfind.
  { intros l1 Hr Hnd1 q. apply find_map_same. intros x Hx.
    destruct (Nat.eqb (rnd_ptr x) (rnd_ptr r')) eqn:He; [| reflexivity].
    apply Nat.eqb_eq in He.
    assert (x = r) as -> by (eapply NoDup_ptr_eq; eauto).
    unfold matches, r'. simpl. rewrite IsCompatible_settings. reflexivity. }
  revert l Hnd E. induction ps as [|p ps IH]; intros l Hnd E; simpl in E;
    [congruence |].
  destruct (resolve_pool (pool_ptr p) s f w h l) as [[r1|] l1] eqn:E1.
  - injection E as -> ->.
    destruct (resolve_pool_Some _ _ _ _ _ _ _ _ Hnd E1) as (Hpool & Hfound & Hres).
    split; [exact Hres |].
    destruct Hres as (Hin & Hnd' & Hpc & Hm & _). simpl.
    unfold no_creation, resolve_pool. rewrite <- Hpool, Hpc. simpl.
    rewrite (Hfind _ Hin Hnd'). rewrite <- Hpool in Hfound. rewrite Hfound.
    simpl. rewrite Nat.eqb_refl. auto.
  - apply resolve_pool_None in E1 as Hl1. subst l1.
    destruct (IH _ Hnd E) as (Hres & Hagain & Hquiet). split; [exact Hres |].
    simpl.
    assert (resolve_pool (pool_ptr p) s f w h (update_renderer r' l')
            = (None, update_renderer r' l')
            /\ no_creation (pool_ptr p) s f w h (update_renderer r' l') = true)
      as [-> ->]; [| simpl; auto].
    destruct Hres as (Hin & Hnd' & Hpc & Hm & Hfrom).
    unfold no_creation. unfold resolve_pool in E1 |- *.
    destruct (pool_IsCompatible (pool_ptr p) (VideoSettings s)) eqn:Hpp; simpl in *;
      [| auto].
    destruct (find (matches (pool_ptr p) s) l) as [it|] eqn:Hf; [congruence |].
    rewrite (Hfind _ Hin Hnd').
    assert (find (matches (pool_ptr p) s) l' = None) as ->.
    { destruct Hfrom as [[-> _] | (-> & Hfresh & Hres)]; [exact Hf |].
      rewrite find_set_insert_other; [exact Hf |].
      destruct (matches (pool_ptr p) s r) eqn:Hmp; [| reflexivity].
      exfalso. unfold matches in Hmp. apply andb_true_iff in Hmp as [Hpool _].
      apply bool_decide_eq_true in Hpool. rewrite Hpool in Hres.
      unfold resolve_pool in Hres. rewrite Hpp, Hf in Hres. simpl in Hres.
      destruct (CreateRenderer _ _); [| congruence].
      destruct (renderer_Configure _ _ _ _); congruence. }
    simpl. destruct (CreateRenderer (pool_ptr p) s) as [c|]; [| auto].
    rewrite Configure_ptr. rewrite Configure_ptr in E1.
    destruct (renderer_Configure c f w h); [congruence | auto].
Qed.


(** *** The member functions against the functions of the set *)

Lemma resolution_inputs_eq st' st :
  resolution_inputs st' = resolution_inputs st ->
  m_state st' = m_state st /\ m_format st' = m_format st
  /\ m_width st' = m_width st /\ m_height st' = m_height st
  /\ m_renderSettings st' = m_renderSettings st
  /\ bufferPools st' = bufferPools st.
Proof. unfold resolution_inputs. intros E. inversion E. auto 10. Qed.

Lemma CreateRenderBuffer_keeps_resolution q :
  keeps (fun st => (resolution_inputs st, m_renderers st)) (CreateRenderBuffer q).
Proof. apply CreateRenderBuffer_keeps; ign_auto. Qed.

Lemma GetRenderer_pool_pure p s st res st' :
  GetRenderer_pool p s st = Ok res st' ->
  resolution_inputs st' = resolution_inputs st
  /\ (res, m_renderers st')
     = resolve_pool p s (m_format st) (m_width st) (m_height st) (m_renderers st).
Proof.
  intros E. split.
  - revert E. apply GetRenderer_pool_keeps; try ign_auto.
    intros q. apply CreateRenderBuffer_keeps; ign_auto.
  - unfold GetRenderer_pool in E. unfold resolve_pool.
    destruct (negb _); [minv; reflexivity |].
    erewrite bind_Ok_l in E by reflexivity.
    change (find _ (m_renderers st)) with (find (matches p s) (m_renderers st)) in E.
    destruct (find _ _); [minv; reflexivity |].
    apply bind_Ok in E as ([] & s1 & E1 & E). rewrite emit_run in E1.
    inversion E1; subst s1; clear E1.
    destruct (CreateRenderer p s) as [c|]; [| minv; reflexivity].
    apply bind_Ok in E as ([] & s1 & E1 & E). rewrite emit_run in E1.
    inversion E1; subst s1; clear E1.
    destruct (renderer_Configure _ _ _ _); [| minv; reflexivity].
    apply bind_Ok in E as ([] & s1 & E1 & E).
    pose proof (CreateRenderBuffer_keeps_resolution _ _ _ _ E1) as Hk.
    apply (f_equal snd) in Hk. simpl in Hk. minv. simpl. rewrite Hk. reflexivity.
Qed.

Lemma GetRenderer_pools_pure ps s st res st' :
  GetRenderer_pools ps s st = Ok res st' ->
  resolution_inputs st' = resolution_inputs st
  /\ (res, m_renderers st')
     = resolve_pools ps s (m_format st) (m_width st) (m_height st) (m_renderers st).
Proof.
  revert st. induction ps as [|p ps IH]; intros st E; simpl in E.
  - minv. auto.
  - apply bind_Ok in E as (r & s1 & E1 & E).
    apply GetRenderer_pool_pure in E1 as (Hi & Hr). simpl. rewrite <- Hr.
    destruct r as [r|]; [minv; auto |].
    destruct (IH _ E) as (Hi' & Hr').
    destruct (resolution_inputs_eq _ _ Hi) as (_ & Hf & Hw & Hh & _).
    split; [congruence |]. rewrite Hr', Hf, Hw, Hh. reflexivity.
Qed.

(** The renderer with the effective settings written to it. *)
Definition with_effective (eff : CRenderVideoSettings) (r : CRPBaseRenderer) :
    CRPBaseRenderer :=
  rnd_with_settings (vs_scalingMethod eff) (vs_renderViewMode eff)
    (vs_renderRotation eff) r.

Lemma GetRenderer_pure rs st res st' :
  GetRenderer rs st = Ok res st' ->
  resolution_inputs st' = resolution_inputs st
  /\ if is_state (m_state st) UNCONFIGURED
     then res = None /\ m_renderers st' = m_renderers st
     else
       let eff := GetEffectiveSettings rs st in
       match resolve_pools (bufferPools st) {| VideoSettings := eff |}
               (m_format st) (m_width st) (m_height st) (m_renderers st) with
       | (Some r, l') =>
           res = Some (with_effective eff r)
           /\ m_renderers st' = update_renderer (with_effective eff r) l'
       | (None, l') => res = None /\ m_renderers st' = l'
       end.
Proof.
  intros E. unfold GetRenderer in E. erewrite bind_Ok_l in E by reflexivity.
  destruct (is_state (m_state st) UNCONFIGURED); [minv; auto |].
  apply bind_Ok in E as (r & s1 & E1 & E).
  apply GetRenderer_pools_pure in E1 as (Hi & Hr). simpl. rewrite <- Hr.
  destruct r as [r|]; minv; auto.
Qed.










End Resolution.

Module WidthSamples.
Import Sample.

(** As [Sample.collaborators], but a renderer of pool 0 cannot be configured
    for frames less than 8 pixels wide. *)
Definition collaborators : Collaborators :=
  {| TranslateWidthToBytes := @TranslateWidthToBytes Sample.collaborators;
     sws_getCachedContext := @sws_getCachedContext Sample.collaborators;
     sws_scale := @sws_scale Sample.collaborators;
     pool_IsCompatible := @pool_IsCompatible Sample.collaborators;
     pool_GetBuffer := @pool_GetBuffer Sample.collaborators;
     FlushPools := @FlushPools Sample.collaborators;
     CreateRenderer := @CreateRenderer Sample.collaborators;
     new_renderer_ptr := @new_renderer_ptr Sample.collaborators;
     HasScalingMethod := @HasScalingMethod Sample.collaborators;
     GetDefaultScalingMethod := @GetDefaultScalingMethod Sample.collaborators;
     renderer_Configure r f w h :=
       negb (Nat.eqb (rnd_bufferPool r) 0) || (8 <=? w);
     renderer_IsCompatible := @renderer_IsCompatible Sample.collaborators;
     renderer_Supports := @renderer_Supports Sample.collaborators;
     CRenderVideoSettings_default :=
       @CRenderVideoSettings_default Sample.collaborators;
     SetVideoFilter := @SetVideoFilter Sample.collaborators;
     MergeAlpha := @MergeAlpha Sample.collaborators;
     rect_Intersect := @rect_Intersect Sample.collaborators |}.

(** Configured for 4x2 frames, after a first GetRenderer call. *)
Definition first : State :=
  after (GetRenderer (H := collaborators) None) configured.




End WidthSamples.




(** ** Tearing down, flushing and committing *)

(** The buffer heap after one Release on each buffer of a list. *)
Fixpoint release_all (l : list nat) (h : gmap nat IRenderBuffer) :
    gmap nat IRenderBuffer :=
  match l with
  | [] => h
  | b :: l' =>
      release_all l'
        (match h !! b with
         | Some rb => <[b := rb_with_refs (rb_refs rb - 1) rb]> h
         | None => h
         end)
  end.

(** Every pointer of the render buffer set points to a buffer. *)
Definition live_set (st : State) : Prop :=
  Forall (fun b => is_Some (buffers st !! b)) (m_renderBuffers st).

Definition check_live_set (st : State) : bool :=
  forallb (fun b => bool_decide (is_Some (buffers st !! b))) (m_renderBuffers st).

(** The formats whose scaler context Deinitialize frees, in its order. *)
Definition freed_formats (scalers : gmap Z (option SwsContext)) : list Z :=
  omap (fun pixelScaler : Z * option SwsContext =>
          match pixelScaler.2 with
          | Some _ => Some pixelScaler.1
          | None => None
          end)
       (merge_sort scaler_le (map_to_list scalers)).

Section Teardown.
Context `{Collaborators}.

Lemma check_live_set_sound st : check_live_set st = true -> live_set st.
Proof.
  unfold check_live_set, live_set. intros Hc. apply Forall_forall. intros b Hb.
  rewrite forallb_forall in Hc. apply list_elem_of_In in Hb.
  exact (bool_decide_eq_true_1 _ (Hc b Hb)).
Qed.

Lemma Release_run b rb st :
  buffers st !! b = Some rb ->
  Release b st =
  Ok tt (set_trace (trace st ++ [EvRelease b])
           (set_buffers (<[b := rb_with_refs (rb_refs rb - 1) rb]> (buffers st)) st)).
Proof.
  intros Hb. unfold Release. erewrite bind_Ok_l by (apply deref_run; exact Hb).
  reflexivity.
Qed.

Lemma forM_Release_run l st :
  Forall (fun b => is_Some (buffers st !! b)) l ->
  forM_ l Release st =
  Ok tt (set_trace (trace st ++ map EvRelease l)
           (set_buffers (release_all l (buffers st)) st)).
Proof.
  revert st. induction l as [|b l IH]; intros st Hl; simpl.
  - rewrite app_nil_r. destruct st; reflexivity.
  - apply Forall_cons in Hl as [[rb Hb] Hl].
    erewrite bind_Ok_l by (apply Release_run; exact Hb).
    rewrite IH.
    + simpl. rewrite Hb, <- app_assoc. reflexivity.
    + simpl. eapply Forall_impl; [exact Hl |]. intros b' Hb'. simpl in Hb'.
      apply lookup_insert_is_Some'. auto.
Qed.

Lemma release_all_other l h b : b ∉ l -> release_all l h !! b = h !! b.
Proof.
  revert h. induction l as [|x l IH]; intros h Hb; simpl; [reflexivity |].
  apply not_elem_of_cons in Hb as [Hx Hb]. rewrite IH by exact Hb.
  destruct (h !! x); [| reflexivity]. apply lookup_insert_ne. congruence.
Qed.

(** A buffer that is once in the list loses one reference and nothing else. *)
Lemma release_all_once l h b rb :
  NoDup l -> b ∈ l -> h !! b = Some rb ->
  release_all l h !! b = Some (rb_with_refs (rb_refs rb - 1) rb).
Proof.
  revert h. induction l as [|x l IH]; intros h Hnd Hb Hl; simpl;
    [inversion Hb |].
  apply NoDup_cons in Hnd as [Hx Hnd].
  apply elem_of_cons in Hb as [<- | Hb].
  - rewrite release_all_other by exact Hx. rewrite Hl. apply lookup_insert_eq.
  - apply IH; [exact Hnd | exact Hb |].
    destruct (h !! x); [| exact Hl].
    rewrite lookup_insert_ne; [exact Hl |]. intros ->. contradiction.
Qed.

(** *** Deinitialize *)

Lemma forM_free l st :
  forM_ l (fun pixelScaler : Z * option SwsContext =>
             match pixelScaler.2 with
             | Some _ => emit (EvSwsFreeContext pixelScaler.1)
             | None => mret tt
             end) st =
  Ok tt (set_trace
           (trace st
            ++ map EvSwsFreeContext
                 (omap (fun pixelScaler : Z * option SwsContext =>
                          match pixelScaler.2 with
                          | Some _ => Some pixelScaler.1
                          | None => None
                          end) l)) st).
Proof.
  revert st. induction l as [|[k [ctx|]] l IH]; intros st; simpl.
  - rewrite app_nil_r. destruct st; reflexivity.
  - erewrite bind_Ok_l by apply emit_run. rewrite IH. simpl.
    rewrite <- app_assoc. reflexivity.
  - erewrite bind_Ok_l by reflexivity. apply IH.
Qed.

Lemma omap_keys_spec (l : list (Z * option SwsContext)) :
  NoDup l.*1 ->
  let keys := omap (fun pixelScaler : Z * option SwsContext =>
                      match pixelScaler.2 with
                      | Some _ => Some pixelScaler.1
                      | None => None
                      end) l in
  NoDup keys
  /\ (forall k, k ∈ keys <-> exists ctx, (k, Some ctx) ∈ l)
  /\ (forall k, k ∈ keys -> k ∈ l.*1).
Proof.
  induction l as [|[k c] l IH]; intros Hnd; simpl in *.
  - split; [constructor |]. split.
    + intros k. split; [intros Hk; inversion Hk |].
      intros (ctx & Hk). inversion Hk.
    + intros k Hk. inversion Hk.
  - apply NoDup_cons in Hnd as [Hk Hnd]. destruct (IH Hnd) as (IH1 & IH2 & IH3).
    destruct c as [ctx|]; simpl.
    + split; [apply NoDup_cons; split; [intros Hin; apply Hk, IH3, Hin | exact IH1] |].
      split.
      * intros k'. rewrite elem_of_cons, IH2. split.
        -- intros [-> | (c' & Hc')]; [exists ctx; left | exists c'; right; exact Hc'].
        -- intros (c' & Hc'). apply elem_of_cons in Hc' as [Hc' | Hc'].
           ++ left. congruence.
           ++ right. eauto.
      * intros k' Hk'. apply elem_of_cons in Hk' as [-> | Hk'];
          [left | right; apply IH3, Hk'].
    + split; [exact IH1 |]. split.
      * intros k'. rewrite IH2. split.
        -- intros (c' & Hc'). exists c'. right. exact Hc'.
        -- intros (c' & Hc'). apply elem_of_cons in Hc' as [Hc' | Hc'].
           ++ discriminate.
           ++ eauto.
      * intros k' Hk'. right. apply IH3, Hk'.
Qed.

Lemma omap_keys_sorted (l : list (Z * option SwsContext)) :
  StronglySorted scaler_le l ->
  StronglySorted Z.le
    (omap (fun pixelScaler : Z * option SwsContext =>
             match pixelScaler.2 with
             | Some _ => Some pixelScaler.1
             | None => None
             end) l).
Proof.
  induction 1 as [|[k c] l Hs IH Hall]; simpl; [constructor |].
  destruct c as [ctx|]; simpl; [| exact IH].
  constructor; [exact IH |].
  apply Forall_forall. intros k' Hk'.
  apply list_elem_of_omap in Hk' as ([k2 c2] & Hin & Hsome).
  rewrite Forall_forall in Hall. specialize (Hall _ Hin).
  unfold scaler_le in Hall. simpl in *. destruct c2; [| discriminate].
  injection Hsome as <-. exact Hall.
Qed.

#[local] Instance scaler_le_total : Total scaler_le.
Proof. intros a b. unfold scaler_le. lia. Qed.

#[local] Instance scaler_le_trans : Transitive scaler_le.
Proof. intros a b c. unfold scaler_le. lia. Qed.

Lemma freed_formats_spec scalers :
  NoDup (freed_formats scalers)
  /\ StronglySorted Z.le (freed_formats scalers)
  /\ forall format,
       format ∈ freed_formats scalers
       <-> exists ctx, scalers !! format = Some (Some ctx).
Proof.
  unfold freed_formats.
  pose proof (merge_sort_Permutation scaler_le (map_to_list scalers)) as Hp.
  assert (NoDup (merge_sort scaler_le (map_to_list scalers)).*1) as Hnd.
  { rewrite Hp. apply NoDup_fst_map_to_list. }
  destruct (omap_keys_spec _ Hnd) as (H1 & H2 & _).
  split; [exact H1 |]. split.
  - apply omap_keys_sorted. apply StronglySorted_merge_sort; apply _.
  - intros format. rewrite H2. split; intros (ctx & Hc); exists ctx.
    + rewrite Hp in Hc. apply elem_of_map_to_list in Hc. exact Hc.
    + rewrite Hp. apply elem_of_map_to_list. exact Hc.
Qed.

(** X1. Deinitialize, on a manager whose render buffer set holds pointers
    to buffers, returns and leaves the state UNCONFIGURED with no scaler
    context, no render buffer and no renderer.  It calls sws_freeContext
    once for every format whose context is not null, in ascending order of
    the format, and for no other; then Release once on every buffer of the
    set, in the set's order.  A buffer outside the set is left as it was and
    a buffer that is once in the set loses exactly one reference.  The
    pending flush, the cached frame, the format, the dimensions and the
    speed are left as they were, and no render feature is supported
    afterwards. *)
Theorem Deinitialize_tears_down :
  forall st,
    live_set st ->
    exists st',
      Deinitialize st = Ok tt st'
      /\ m_state st' = UNCONFIGURED /\ m_scalers st' = ∅
      /\ m_renderBuffers st' = [] /\ m_renderers st' = []
      /\ trace st' = trace st
                     ++ map EvSwsFreeContext (freed_formats (m_scalers st))
                     ++ map EvRelease (m_renderBuffers st)
                     ++ [EvStoreRenderBuffers []]
      /\ NoDup (freed_formats (m_scalers st))
      /\ StronglySorted Z.le (freed_formats (m_scalers st))
      /\ (forall format,
            format ∈ freed_formats (m_scalers st)
            <-> exists ctx, m_scalers st !! format = Some (Some ctx))
      /\ (forall b, b ∉ m_renderBuffers st -> buffers st' !! b = buffers st !! b)
      /\ (NoDup (m_renderBuffers st) ->
          forall b rb, b ∈ m_renderBuffers st -> buffers st !! b = Some rb ->
            buffers st' !! b = Some (rb_with_refs (rb_refs rb - 1) rb))
      /\ (m_bFlush st', m_bHasCachedFrame st', m_cachedFrame st', m_format st',
          m_width st', m_height st', m_maxWidth st', m_maxHeight st', m_speed st')
         = (m_bFlush st, m_bHasCachedFrame st, m_cachedFrame st, m_format st,
            m_width st, m_height st, m_maxWidth st, m_maxHeight st, m_speed st)
      /\ forall feature, SupportsRenderFeature feature st' = false.
Proof.
  intros st Hlive.
  destruct (freed_formats_spec (m_scalers st)) as (Hnd & Hsorted & Hfreed).
  eexists. split.
  - unfold Deinitialize. erewrite bind_Ok_l by reflexivity.
    erewrite bind_Ok_l by apply forM_free.
    erewrite bind_Ok_l by reflexivity. erewrite bind_Ok_l by reflexivity.
    erewrite bind_Ok_l by (apply forM_Release_run; exact Hlive).
    reflexivity.
  - simpl. rewrite <- !app_assoc.
    repeat split; try reflexivity; try assumption; try apply Hfreed.
    + intros b Hb. apply release_all_other. exact Hb.
    + intros Hl b rb Hb Hrb. apply release_all_once; assumption.
Qed.

End Teardown.

(** *** CheckFlush and FrameMove *)

(** The state a pending flush leaves. *)
Definition flushed `{Collaborators} (st : State) : State :=
  set_m_bFlush false
    (set_trace
       (trace st ++ map EvRelease (m_renderBuffers st)
        ++ [EvStoreRenderBuffers []]
        ++ map (fun renderer => EvRendererFlush (rnd_ptr renderer)) (m_renderers st)
        ++ [EvFlushPools])
       (set_buffers (FlushPools (release_all (m_renderBuffers st) (buffers st)))
          (set_m_bHasCachedFrame false
             (set_m_cachedFrame [] (set_m_renderBuffers [] st))))).

(** The state FrameMove leaves after CheckFlush left [st]. *)
Definition moved (st : State) : State :=
  let st1 :=
    if is_state (m_state st) CONFIGURING then
      set_m_state CONFIGURED
        (set_trace (trace st ++ [EvPostMsgSwitchToFullscreen]) st)
    else if is_state (m_state st) RECONFIGURING then
      set_m_state CONFIGURED
        (set_trace
           (trace st
            ++ map (fun renderer =>
                      EvRendererConfigure (rnd_ptr renderer)
                        (m_format st) (m_width st) (m_height st))
                 (m_renderers st)) st)
    else st in
  if is_state (m_state st1) CONFIGURED then
    set_trace
      (trace st1
       ++ map (fun renderer => EvRendererFrameMove (rnd_ptr renderer))
            (m_renderers st1)) st1
  else st1.

Section Flushing.
Context `{Collaborators}.

Lemma CheckFlush_run st :
  m_bFlush st = true -> live_set st -> CheckFlush st = Ok tt (flushed st).
Proof.
  intros Hf Hlive. unfold CheckFlush. erewrite bind_Ok_l by reflexivity.
  rewrite Hf.
  erewrite bind_Ok_l by (apply forM_Release_run; exact Hlive).
  unfold store_renderBuffers.
  erewrite bind_Ok_l by (erewrite bind_Ok_l by reflexivity; apply emit_run).
  erewrite bind_Ok_l by reflexivity. erewrite bind_Ok_l by reflexivity.
  erewrite bind_Ok_l by apply forM_emit.
  erewrite bind_Ok_l by reflexivity.
  erewrite bind_Ok_l by apply emit_run.
  unfold flushed, modify. simpl. rewrite <- !app_assoc. reflexivity.
Qed.

Lemma FrameMove_run st st1 :
  CheckFlush st = Ok tt st1 -> FrameMove st = Ok tt (moved st1).
Proof.
  intros E. unfold FrameMove, moved. erewrite bind_Ok_l by exact E.
  erewrite bind_Ok_l by reflexivity.
  destruct (is_state (m_state st1) CONFIGURING) eqn:H1.
  - erewrite bind_Ok_l
      by (erewrite bind_Ok_l by apply emit_run; reflexivity).
    erewrite bind_Ok_l by reflexivity. simpl. apply forM_emit.
  - destruct (is_state (m_state st1) RECONFIGURING) eqn:H2.
    + erewrite bind_Ok_l
        by (erewrite bind_Ok_l by apply forM_emit; reflexivity).
      erewrite bind_Ok_l by reflexivity. simpl. apply forM_emit.
    + erewrite bind_Ok_l by reflexivity. erewrite bind_Ok_l by reflexivity.
      destruct (is_state (m_state st1) CONFIGURED); simpl;
        [apply forM_emit | reflexivity].
Qed.

Lemma moved_state st :
  m_state (moved st)
  = if is_state (m_state st) UNCONFIGURED then UNCONFIGURED else CONFIGURED.
Proof.
  unfold moved, is_state.
  repeat (case_bool_decide; simpl; try congruence).
  destruct (m_state st); congruence.
Qed.

(** FrameMove writes the state of the state machine and the trace. *)
Lemma moved_frame {T} (f : State -> T) st :
  ign f set_trace -> ign f set_m_state -> f (moved st) = f st.
Proof.
  intros Ht Hs. unfold moved.
  destruct (is_state (m_state st) CONFIGURING);
    [| destruct (is_state (m_state st) RECONFIGURING)];
    match goal with
    | |- context [if ?b then _ else _] => destruct b
    end; rewrite ?Ht, ?Hs, ?Ht; reflexivity.
Qed.

End Flushing.

Section Lifecycle.
Context `{Collaborators}.

Lemma moved_trace st :
  exists evs,
    trace (moved st)
    = trace st ++ evs
      ++ (if is_state (m_state st) UNCONFIGURED then []
          else map (fun renderer => EvRendererFrameMove (rnd_ptr renderer))
                 (m_renderers st)).
Proof.
  unfold moved. destruct (m_state st) eqn:Hs;
    rewrite ?is_state_true, ?(is_state_false _ _ ltac:(discriminate)); simpl;
    rewrite ?Hs, ?is_state_true, ?(is_state_false _ _ ltac:(discriminate)); simpl.
  - exists []. simpl. rewrite app_nil_r. reflexivity.
  - exists [EvPostMsgSwitchToFullscreen]. rewrite <- app_assoc. reflexivity.
  - eexists. rewrite <- app_assoc. reflexivity.
  - exists []. reflexivity.
Qed.

(** X2. CheckFlush with a flush pending, on a manager whose render buffer set
    holds pointers to buffers, returns; it releases every buffer of the set
    once, in the set's order, empties the set, drops the cached frame,
    calls Flush on every renderer, flushes the pools and clears the pending
    flush, in this order.  A buffer outside the set reaches the pools'
    flush as it was and a buffer that is once in the set with one reference
    less.  The state of the state machine, the renderers, the format, the
    dimensions, the scaler contexts and the speed are left as they were,
    and a second CheckFlush does nothing. *)
Theorem CheckFlush_flushes :
  forall st,
    m_bFlush st = true -> live_set st ->
    exists st',
      CheckFlush st = Ok tt st'
      /\ trace st' = trace st ++ map EvRelease (m_renderBuffers st)
                     ++ [EvStoreRenderBuffers []]
                     ++ map (fun renderer => EvRendererFlush (rnd_ptr renderer))
                          (m_renderers st)
                     ++ [EvFlushPools]
      /\ m_renderBuffers st' = []
      /\ m_bHasCachedFrame st' = false /\ m_cachedFrame st' = []
      /\ m_bFlush st' = false
      /\ (exists h,
            buffers st' = FlushPools h
            /\ (forall b, b ∉ m_renderBuffers st -> h !! b = buffers st !! b)
            /\ (NoDup (m_renderBuffers st) ->
                forall b rb, b ∈ m_renderBuffers st -> buffers st !! b = Some rb ->
                  h !! b = Some (rb_with_refs (rb_refs rb - 1) rb)))
      /\ (m_state st', m_renderers st', m_format st', m_width st', m_height st',
          m_scalers st', m_speed st')
         = (m_state st, m_renderers st, m_format st, m_width st, m_height st,
            m_scalers st, m_speed st)
      /\ CheckFlush st' = Ok tt st'.
Proof.
  intros st Hf Hlive. exists (flushed st).
  split; [apply CheckFlush_run; assumption |].
  do 5 (split; [reflexivity |]).
  split; [| split; [reflexivity | apply CheckFlush_idle; reflexivity]].
  exists (release_all (m_renderBuffers st) (buffers st)).
  split; [reflexivity |]. split.
  - intros b Hb. apply release_all_other. exact Hb.
  - intros Hnd b rb Hb Hrb. apply release_all_once; assumption.
Qed.

(** X3. FrameMove returns whenever a pending flush finds pointers to buffers
    in the render buffer set.  It leaves no flush pending and the state
    CONFIGURED, unless the state was UNCONFIGURED, which it stays.  It keeps
    the renderers, the format and the dimensions; without a pending flush it
    also keeps the render buffer set, the buffers and the cached frame, with
    one it empties the set and drops the cached frame.  At its end it calls
    FrameMove on every renderer, unless the state is UNCONFIGURED. *)
Theorem FrameMove_leaves_ready :
  forall st,
    (m_bFlush st = true -> live_set st) ->
    exists st',
      FrameMove st = Ok tt st'
      /\ m_bFlush st' = false
      /\ m_state st'
         = (if is_state (m_state st) UNCONFIGURED then UNCONFIGURED else CONFIGURED)
      /\ (m_renderers st', m_format st', m_width st', m_height st')
         = (m_renderers st, m_format st, m_width st, m_height st)
      /\ (m_bFlush st = false ->
          (m_renderBuffers st', buffers st', m_bHasCachedFrame st', m_cachedFrame st')
          = (m_renderBuffers st, buffers st, m_bHasCachedFrame st, m_cachedFrame st))
      /\ (m_bFlush st = true ->
          (m_renderBuffers st', m_bHasCachedFrame st', m_cachedFrame st')
          = ([], false, []))
      /\ exists evs,
           trace st'
           = trace st ++ evs
             ++ (if is_state (m_state st) UNCONFIGURED then []
                 else map (fun renderer => EvRendererFrameMove (rnd_ptr renderer))
                        (m_renderers st)).
Proof.
  intros st Hlive. destruct (m_bFlush st) eqn:Hf.
  - exists (moved (flushed st)).
    split; [apply FrameMove_run, CheckFlush_run; auto |].
    split; [rewrite (moved_frame m_bFlush) by ign_auto; reflexivity |].
    split; [rewrite moved_state; reflexivity |].
    split; [rewrite (moved_frame
                       (fun s => (m_renderers s, m_format s, m_width s, m_height s)))
              by ign_auto; reflexivity |].
    split; [discriminate |].
    split; [intros _;
            rewrite (moved_frame
                       (fun s => (m_renderBuffers s, m_bHasCachedFrame s,
                                  m_cachedFrame s))) by ign_auto; reflexivity |].
    destruct (moved_trace (flushed st)) as (evs & ->).
    exists (map EvRelease (m_renderBuffers st)
            ++ [EvStoreRenderBuffers []]
            ++ map (fun renderer => EvRendererFlush (rnd_ptr renderer))
                 (m_renderers st)
            ++ [EvFlushPools] ++ evs).
    simpl. repeat (progress (rewrite <- ?app_assoc; simpl)). reflexivity.
  - exists (moved st).
    split; [apply FrameMove_run, CheckFlush_idle; exact Hf |].
    split; [rewrite (moved_frame m_bFlush) by ign_auto; exact Hf |].
    split; [apply moved_state |].
    split; [apply (moved_frame
                     (fun s => (m_renderers s, m_format s, m_width s, m_height s)));
            ign_auto |].
    split; [intros _;
            apply (moved_frame
                     (fun s => (m_renderBuffers s, buffers s, m_bHasCachedFrame s,
                                m_cachedFrame s))); ign_auto |].
    split; [discriminate |]. apply moved_trace.
Qed.

End Lifecycle.

Section Cycles.
Context `{Collaborators}.

(** X4. Configure on a manager that is not UNCONFIGURED, followed by
    FrameMove, returns when the render buffer set holds pointers to buffers
    and leaves the manager CONFIGURED for the new format and dimensions with
    no flush pending: the frames of the previous configuration are gone (the
    set is empty, every buffer of it was released once, the cached frame is
    dropped), the renderers are all kept, and each is flushed, then
    configured with the new format and dimensions, then moved, in the
    order of the set. *)
Theorem reconfigure_cycle :
  forall format nominalWidth nominalHeight maxWidth maxHeight st,
    m_state st <> UNCONFIGURED -> live_set st ->
    exists st',
      run_all [CallConfigure format nominalWidth nominalHeight maxWidth maxHeight;
               CallFrameMove] st = Ok tt st'
      /\ m_state st' = CONFIGURED /\ m_bFlush st' = false
      /\ (m_format st', m_width st', m_height st', m_maxWidth st', m_maxHeight st')
         = (format, nominalWidth, nominalHeight, maxWidth, maxHeight)
      /\ m_renderBuffers st' = []
      /\ m_bHasCachedFrame st' = false /\ m_cachedFrame st' = []
      /\ m_renderers st' = m_renderers st
      /\ trace st'
         = trace st
           ++ [EvConfigure format nominalWidth nominalHeight maxWidth maxHeight]
           ++ map EvRelease (m_renderBuffers st)
           ++ [EvStoreRenderBuffers []]
           ++ map (fun renderer => EvRendererFlush (rnd_ptr renderer)) (m_renderers st)
           ++ [EvFlushPools]
           ++ map (fun renderer =>
                     EvRendererConfigure (rnd_ptr renderer) format
                       nominalWidth nominalHeight) (m_renderers st)
           ++ map (fun renderer => EvRendererFrameMove (rnd_ptr renderer))
                (m_renderers st).
Proof.
  intros format nw nh mw mh st Hs Hlive.
  set (st1 := configured_with format nw nh mw mh st).
  assert (st1 = set_m_state RECONFIGURING
                  (set_m_bFlush true
                     (set_m_height nh
                        (set_m_width nw
                           (set_m_maxHeight mh
                              (set_m_maxWidth mw
                                 (set_m_format format
                                    (set_trace
                                       (trace st ++ [EvConfigure format nw nh mw mh])
                                       st)))))))) as Hst1.
  { unfold st1, configured_with. rewrite (is_state_false _ _ Hs). reflexivity. }
  assert (CheckFlush st1 = Ok tt (flushed st1)) as Hcf.
  { apply CheckFlush_run; rewrite Hst1; [reflexivity | exact Hlive]. }
  exists (moved (flushed st1)). split.
  - simpl. erewrite bind_Ok_l
      by (erewrite bind_Ok_l by apply Configure_run; reflexivity).
    erewrite bind_Ok_l by (apply FrameMove_run; exact Hcf). reflexivity.
  - rewrite Hst1. unfold moved. simpl.
    repeat (progress (rewrite <- ?app_assoc; simpl)).
    repeat split; reflexivity.
Qed.

Lemma Deinitialize_Ok st st' :
  Deinitialize st = Ok tt st' ->
  m_state st' = UNCONFIGURED /\ m_renderBuffers st' = [] /\ m_renderers st' = []
  /\ (m_bFlush st', m_bHasCachedFrame st', m_cachedFrame st')
     = (m_bFlush st, m_bHasCachedFrame st, m_cachedFrame st).
Proof.
  intros E.
  assert (keeps (fun s => (m_bFlush s, m_bHasCachedFrame s, m_cachedFrame s))
            Deinitialize) as Hk.
  { unfold Deinitialize. keeps_prim. }
  split; [| split; [| split; [| exact (Hk _ _ _ E)]]];
    unfold Deinitialize, store_renderBuffers in E; minv; reflexivity.
Qed.

(** CreateRenderBuffer on an empty render buffer set with a cached frame. *)
Lemma CreateRenderBuffer_from_cache bufferPool st st' :
  m_bFlush st = false -> m_state st = CONFIGURED -> m_renderBuffers st = [] ->
  m_bHasCachedFrame st = true -> m_cachedFrame st <> [] ->
  CreateRenderBuffer bufferPool st = Ok tt st' ->
  exists renderBuffer tail,
    trace st' = trace st
                ++ EvGetBuffer bufferPool (N.of_nat (length (m_cachedFrame st)))
                     renderBuffer :: tail
    /\ m_renderBuffers st'
       = match renderBuffer with Some b => [b] | None => [] end.
Proof.
  intros Hf Hs Hset Hhas Hne E. unfold CreateRenderBuffer in E.
  erewrite bind_Ok_l in E by reflexivity. rewrite (open_guard _ Hf Hs) in E.
  assert (HasRenderBuffer bufferPool st = Ok false st) as Hh.
  { unfold HasRenderBuffer. erewrite bind_Ok_l by reflexivity. rewrite Hset.
    reflexivity. }
  erewrite bind_Ok_l in E by exact Hh.
  erewrite bind_Ok_l in E by reflexivity. rewrite Hhas in E. simpl in E.
  erewrite bind_Ok_l in E by reflexivity.
  rewrite (is_empty_false _ Hne) in E. simpl in E.
  apply bind_Ok in E as (renderBuffer & s1 & E1 & E).
  apply bind_Ok in E as ([] & s3 & E & E3).
  unfold GetBuffer in E1. injection E1 as Hr Hs1.
  exists renderBuffer.
  assert (trace s1 = trace st ++ [EvGetBuffer bufferPool
                                    (N.of_nat (length (m_cachedFrame st)))
                                    renderBuffer]) as Ht1
    by (rewrite <- Hs1, <- Hr; reflexivity).
  assert (m_renderBuffers s1 = []) as Hset1 by (rewrite <- Hs1; exact Hset).
  clear Hs1 Hr. destruct renderBuffer as [b|].
  - apply bind_Ok in E as ([] & s2 & E2 & E).
    pose proof (CopyFrame_quiet _ _ _ _ _ _ _ _ _ E2) as (evs & Ht2 & _).
    assert (m_renderBuffers s2 = m_renderBuffers s1) as Hset2.
    { revert E2. apply CopyFrame_keeps; ign_auto. }
    erewrite bind_Ok_l in E by reflexivity. unfold store_renderBuffers in E.
    minv. simpl. rewrite Ht2, Ht1, Hset2, Hset1, <- !app_assoc. simpl.
    eexists. split; reflexivity.
  - minv. simpl. exists []. rewrite Ht1, Hset1. split; reflexivity.
Qed.

(** X5. Deinitialize does not drop the cached frame.  With no flush
    pending, Deinitialize followed by Configure and FrameMove leaves the
    manager CONFIGURED, with no flush pending, no render buffer and no
    renderer, and with the cached frame and its flag as they were before
    Deinitialize; if a frame is cached, the first CreateRenderBuffer
    afterwards asks the pool for a buffer of the size of that frame, and the
    buffer it gets is the render buffer set. *)
Theorem Deinitialize_keeps_cached_frame :
  forall format nominalWidth nominalHeight maxWidth maxHeight st st',
    m_bFlush st = false ->
    run_all [CallDeinitialize;
             CallConfigure format nominalWidth nominalHeight maxWidth maxHeight;
             CallFrameMove] st = Ok tt st' ->
    m_state st' = CONFIGURED /\ m_bFlush st' = false
    /\ m_renderBuffers st' = [] /\ m_renderers st' = []
    /\ m_bHasCachedFrame st' = m_bHasCachedFrame st
    /\ m_cachedFrame st' = m_cachedFrame st
    /\ (m_bHasCachedFrame st = true -> m_cachedFrame st <> [] ->
        forall bufferPool st'',
          CreateRenderBuffer bufferPool st' = Ok tt st'' ->
          exists renderBuffer tail,
            trace st'' = trace st'
                         ++ EvGetBuffer bufferPool
                              (N.of_nat (length (m_cachedFrame st))) renderBuffer
                            :: tail
            /\ m_renderBuffers st''
               = match renderBuffer with Some b => [b] | None => [] end).
Proof.
  intros format nw nh mw mh st st' Hf E. simpl in E.
  apply bind_Ok in E as ([] & s1 & E1 & E).
  apply Deinitialize_Ok in E1 as (Hs1 & Hset1 & Hr1 & Hk1).
  injection Hk1 as Hf1 Hh1 Hc1.
  apply bind_Ok in E as ([] & s2 & E2 & E).
  apply bind_Ok in E2 as (ok & s2' & E2 & E2'). rewrite Configure_run in E2.
  inversion E2; subst s2' ok; clear E2. inversion E2'; subst s2; clear E2'.
  apply bind_Ok in E as ([] & s3 & E3 & E). inversion E; subst s3; clear E.
  assert (m_bFlush (configured_with format nw nh mw mh s1) = false) as Hf2.
  { unfold configured_with. rewrite Hs1. simpl. congruence. }
  rewrite (FrameMove_run _ _ (CheckFlush_idle _ Hf2)) in E3.
  inversion E3 as [Hst']. clear E3.
  assert (m_state st' = CONFIGURED /\ m_bFlush st' = false
          /\ m_renderBuffers st' = [] /\ m_renderers st' = []
          /\ m_bHasCachedFrame st' = m_bHasCachedFrame st
          /\ m_cachedFrame st' = m_cachedFrame st) as Hall.
  { rewrite <- Hst'. unfold configured_with, moved. rewrite Hs1. simpl.
    repeat split; congruence. }
  destruct Hall as (Hs & Hfl & Hset & Hr & Hh & Hc). rewrite Hst'.
  split; [exact Hs |]. split; [exact Hfl |]. split; [exact Hset |].
  split; [exact Hr |]. split; [exact Hh |]. split; [exact Hc |].
  intros Hhas Hne bufferPool st'' Ecrb. rewrite <- Hc.
  apply CreateRenderBuffer_from_cache; congruence.
Qed.

(** X6. While the state is UNCONFIGURED, GetRenderer and GetRenderBuffer
    return null, and RenderWindow and RenderControl return without a call on
    a collaborator, RenderControl also when its settings are null; with no
    flush pending FrameMove does nothing either.  The whole state is left as
    it was. *)
Theorem unconfigured_renders_nothing :
  forall st,
    m_state st = UNCONFIGURED ->
    (forall renderSettings, GetRenderer renderSettings st = Ok None st)
    /\ (forall bufferPool, GetRenderBuffer bufferPool st = Ok None st)
    /\ (forall bClear coordsRes, RenderWindow bClear coordsRes st = Ok tt st)
    /\ (forall bClear bUseAlpha renderRegion renderSettings,
          RenderControl bClear bUseAlpha renderRegion renderSettings st = Ok tt st)
    /\ (m_bFlush st = false -> FrameMove st = Ok tt st).
Proof.
  intros st Hs.
  assert (forall renderSettings, GetRenderer renderSettings st = Ok None st) as Hg.
  { intros rs. unfold GetRenderer. erewrite bind_Ok_l by reflexivity.
    rewrite Hs. reflexivity. }
  split; [exact Hg |]. split; [| split; [| split]].
  - intros p. unfold GetRenderBuffer. erewrite bind_Ok_l by reflexivity.
    rewrite Hs, orb_true_r. reflexivity.
  - intros c r. unfold RenderWindow. erewrite bind_Ok_l by apply Hg. reflexivity.
  - intros c a reg rs. unfold RenderControl. erewrite bind_Ok_l by apply Hg.
    reflexivity.
  - intros Hf. rewrite (FrameMove_run _ _ (CheckFlush_idle _ Hf)).
    unfold moved. rewrite Hs. simpl. rewrite Hs. reflexivity.
Qed.

End Cycles.

Module LifecycleSamples.
Import Sample.

(** One frame in the set, a scaler context for 0RGB32 and a null one for
    RGB565. *)
Definition scaled : State :=
  set_m_scalers
    {[ AV_PIX_FMT_0RGB32 :=
         Some {| sws_srcW := 4; sws_srcH := 2; sws_srcFormat := AV_PIX_FMT_RGB565;
                 sws_dstW := 4; sws_dstH := 2; sws_dstFormat := AV_PIX_FMT_0RGB32;
                 sws_flags := SWS_FAST_BILINEAR |};
       AV_PIX_FMT_RGB565 := None ]}
    BufferSetSamples.once.

(** One frame in the set, one renderer, and a flush pending. *)
Definition flushing_frame : State :=
  after (run_all (H := collaborators) [CallGetRenderer None; CallFlush])
    BufferSetSamples.once.

(** A cached frame, then torn down and configured again for 8x2 frames. *)
Definition restarted : State :=
  after (run_all (H := collaborators)
           [CallDeinitialize; CallConfigure AV_PIX_FMT_RGB565 8 2 8 2;
            CallFrameMove])
    CachedFrameSamples.cached16.

End LifecycleSamples.

Lemma Deinitialize_tears_down_witness :
  exists st',
    Deinitialize LifecycleSamples.scaled = Ok tt st'
    /\ m_state st' = UNCONFIGURED
    /\ trace st' = trace LifecycleSamples.scaled
                   ++ [EvSwsFreeContext Sample.AV_PIX_FMT_0RGB32;
                       EvRelease 0; EvRelease 1; EvStoreRenderBuffers []].
Proof.
  destruct (@Deinitialize_tears_down Sample.collaborators LifecycleSamples.scaled)
    as (st' & E & Hs & _ & _ & _ & Ht & _).
  - apply check_live_set_sound. vm_compute. reflexivity.
  - exists st'. split; [exact E |]. split; [exact Hs |].
    rewrite Ht. vm_compute. reflexivity.
Defined.

Lemma CheckFlush_flushes_witness :
  exists st',
    CheckFlush (H := Sample.collaborators) LifecycleSamples.flushing_frame = Ok tt st'
    /\ trace st' = trace LifecycleSamples.flushing_frame
                   ++ [EvRelease 0; EvRelease 1; EvStoreRenderBuffers [];
                       EvRendererFlush 1; EvFlushPools]
    /\ m_bFlush st' = false.
Proof.
  destruct (@CheckFlush_flushes Sample.collaborators LifecycleSamples.flushing_frame)
    as (st' & E & Ht & _ & _ & _ & Hf & _).
  - vm_compute. reflexivity.
  - apply check_live_set_sound. vm_compute. reflexivity.
  - exists st'. split; [exact E |]. split; [| exact Hf].
    rewrite Ht. vm_compute. reflexivity.
Defined.

Lemma FrameMove_leaves_ready_witness :
  exists st',
    FrameMove (H := Sample.collaborators) LifecycleSamples.flushing_frame = Ok tt st'
    /\ m_bFlush st' = false /\ m_state st' = CONFIGURED.
Proof.
  destruct (@FrameMove_leaves_ready Sample.collaborators
              LifecycleSamples.flushing_frame)
    as (st' & E & Hf & Hs & _).
  - intros _. apply check_live_set_sound. vm_compute. reflexivity.
  - exists st'. split; [exact E |]. split; [exact Hf |].
    rewrite Hs. vm_compute. reflexivity.
Defined.

Lemma reconfigure_cycle_witness :
  exists st',
    run_all (H := Sample.collaborators)
      [CallConfigure Sample.AV_PIX_FMT_RGB565 8 2 8 2; CallFrameMove]
      LifecycleSamples.flushing_frame = Ok tt st'
    /\ m_state st' = CONFIGURED /\ m_bFlush st' = false
    /\ m_width st' = 8 /\ m_renderBuffers st' = [].
Proof.
  destruct (@reconfigure_cycle Sample.collaborators Sample.AV_PIX_FMT_RGB565
              8 2 8 2 LifecycleSamples.flushing_frame)
    as (st' & E & Hs & Hf & Hd & Hset & _).
  - vm_compute. discriminate.
  - apply check_live_set_sound. vm_compute. reflexivity.
  - exists st'. split; [exact E |]. split; [exact Hs |]. split; [exact Hf |].
    split; [congruence | exact Hset].
Defined.

Lemma Deinitialize_keeps_cached_frame_witness :
  m_state LifecycleSamples.restarted = CONFIGURED
  /\ m_bHasCachedFrame LifecycleSamples.restarted = true
  /\ m_cachedFrame LifecycleSamples.restarted = Sample.frame16.
Proof.
  destruct (@Deinitialize_keeps_cached_frame Sample.collaborators
              Sample.AV_PIX_FMT_RGB565 8 2 8 2
              CachedFrameSamples.cached16 LifecycleSamples.restarted)
    as (Hs & _ & _ & _ & Hh & Hc & _).
  - vm_compute. reflexivity.
  - vm_compute. reflexivity.
  - split; [exact Hs |]. split.
    + rewrite Hh. vm_compute. reflexivity.
    + rewrite Hc. vm_compute. reflexivity.
Defined.

Lemma unconfigured_renders_nothing_witness :
  RenderWindow (H := Sample.collaborators) true 0 Sample.fresh = Ok tt Sample.fresh
  /\ RenderControl (H := Sample.collaborators) true true Sample.no_rect None
       Sample.fresh = Ok tt Sample.fresh.
Proof.
  destruct (@unconfigured_renders_nothing Sample.collaborators Sample.fresh)
    as (_ & _ & Hw & Hc & _).
  - vm_compute. reflexivity.
  - split; [apply Hw | apply Hc].
Defined.

(** ** The render calls and the render context *)

(** The fullscreen flag and the scissors of the render context. *)
Definition context_of (st : State) : bool * CRect :=
  (fullScreenVideo st, scissors st).

(** What RenderControl does on the render context before the renderer
    draws, and after. *)
Definition control_prologue `{Collaborators} (bClear : bool) (renderRegion : CRect)
    (settings : IGUIRenderSettings) (st : State) : list Event :=
  (if fullScreenVideo st then [EvSetFullScreenVideo false] else [])
  ++ [EvSetViewWindow (GetDimensions settings); EvSetTransform]
  ++ (if bClear
      then [EvSetScissors (rect_Intersect renderRegion (scissors st));
            EvClear 0; EvSetScissors (scissors st)]
      else []).

Definition control_epilogue (st : State) : list Event :=
  EvRemoveTransform
  :: (if fullScreenVideo st then [EvSetFullScreenVideo true] else []).

Section RenderCalls.
Context `{Collaborators}.

Lemma GetRenderBuffer_blocked bufferPool st :
  m_bFlush st = true \/ m_state st <> CONFIGURED ->
  GetRenderBuffer bufferPool st = Ok None st.
Proof.
  intros Hg. unfold GetRenderBuffer. erewrite bind_Ok_l by reflexivity.
  rewrite (blocked_guard _ Hg). reflexivity.
Qed.

Lemma set_trace_twice t1 t2 st :
  set_trace t2 (set_trace t1 st) = set_trace t2 st.
Proof. reflexivity. Qed.

(** X7. While a flush is pending or the state is not CONFIGURED, and also
    when the render buffer set is empty and no frame is cached,
    RenderInternal still has the renderer draw: it calls PreRender and
    RenderFrame with the caller's clear flag and alpha, and nothing else; no
    buffer is acquired, uploaded, bound or released and the state is
    otherwise left as it was. *)
Theorem RenderInternal_without_buffer :
  forall renderer bClear alpha st,
    m_bFlush st = true \/ m_state st <> CONFIGURED
    \/ (m_renderBuffers st = [] /\ m_bHasCachedFrame st = false) ->
    RenderInternal renderer bClear alpha st
    = Ok tt (set_trace
               (trace st ++ [EvPreRender (rnd_ptr renderer) bClear;
                             EvRenderFrame (rnd_ptr renderer) bClear alpha]) st).
Proof.
  intros r c a st Hg. unfold RenderInternal.
  erewrite bind_Ok_l by apply emit_run.
  set (s0 := set_trace (trace st ++ [EvPreRender (rnd_ptr r) c]) st).
  assert (GetRenderBuffer (rnd_bufferPool r) s0 = Ok None s0
          /\ CreateRenderBuffer (rnd_bufferPool r) s0 = Ok tt s0) as [Hget Hcrb].
  { destruct (m_bFlush st) eqn:Hf;
      [split; [apply GetRenderBuffer_blocked | apply CreateRenderBuffer_blocked];
       left; exact Hf |].
    destruct (decide (m_state st = CONFIGURED)) as [Hs | Hs];
      [| split; [apply GetRenderBuffer_blocked | apply CreateRenderBuffer_blocked];
         right; exact Hs].
    destruct Hg as [Hg | [Hg | [Hset Hc]]]; [discriminate | contradiction |].
    split.
    - unfold GetRenderBuffer. erewrite bind_Ok_l by reflexivity.
      simpl. rewrite Hf, Hs, Hset. reflexivity.
    - assert (HasRenderBuffer (rnd_bufferPool r) s0 = Ok false s0) as Hh.
      { unfold HasRenderBuffer. erewrite bind_Ok_l by reflexivity.
        simpl. rewrite Hset. reflexivity. }
      unfold CreateRenderBuffer. erewrite bind_Ok_l by reflexivity.
      simpl. rewrite Hf, Hs. simpl.
      erewrite bind_Ok_l by exact Hh. erewrite bind_Ok_l by reflexivity.
      simpl. rewrite Hc. reflexivity. }
  erewrite bind_Ok_l by exact Hget.
  erewrite bind_Ok_l
    by (erewrite bind_Ok_l by exact Hcrb; exact Hget).
  erewrite bind_Ok_l by reflexivity. rewrite emit_run. unfold s0.
  rewrite set_trace_twice. simpl. rewrite <- app_assoc. reflexivity.
Qed.

(** X8. RenderControl with null settings: when GetRenderer(nullptr) yields a
    renderer, the call reads the dimensions through the null pointer (a
    null dereference, after the fullscreen flag was taken down); when it
    yields none, the call returns and has done what GetRenderer did. *)
Theorem RenderControl_null_settings :
  forall bClear bUseAlpha renderRegion st,
    (forall renderer st1,
       GetRenderer None st = Ok (Some renderer) st1 ->
       RenderControl bClear bUseAlpha renderRegion None st = Crash NullPointer)
    /\ (forall st1,
          GetRenderer None st = Ok None st1 ->
          RenderControl bClear bUseAlpha renderRegion None st = Ok tt st1).
Proof.
  intros c a reg st. split.
  - intros r st1 E. unfold RenderControl. erewrite bind_Ok_l by exact E.
    cbv beta iota. erewrite bind_Ok_l by reflexivity.
    destruct (fullScreenVideo st1); reflexivity.
  - intros st1 E. unfold RenderControl. erewrite bind_Ok_l by exact E.
    reflexivity.
Qed.

Lemma GetRenderer_keeps_context rs : keeps context_of (GetRenderer rs).
Proof.
  apply GetRenderer_keeps; try ign_auto.
  intros q. apply CreateRenderBuffer_keeps; ign_auto.
Qed.

Lemma RenderInternal_keeps_context r c a : keeps context_of (RenderInternal r c a).
Proof.
  apply RenderInternal_keeps; try ign_auto.
  intros q. apply CreateRenderBuffer_keeps; ign_auto.
Qed.

(** The events of RenderInternal lie between PreRender and RenderFrame. *)
Lemma RenderInternal_trace r c a st st' :
  RenderInternal r c a st = Ok tt st' ->
  exists mid,
    trace st' = trace st ++ EvPreRender (rnd_ptr r) c :: mid
                ++ [EvRenderFrame (rnd_ptr r) c a].
Proof.
  intros E. rewrite RenderInternal_split in E.
  apply bind_Ok in E as ([] & s0 & E0 & E). rewrite emit_run in E0.
  inversion E0; subst s0; clear E0.
  apply bind_Ok in E as (rbuf & s1 & E1 & E).
  pose proof (RenderInternal_acquire_quiet _ _ _ _ E1) as (ev1 & Ht1 & _).
  simpl in Ht1.
  apply bind_Ok in E as ([] & s2 & E2 & E). rewrite emit_run in E.
  inversion E; subst st'; clear E. simpl.
  destruct rbuf as [b|].
  - apply RenderInternal_present_Ok in E2 as (rb & _ & _ & _ & Ht2).
    exists (ev1 ++ present_events (rnd_ptr r) b rb).
    rewrite Ht2, Ht1. repeat (progress (rewrite <- ?app_assoc; simpl)).
    reflexivity.
  - inversion E2; subst s2; clear E2. exists ev1. rewrite Ht1.
    repeat (progress (rewrite <- ?app_assoc; simpl)). reflexivity.
Qed.

(** RenderControl from the renderer on. *)
Lemma RenderControl_found c a reg settings st r st1 st' :
  GetRenderer (Some settings) st = Ok (Some r) st1 ->
  RenderControl c a reg (Some settings) st = Ok tt st' ->
  exists s5 s6,
    trace s5 = trace st1 ++ control_prologue c reg settings st1
    /\ context_of s5 = (false, scissors st1)
    /\ RenderInternal r false
         (if a then N.shiftr (MergeAlpha 0xFF000000) 24 else 255) s5 = Ok tt s6
    /\ trace st' = trace s6 ++ control_epilogue st1
    /\ context_of st'
       = (if fullScreenVideo st1 then true else fullScreenVideo s6, scissors s6).
Proof.
  intros G E. unfold RenderControl in E. erewrite bind_Ok_l in E by exact G.
  cbv beta iota in E. erewrite bind_Ok_l in E by reflexivity.
  unfold control_prologue, control_epilogue, context_of.
  apply bind_Ok in E as ([] & s2 & E2 & E).
  apply bind_Ok in E as ([] & s3 & E3 & E).
  apply bind_Ok in E as ([] & s4 & E4 & E).
  apply bind_Ok in E as ([] & s5 & E5 & E).
  apply bind_Ok in E as ([] & s6 & E6 & E).
  apply bind_Ok in E as ([] & s7 & E7 & E).
  exists s5, s6.
  destruct (fullScreenVideo st1) eqn:Hfs; destruct c;
    unfold when, SetFullScreenVideo, SetScissors in E2, E5, E;
    minv;
    (split; [simpl; rewrite ?Hfs;
             repeat (progress (rewrite <- ?app_assoc; simpl)); reflexivity |]);
    (split; [simpl; rewrite ?Hfs; reflexivity |]); (split; [exact E6 |]);
    (split; [simpl; rewrite ?Hfs;
             repeat (progress (rewrite <- ?app_assoc; simpl)); reflexivity |]);
    simpl; rewrite ?Hfs; reflexivity.
Qed.

(** X9. As far as the manager's own calls on the render context go,
    RenderControl and RenderWindow leave the context's fullscreen flag and
    scissors as they found them: RenderControl takes the flag down while it
    draws and puts it back, and narrows the scissors only for the time of
    its clear. *)
Theorem render_restores_context :
  (forall bClear bUseAlpha renderRegion renderSettings st st',
     RenderControl bClear bUseAlpha renderRegion renderSettings st = Ok tt st' ->
     fullScreenVideo st' = fullScreenVideo st /\ scissors st' = scissors st)
  /\ (forall bClear coordsRes st st',
        RenderWindow bClear coordsRes st = Ok tt st' ->
        fullScreenVideo st' = fullScreenVideo st /\ scissors st' = scissors st).
Proof.
  split.
  - intros c a reg rs st st' E.
    assert (context_of st' = context_of st) as Hc;
      [| injection Hc; auto].
    pose proof E as E0. unfold RenderControl in E0.
    apply bind_Ok in E0 as (renderer & s1 & G & E0).
    pose proof (GetRenderer_keeps_context _ _ _ _ G) as H1.
    destruct renderer as [r|]; [| inversion E0; subst; exact H1].
    destruct rs as [settings|].
    + destruct (RenderControl_found _ _ _ _ _ _ _ _ G E)
        as (s5 & s6 & _ & H5 & E6 & _ & H').
      pose proof (RenderInternal_keeps_context _ _ _ _ _ _ E6) as H6.
      rewrite H'. unfold context_of in *. rewrite H5 in H6.
      injection H6 as -> ->. injection H1 as <- <-.
      destruct (fullScreenVideo s1); reflexivity.
    + exfalso. erewrite bind_Ok_l in E0 by reflexivity.
      destruct (fullScreenVideo s1); discriminate.
  - intros c r st st' E.
    assert (context_of st' = context_of st) as Hc;
      [| injection Hc; auto].
    revert E. apply RenderWindow_keeps; try ign_auto.
    intros q. apply CreateRenderBuffer_keeps; ign_auto.
Qed.

(** X10. The calls of a render dispatch.  After GetRenderer found a
    renderer, RenderWindow sets the rendering resolution to the video
    resolution, has the renderer draw with the caller's clear flag and alpha
    255, and sets the rendering resolution to the caller's.  RenderControl
    takes the fullscreen flag down if it is up, sets the view window to the
    dimensions of the settings and a transform, clears, if asked, within the
    intersection of the render region and the scissors and puts the scissors
    back, has the renderer draw with the clear flag false and alpha 255 or,
    if asked, the top byte of MergeAlpha(0xFF000000), removes the transform
    and puts the fullscreen flag up again if it was.  The renderer's draw
    starts with PreRender and ends with RenderFrame. *)
Theorem render_dispatch_sequence :
  (forall bClear coordsRes st renderer st1 st',
     GetRenderer None st = Ok (Some renderer) st1 ->
     RenderWindow bClear coordsRes st = Ok tt st' ->
     exists mid,
       trace st'
       = trace st1
         ++ [EvSetRenderingResolutionVideo; EvPreRender (rnd_ptr renderer) bClear]
         ++ mid
         ++ [EvRenderFrame (rnd_ptr renderer) bClear 255;
             EvSetRenderingResolution coordsRes])
  /\ (forall bClear bUseAlpha renderRegion settings st renderer st1 st',
        GetRenderer (Some settings) st = Ok (Some renderer) st1 ->
        RenderControl bClear bUseAlpha renderRegion (Some settings) st = Ok tt st' ->
        exists mid,
          trace st'
          = trace st1
            ++ control_prologue bClear renderRegion settings st
            ++ [EvPreRender (rnd_ptr renderer) false]
            ++ mid
            ++ [EvRenderFrame (rnd_ptr renderer) false
                  (if bUseAlpha then N.shiftr (MergeAlpha 0xFF000000) 24 else 255)]
            ++ control_epilogue st).
Proof.
  split.
  - intros c res st r st1 st' G E. unfold RenderWindow in E.
    erewrite bind_Ok_l in E by exact G. cbv beta iota in E.
    apply bind_Ok in E as ([] & s2 & E2 & E).
    apply bind_Ok in E as ([] & s3 & E3 & E).
    apply RenderInternal_trace in E3 as (mid & Ht3). minv. simpl in *.
    exists mid. rewrite Ht3.
    repeat (progress (rewrite <- ?app_assoc; simpl)). reflexivity.
  - intros c a reg settings st r st1 st' G E.
    destruct (RenderControl_found _ _ _ _ _ _ _ _ G E)
      as (s5 & s6 & Ht5 & _ & E6 & Ht' & _).
    pose proof (GetRenderer_keeps_context _ _ _ _ G) as H1.
    apply RenderInternal_trace in E6 as (mid & Ht6). exists mid.
    assert (control_prologue c reg settings st1 = control_prologue c reg settings st
            /\ control_epilogue st1 = control_epilogue st) as [Hp He].
    { unfold control_prologue, control_epilogue, context_of in *.
      injection H1 as -> ->. auto. }
    rewrite Ht', Ht6, Ht5, Hp, He.
    repeat (progress (rewrite <- ?app_assoc; simpl)). reflexivity.
Qed.

End RenderCalls.

(** ** Looking up a render buffer *)

Section Lookup.
Context `{Collaborators}.

Lemma find_buffer_first p l st b st' :
  find_buffer p l st = Ok (Some b) st' ->
  exists l1 l2,
    l = l1 ++ b :: l2
    /\ forall b0, b0 ∈ l1 ->
         exists rb0, buffers st !! b0 = Some rb0 /\ rb_pool rb0 <> p.
Proof.
  induction l as [|x l IH]; simpl; intros E; [inversion E |].
  apply bind_Ok in E as (rb & s0 & E0 & E). apply deref_Ok in E0 as [-> Hx].
  case_bool_decide as Hp.
  - inversion E; subst. exists [], l. split; [reflexivity |].
    intros b0 Hb0. inversion Hb0.
  - destruct (IH E) as (l1 & l2 & -> & Hl1). exists (x :: l1), l2.
    split; [reflexivity |]. intros b0 Hb0.
    apply elem_of_cons in Hb0 as [-> | Hb0]; eauto.
Qed.

Lemma find_buffer_run p l st r st' :
  find_buffer p l st = Ok r st' -> find_buffer p l st = Ok r st.
Proof. intros E. destruct (find_buffer_Ok _ _ _ _ _ E) as [<- _]. exact E. Qed.

Lemma rb_refs_round_trip rb :
  rb_with_refs (rb_refs rb + 1 - 1) (rb_with_refs (rb_refs rb + 1) rb) = rb.
Proof. destruct rb. unfold rb_with_refs. simpl. f_equal. lia. Qed.

(** X11. GetRenderBuffer followed by Release on the buffer it returned
    leaves every buffer and every member as before the two calls: the
    reference taken for the caller is the one given back.  Only the trace
    shows the two calls. *)
Theorem GetRenderBuffer_Release_round_trip :
  forall bufferPool st b st1,
    GetRenderBuffer bufferPool st = Ok (Some b) st1 ->
    Release b st1
    = Ok tt (set_trace (trace st ++ [EvAcquire b; EvRelease b]) st).
Proof.
  intros p st b st1 E. apply GetRenderBuffer_Ok in E.
  destruct E as (_ & _ & _ & rb & Hb & _ & ->).
  erewrite Release_run by (simpl; apply lookup_insert_eq).
  simpl. rewrite insert_insert_eq, rb_refs_round_trip, insert_id by exact Hb.
  rewrite <- app_assoc. destruct st; reflexivity.
Qed.

(** X12. GetRenderBuffer returns a buffer exactly when no flush is pending,
    the state is CONFIGURED and HasRenderBuffer is true for the pool; the
    buffer is the first of the render buffer set that belongs to the pool.
    When it returns null it leaves the state as it was, also when the set
    has a buffer of the pool but the gate is closed. *)
Theorem GetRenderBuffer_finds_first :
  forall bufferPool st,
    (forall b st',
       GetRenderBuffer bufferPool st = Ok (Some b) st' ->
       m_bFlush st = false /\ m_state st = CONFIGURED
       /\ HasRenderBuffer bufferPool st = Ok true st
       /\ exists l1 l2 rb,
            m_renderBuffers st = l1 ++ b :: l2
            /\ buffers st !! b = Some rb /\ rb_pool rb = bufferPool
            /\ forall b0, b0 ∈ l1 ->
                 exists rb0, buffers st !! b0 = Some rb0
                             /\ rb_pool rb0 <> bufferPool)
    /\ (forall st',
          GetRenderBuffer bufferPool st = Ok None st' ->
          st' = st
          /\ (m_bFlush st = true \/ m_state st <> CONFIGURED
              \/ HasRenderBuffer bufferPool st = Ok false st))
    /\ (m_bFlush st = false -> m_state st = CONFIGURED ->
        HasRenderBuffer bufferPool st = Ok true st ->
        exists b st', GetRenderBuffer bufferPool st = Ok (Some b) st').
Proof.
  intros p st. split; [| split].
  - intros b st' E. pose proof (GetRenderBuffer_Ok _ _ _ _ E) as HOk.
    destruct HOk as (Hf & Hs & _ & rb & Hb & Hp & _).
    split; [exact Hf |]. split; [exact Hs |].
    unfold GetRenderBuffer in E. erewrite bind_Ok_l in E by reflexivity.
    rewrite (open_guard _ Hf Hs) in E.
    apply bind_Ok in E as (it & s1 & E1 & E).
    destruct it as [b'|]; [| inversion E].
    assert (b' = b) as ->.
    { apply bind_Ok in E as ([] & s2 & _ & E). inversion E. reflexivity. }
    apply find_buffer_run in E1 as E1'. split.
    + unfold HasRenderBuffer. erewrite bind_Ok_l by reflexivity.
      erewrite bind_Ok_l by exact E1'. reflexivity.
    + destruct (find_buffer_first _ _ _ _ _ E1) as (l1 & l2 & Hl & Hl1).
      exists l1, l2, rb. auto.
  - intros st' E. pose proof (GetRenderBuffer_Ok _ _ _ _ E) as ->.
    split; [reflexivity |].
    destruct (m_bFlush st) eqn:Hf; [auto |].
    destruct (decide (m_state st = CONFIGURED)) as [Hs | Hs]; [| auto].
    right. right. unfold GetRenderBuffer in E.
    erewrite bind_Ok_l in E by reflexivity. rewrite (open_guard _ Hf Hs) in E.
    apply bind_Ok in E as (it & s1 & E1 & E).
    destruct it as [b'|].
    + apply bind_Ok in E as ([] & s2 & _ & E). inversion E.
    + apply find_buffer_run in E1. unfold HasRenderBuffer.
      erewrite bind_Ok_l by reflexivity. erewrite bind_Ok_l by exact E1.
      reflexivity.
  - intros Hf Hs E. unfold HasRenderBuffer in E.
    erewrite bind_Ok_l in E by reflexivity.
    apply bind_Ok in E as (it & s1 & E1 & E). inversion E as [[Hit Hs1]].
    destruct it as [b|];
      [| exfalso; apply bool_decide_eq_true in Hit; destruct Hit; discriminate].
    destruct (find_buffer_Ok _ _ _ _ _ E1) as (-> & _ & rb & Hb & _).
    exists b. unfold GetRenderBuffer. erewrite bind_Ok_l by reflexivity.
    rewrite (open_guard _ Hf Hs). erewrite bind_Ok_l by exact E1.
    unfold Acquire. erewrite bind_Ok_l
      by (erewrite bind_Ok_l by (apply deref_run; exact Hb); reflexivity).
    eexists. reflexivity.
Qed.

End Lookup.

(** ** References held while rendering *)

(** The render buffer set only gained buffers at its end. *)
Definition grows (st st' : State) : Prop :=
  m_renderBuffers st `prefix_of` m_renderBuffers st'.

#[global] Instance grows_refl : Reflexive grows.
Proof. intros st. unfold grows. reflexivity. Qed.

#[global] Instance grows_trans : Transitive grows.
Proof. intros s1 s2 s3. unfold grows. intros H1 H2. etransitivity; eassumption. Qed.

Ltac grows_step := unfold grows; simpl; reflexivity.

Section RenderReferences.
Context `{PoolContract}.

Lemma keeps_grows {A} (m : M A) : keeps m_renderBuffers m -> follows grows m.
Proof. intros Hk st a st' E. unfold grows. rewrite (Hk _ _ _ E). reflexivity. Qed.

Lemma CreateRenderBuffer_grows p : follows grows (CreateRenderBuffer p).
Proof.
  intros st [] st' E. unfold grows.
  destruct (CreateRenderBuffer_adds _ _ _ E) as (_ & [-> | (b & -> & _)]).
  - reflexivity.
  - apply prefix_app_r. reflexivity.
Qed.
#[local] Hint Resolve CreateRenderBuffer_grows : follows.

Lemma GetRenderBuffer_grows p : follows grows (GetRenderBuffer p).
Proof. apply keeps_grows. apply GetRenderBuffer_keeps; ign_auto. Qed.
#[local] Hint Resolve GetRenderBuffer_grows : follows.

Lemma GetRenderer_pool_grows p rs : follows grows (GetRenderer_pool p rs).
Proof. unfold GetRenderer_pool. follows_prim grows_step. Qed.
#[local] Hint Resolve GetRenderer_pool_grows : follows.

Lemma GetRenderer_pools_grows ps rs : follows grows (GetRenderer_pools ps rs).
Proof. induction ps as [|p ps IH]; simpl; follows_prim grows_step. Qed.
#[local] Hint Resolve GetRenderer_pools_grows : follows.

Lemma GetRenderer_grows rs : follows grows (GetRenderer rs).
Proof. unfold GetRenderer. follows_prim grows_step. Qed.
#[local] Hint Resolve GetRenderer_grows : follows.

Lemma RenderInternal_grows r c a : follows grows (RenderInternal r c a).
Proof. unfold RenderInternal. follows_prim grows_step. Qed.
#[local] Hint Resolve RenderInternal_grows : follows.

Lemma render_calls_grow cs : Forall render_call cs -> follows grows (run_all cs).
Proof.
  induction 1 as [|c cs Hc _ IH]; simpl.
  - apply follows_ret. apply _.
  - apply follows_bind; [apply _ | | intros _; exact IH].
    destruct c; simpl in Hc; try contradiction; simpl.
    + unfold RenderWindow. follows_prim grows_step.
    + unfold RenderControl. follows_prim grows_step.
Qed.

(** X13. If the pools hand out unreferenced buffers and a reference is held
    on every buffer of the render buffer set, then over any sequence of
    RenderWindow and RenderControl calls every Acquire is matched by a
    Release: a buffer on which a reference was held keeps its reference
    count and its pool, and stays loaded if it was.  The calls remove no
    buffer from the set, they only append to it, and a reference is held on
    every buffer of the set afterwards. *)
Theorem rendering_keeps_references :
  forall cs st st',
    Forall render_call cs -> SetRef st ->
    run_all cs st = Ok tt st' ->
    SetRef st'
    /\ m_renderBuffers st `prefix_of` m_renderBuffers st'
    /\ forall b rb,
         buffers st !! b = Some rb -> (1 <= rb_refs rb)%Z ->
         exists rb',
           buffers st' !! b = Some rb'
           /\ rb_pool rb' = rb_pool rb /\ rb_refs rb' = rb_refs rb
           /\ (rb_loaded rb = true -> rb_loaded rb' = true).
Proof.
  intros cs st st' Hcs Hset E.
  destruct (render_calls_render cs Hcs _ _ _ E Hset) as (Hset' & Hk & _).
  split; [exact Hset' |]. split; [exact (render_calls_grow cs Hcs _ _ _ E) |].
  exact Hk.
Qed.

End RenderReferences.

Module RenderCallSamples.
Import Sample.

(** A control that asks for view mode 3. *)
Definition settings3 : IGUIRenderSettings :=
  {| HasVideoFilter := false; HasViewMode := true; HasRotation := false;
     GetSettings := {| VideoSettings := SetRenderViewMode 3%Z default_settings |};
     GetDimensions := no_rect |}.

(** One frame in the set, the render context in fullscreen video. *)
Definition fullscreen : State :=
  set_fullScreenVideo true BufferSetSamples.once.

Definition found : CRPBaseRenderer :=
  {| rnd_ptr := 1; rnd_impl := 0; rnd_bufferPool := 0;
     rnd_scalingMethod := 1%Z; rnd_viewMode := 3%Z; rnd_rotation := 0 |}.

Definition resolved : State :=
  after (GetRenderer (H := collaborators) (Some settings3)) fullscreen.

Definition controlled : State :=
  after (RenderControl (H := collaborators) true true no_rect (Some settings3))
    fullscreen.

End RenderCallSamples.

Lemma RenderInternal_without_buffer_witness :
  RenderInternal (H := Sample.collaborators) RenderSamples.renderer1 true 255
    ConfigurationSamples.flushing
  = Ok tt (set_trace
             (trace ConfigurationSamples.flushing
              ++ [EvPreRender 9 true; EvRenderFrame 9 true 255])
             ConfigurationSamples.flushing).
Proof.
  apply (@RenderInternal_without_buffer Sample.collaborators
           RenderSamples.renderer1 true 255 ConfigurationSamples.flushing).
  left. vm_compute. reflexivity.
Defined.

Lemma RenderControl_null_settings_witness :
  RenderControl (H := Sample.collaborators) true true Sample.no_rect None
    Sample.configured = Crash NullPointer.
Proof.
  eapply (proj1 (@RenderControl_null_settings Sample.collaborators true true
                   Sample.no_rect Sample.configured)).
  vm_compute. reflexivity.
Defined.

Lemma render_restores_context_witness :
  fullScreenVideo RenderCallSamples.controlled = true
  /\ scissors RenderCallSamples.controlled = Sample.no_rect.
Proof.
  destruct (proj1 (@render_restores_context Sample.collaborators) true true
              Sample.no_rect (Some RenderCallSamples.settings3)
              RenderCallSamples.fullscreen RenderCallSamples.controlled)
    as [Hf Hs].
  - vm_compute. reflexivity.
  - rewrite Hf, Hs. split; vm_compute; reflexivity.
Defined.

Lemma render_dispatch_sequence_witness :
  exists mid,
    trace RenderCallSamples.controlled
    = trace RenderCallSamples.resolved
      ++ [EvSetFullScreenVideo false; EvSetViewWindow Sample.no_rect;
          EvSetTransform; EvSetScissors Sample.no_rect; EvClear 0;
          EvSetScissors Sample.no_rect; EvPreRender 1 false]
      ++ mid
      ++ [EvRenderFrame 1 false 255; EvRemoveTransform;
          EvSetFullScreenVideo true].
Proof.
  destruct (proj2 (@render_dispatch_sequence Sample.collaborators) true true
              Sample.no_rect RenderCallSamples.settings3
              RenderCallSamples.fullscreen RenderCallSamples.found
              RenderCallSamples.resolved RenderCallSamples.controlled)
    as (mid & Ht).
  - vm_compute. reflexivity.
  - vm_compute. reflexivity.
  - exists mid. rewrite Ht. reflexivity.
Defined.

Lemma GetRenderBuffer_Release_round_trip_witness :
  Release 0 (Sample.after (GetRenderBuffer 0) BufferSetSamples.once)
  = Ok tt (set_trace
             (trace BufferSetSamples.once ++ [EvAcquire 0; EvRelease 0])
             BufferSetSamples.once).
Proof.
  apply GetRenderBuffer_Release_round_trip with (bufferPool := 0%nat).
  vm_compute. reflexivity.
Defined.

Lemma GetRenderBuffer_finds_first_witness :
  HasRenderBuffer 1 BufferSetSamples.once = Ok true BufferSetSamples.once
  /\ exists l1 l2, m_renderBuffers BufferSetSamples.once = l1 ++ 1%nat :: l2.
Proof.
  destruct (proj1 (GetRenderBuffer_finds_first 1 BufferSetSamples.once)
              1%nat (Sample.after (GetRenderBuffer 1) BufferSetSamples.once))
    as (_ & _ & Hh & l1 & l2 & _ & Hl & _).
  - vm_compute. reflexivity.
  - split; [exact Hh |]. exists l1, l2. exact Hl.
Defined.

Lemma rendering_keeps_references_witness :
  SetRef RenderSamples.rendered
  /\ m_renderBuffers BufferSetSamples.once
     `prefix_of` m_renderBuffers RenderSamples.rendered.
Proof.
  destruct (@rendering_keeps_references Sample.collaborators Sample_contract
              RenderSamples.ticks BufferSetSamples.once RenderSamples.rendered)
    as (H1 & H2 & _).
  - repeat constructor.
  - apply check_SetRef_sound. vm_compute. reflexivity.
  - vm_compute. reflexivity.
  - split; [exact H1 | exact H2].
Defined.

(** ** Settings, and what the calls leave alone *)

Definition is_trigger (c : Call) : bool :=
  match c with CallTriggerUpdateResolution => true | _ => false end.

Definition is_SetSpeed (c : Call) : bool :=
  match c with CallSetSpeed _ => true | _ => false end.

Definition is_Deinitialize (c : Call) : bool :=
  match c with CallDeinitialize => true | _ => false end.

(** The addresses of the renderers of the set are still in the set. *)
Definition retains (st st' : State) : Prop :=
  map rnd_ptr (m_renderers st) ⊆ map rnd_ptr (m_renderers st').

#[global] Instance retains_refl : Reflexive retains.
Proof. intros st. unfold retains. reflexivity. Qed.

#[global] Instance retains_trans : Transitive retains.
Proof. intros s1 s2 s3. unfold retains. intros H1 H2. etransitivity; eassumption. Qed.

(** Closes [keeps f m] for any member function [m] and a member [f] that
    no member function writes. *)
Ltac keeps_any :=
  first [ keeps_member
        | unfold Deinitialize, Configure, AddFrame, AddFrame_cache, CheckFlush,
            FrameMove; keeps_prim ].

Section Settings.
Context `{Collaborators}.



(** *** Members no call writes *)

Lemma run_keeps_unwritten c :
  is_trigger c = false -> is_SetSpeed c = false ->
  keeps (fun st => (m_renderSettings st, bufferPools st,
                    m_bTriggerUpdateResolution st, m_speed st)) (run c).
Proof. destruct c; simpl; intros Ht Hs; try discriminate; keeps_any. Qed.

Lemma run_keeps_registry c :
  keeps (fun st => (m_renderSettings st, bufferPools st)) (run c).
Proof.
  destruct (is_trigger c) eqn:Ht; [destruct c; try discriminate; simpl; keeps_any |].
  destruct (is_SetSpeed c) eqn:Hs; [destruct c; try discriminate; simpl; keeps_any |].
  intros st a st' E. pose proof (run_keeps_unwritten c Ht Hs _ _ _ E) as Hk.
  congruence.
Qed.

Lemma run_keeps_trigger c :
  is_trigger c = false -> keeps m_bTriggerUpdateResolution (run c).
Proof.
  intros Ht.
  destruct (is_SetSpeed c) eqn:Hs; [destruct c; try discriminate; simpl; keeps_any |].
  intros st a st' E. pose proof (run_keeps_unwritten c Ht Hs _ _ _ E) as Hk.
  congruence.
Qed.

Lemma run_keeps_speed c :
  is_SetSpeed c = false -> keeps m_speed (run c).
Proof.
  intros Hs.
  destruct (is_trigger c) eqn:Ht; [destruct c; try discriminate; simpl; keeps_any |].
  intros st a st' E. pose proof (run_keeps_unwritten c Ht Hs _ _ _ E) as Hk.
  congruence.
Qed.

(** X15. The resolution update flag is set by TriggerUpdateResolution and
    by nothing else, and no call clears it: after any sequence of calls it
    is set exactly if it was set before or the sequence has a
    TriggerUpdateResolution.  UpdateResolution does nothing. *)
Theorem update_resolution_never_consumed :
  (forall cs st st',
     run_all cs st = Ok tt st' ->
     m_bTriggerUpdateResolution st'
     = m_bTriggerUpdateResolution st || existsb is_trigger cs)
  /\ (forall st, UpdateResolution st = Ok tt st).
Proof.
  split; [| reflexivity].
  induction cs as [|c cs IH]; intros st st' E; simpl in *.
  - inversion E. rewrite orb_false_r. reflexivity.
  - apply bind_Ok in E as ([] & s1 & E1 & E). rewrite (IH _ _ E).
    destruct (is_trigger c) eqn:Hc.
    + destruct c; try discriminate. simpl in E1. inversion E1. simpl.
      rewrite orb_true_r. reflexivity.
    + rewrite (run_keeps_trigger c Hc _ _ _ E1). reflexivity.
Qed.

(** X16. No call writes the manager's own render settings or the registry
    of buffer pools, and only SetSpeed writes the speed.  So over any
    sequence of calls SupportsScalingMethod keeps its answer for every
    scaling method, and GetEffectiveSettings its result for every settings
    object. *)
Theorem calls_keep_registry :
  forall cs st st',
    run_all cs st = Ok tt st' ->
    m_renderSettings st' = m_renderSettings st
    /\ bufferPools st' = bufferPools st
    /\ (existsb is_SetSpeed cs = false -> m_speed st' = m_speed st)
    /\ (forall method,
          SupportsScalingMethod method st' = SupportsScalingMethod method st)
    /\ (forall settings,
          GetEffectiveSettings settings st' = GetEffectiveSettings settings st).
Proof.
  assert (forall cs st st',
            run_all cs st = Ok tt st' ->
            (m_renderSettings st', bufferPools st')
            = (m_renderSettings st, bufferPools st)
            /\ (existsb is_SetSpeed cs = false -> m_speed st' = m_speed st)) as Hall.
  { induction cs as [|c cs IH]; intros st st' E; simpl in *.
    - inversion E. auto.
    - apply bind_Ok in E as ([] & s1 & E1 & E). destruct (IH _ _ E) as [Hr Hs].
      rewrite Hr. split; [exact (run_keeps_registry c _ _ _ E1) |].
      intros Hc. apply orb_false_iff in Hc as [Hc Hcs].
      rewrite (Hs Hcs). exact (run_keeps_speed c Hc _ _ _ E1). }
  intros cs st st' E. destruct (Hall _ _ _ E) as [Hr Hs].
  injection Hr as Hrs Hps.
  split; [exact Hrs |]. split; [exact Hps |]. split; [exact Hs |]. split.
  - intros method. unfold SupportsScalingMethod. rewrite Hps. reflexivity.
  - intros settings. unfold GetEffectiveSettings. rewrite Hrs. reflexivity.
Qed.

(** *** The renderer set *)

Lemma set_insert_ptrs r l : map rnd_ptr l ⊆ map rnd_ptr (set_insert r l).
Proof.
  induction l as [|x l IH]; simpl; [intros y Hy; inversion Hy |].
  destruct (Nat.ltb (rnd_ptr r) (rnd_ptr x)); [| destruct (Nat.eqb _ _)]; simpl.
  - intros y Hy. right. exact Hy.
  - reflexivity.
  - intros y Hy. apply elem_of_cons in Hy as [-> | Hy]; [left | right; auto].
Qed.

Ltac retains_step :=
  unfold retains; simpl;
  first [ reflexivity
        | rewrite update_renderer_ptrs; reflexivity
        | apply set_insert_ptrs ].

Lemma keeps_retains {A} (m : M A) : keeps m_renderers m -> follows retains m.
Proof. intros Hk st a st' E. unfold retains. rewrite (Hk _ _ _ E). reflexivity. Qed.

Lemma CreateRenderBuffer_retains p : follows retains (CreateRenderBuffer p).
Proof. apply keeps_retains. apply CreateRenderBuffer_keeps; ign_auto. Qed.
#[local] Hint Resolve CreateRenderBuffer_retains : follows.

Lemma RenderInternal_retains r c a : follows retains (RenderInternal r c a).
Proof. apply keeps_retains. keeps_member. Qed.
#[local] Hint Resolve RenderInternal_retains : follows.

Lemma GetRenderer_pool_retains p rs : follows retains (GetRenderer_pool p rs).
Proof. unfold GetRenderer_pool. follows_prim retains_step. Qed.
#[local] Hint Resolve GetRenderer_pool_retains : follows.

Lemma GetRenderer_pools_retains ps rs : follows retains (GetRenderer_pools ps rs).
Proof. induction ps as [|p ps IH]; simpl; follows_prim retains_step. Qed.
#[local] Hint Resolve GetRenderer_pools_retains : follows.

Lemma GetRenderer_retains rs : follows retains (GetRenderer rs).
Proof. unfold GetRenderer. follows_prim retains_step. Qed.
#[local] Hint Resolve GetRenderer_retains : follows.

Lemma run_retains c : is_Deinitialize c = false -> follows retains (run c).
Proof.
  destruct c; simpl; intros Hc; try discriminate;
    try solve [apply keeps_retains; keeps_any].
  - unfold RenderWindow. follows_prim retains_step.
  - unfold RenderControl. follows_prim retains_step.
  - follows_prim retains_step.
Qed.

(** X17. Only Deinitialize removes a renderer: over any sequence of calls
    without Deinitialize every renderer of the set is still in the set at
    the end, also after a flush, after a reconfiguration and after a
    renderer failed to reconfigure. *)
Theorem renderers_only_added :
  forall cs st st',
    existsb is_Deinitialize cs = false ->
    run_all cs st = Ok tt st' ->
    forall renderer,
      renderer ∈ m_renderers st ->
      exists renderer',
        renderer' ∈ m_renderers st' /\ rnd_ptr renderer' = rnd_ptr renderer.
Proof.
  assert (forall cs, existsb is_Deinitialize cs = false ->
                     follows retains (run_all cs)) as Hall.
  { induction cs as [|c cs IH]; simpl; intros Hcs.
    - apply follows_ret. apply _.
    - apply orb_false_iff in Hcs as [Hc Hcs].
      apply follows_bind; [apply _ | apply run_retains; exact Hc |].
      intros _. apply IH. exact Hcs. }
  intros cs st st' Hcs E r Hr.
  pose proof (Hall cs Hcs _ _ _ E (rnd_ptr r)) as Hin.
  assert (rnd_ptr r ∈ map rnd_ptr (m_renderers st')) as Hin'.
  { apply Hin. apply list_elem_of_fmap. eauto. }
  apply list_elem_of_fmap in Hin' as (r' & Hp & Hr'). eauto.
Qed.

End Settings.

(** ** Edges of the frame copy *)

Section CopyEdges.
Context `{Collaborators}.

Lemma CopyFrame_divides b format data size width height st rb target :
  buffers st !! b = Some rb -> rb_memory rb = Some target ->
  height = 0 \/ rb_height rb = 0 ->
  CopyFrame b format data size width height st = Crash DivisionByZero.
Proof.
  intros Hb Hm Hz. unfold CopyFrame.
  erewrite bind_Ok_l by (apply deref_run; exact Hb).
  erewrite bind_Ok_l by apply emit_run. rewrite Hm.
  apply bind_Crash_l.
  destruct (decide (height = 0)) as [-> | Hh]; [reflexivity |].
  destruct Hz as [Hz | Hz]; [contradiction |].
  erewrite bind_Ok_l by (apply udiv_run; exact Hh).
  rewrite Hz. reflexivity.
Qed.

(** X18. The edges of CopyFrame.  On a pointer that is not a buffer the
    call is an invalid dereference.  On a buffer whose memory is null it
    copies nothing and divides nothing: it only takes and releases the
    memory.  On a buffer with memory it divides the frame's size by the
    frame's height and the buffer's frame size by the buffer's height, so a
    height of zero in either is a division by zero, before any byte is
    copied. *)
Theorem CopyFrame_edges :
  forall b format data size width height st,
    (buffers st !! b = None ->
     CopyFrame b format data size width height st = Crash InvalidPointer)
    /\ (forall rb,
          buffers st !! b = Some rb -> rb_memory rb = None ->
          CopyFrame b format data size width height st
          = Ok tt (set_trace (trace st ++ [EvGetMemory b; EvReleaseMemory b]) st))
    /\ (forall rb target,
          buffers st !! b = Some rb -> rb_memory rb = Some target ->
          height = 0 \/ rb_height rb = 0 ->
          CopyFrame b format data size width height st = Crash DivisionByZero).
Proof.
  intros b format data size width height st. split; [| split].
  - intros Hb. unfold CopyFrame. apply bind_Crash_l. unfold deref.
    rewrite Hb. reflexivity.
  - intros rb Hb Hm. unfold CopyFrame.
    erewrite bind_Ok_l by (apply deref_run; exact Hb).
    erewrite bind_Ok_l by apply emit_run. rewrite Hm.
    erewrite bind_Ok_l by reflexivity. rewrite emit_run. simpl.
    rewrite <- app_assoc. reflexivity.
  - intros rb target. apply CopyFrame_divides.
Qed.

(** X19. CreateRenderBuffer copies the cached frame with the configured
    height as the frame's height.  So when the manager is CONFIGURED with a
    height of zero and holds a cached frame, CreateRenderBuffer for a pool
    without a buffer in the set divides by zero as soon as the pool hands
    out a buffer with memory. *)
Theorem CreateRenderBuffer_zero_height :
  forall bufferPool st b heap rb target,
    m_bFlush st = false -> m_state st = CONFIGURED ->
    m_height st = 0 ->
    m_bHasCachedFrame st = true -> m_cachedFrame st <> [] ->
    HasRenderBuffer bufferPool st = Ok false st ->
    pool_GetBuffer bufferPool (N.of_nat (length (m_cachedFrame st))) (buffers st)
    = (Some b, heap) ->
    heap !! b = Some rb -> rb_memory rb = Some target ->
    CreateRenderBuffer bufferPool st = Crash DivisionByZero.
Proof.
  intros p st b heap rb target Hf Hs Hh Hhas Hne Hno Hget Hb Hm.
  unfold CreateRenderBuffer. erewrite bind_Ok_l by reflexivity.
  rewrite (open_guard _ Hf Hs). erewrite bind_Ok_l by exact Hno.
  erewrite bind_Ok_l by reflexivity. rewrite Hhas. simpl.
  erewrite bind_Ok_l by reflexivity. rewrite (is_empty_false _ Hne). simpl.
  unfold GetBuffer at 1.
  unfold mbind at 1, M_bind at 1, bind at 1. simpl. rewrite Hget. simpl.
  apply bind_Crash_l. apply bind_Crash_l. rewrite Hh.
  apply (CopyFrame_divides _ _ _ _ _ _ _ rb target);
    [exact Hb | exact Hm | left; reflexivity].
Qed.

End CopyEdges.

(** ** The renderer GetRenderer returns *)

Section Returned.
Context `{RendererContract}.

Lemma set_insert_keeps r l x : x ∈ l -> x ∈ set_insert r l.
Proof.
  induction l as [|y l IH]; simpl; intros Hx; [inversion Hx |].
  destruct (Nat.ltb (rnd_ptr r) (rnd_ptr y)); [right; exact Hx |].
  destruct (Nat.eqb (rnd_ptr r) (rnd_ptr y)); [exact Hx |].
  apply elem_of_cons in Hx as [-> | Hx]; [left | right; auto].
Qed.

Lemma update_renderer_elem r r0 l :
  r0 ∈ l -> rnd_ptr r0 = rnd_ptr r -> r ∈ update_renderer r l.
Proof.
  intros Hin Hp. unfold update_renderer. apply list_elem_of_fmap.
  exists r0. rewrite Hp, Nat.eqb_refl. auto.
Qed.

Lemma update_renderer_other r l x :
  rnd_ptr x <> rnd_ptr r -> x ∈ update_renderer r l <-> x ∈ l.
Proof.
  intros Hp. unfold update_renderer. rewrite list_elem_of_fmap. split.
  - intros (y & -> & Hy). destruct (Nat.eqb (rnd_ptr y) (rnd_ptr r)) eqn:He;
      [contradiction | exact Hy].
  - intros Hx. exists x. apply Nat.eqb_neq in Hp. rewrite Hp. auto.
Qed.

(** X20. The renderer GetRenderer returns is a renderer of the set, and the
    set holds it with the effective scaling method, view mode and rotation
    written to it: a later call that resolves to the same renderer with
    other settings overwrites them for every holder.  The renderer is bound
    to a pool that is compatible with the effective settings and is itself
    compatible with them; every other renderer of the set is left as it
    was, and none is removed. *)
Theorem GetRenderer_returns_member :
  forall renderSettings st renderer st',
    NoDup (map rnd_ptr (m_renderers st)) ->
    GetRenderer renderSettings st = Ok (Some renderer) st' ->
    let effective := GetEffectiveSettings renderSettings st in
    renderer ∈ m_renderers st'
    /\ NoDup (map rnd_ptr (m_renderers st'))
    /\ (rnd_scalingMethod renderer, rnd_viewMode renderer, rnd_rotation renderer)
       = (vs_scalingMethod effective, vs_renderViewMode effective,
          vs_renderRotation effective)
    /\ pool_IsCompatible (rnd_bufferPool renderer) effective = true
    /\ renderer_IsCompatible renderer effective = true
    /\ (forall other,
          rnd_ptr other <> rnd_ptr renderer ->
          other ∈ m_renderers st' <-> other ∈ m_renderers st).
Proof.
  intros rs st r st' Hnd E effective.
  apply GetRenderer_pure in E as (_ & E).
  destruct (is_state (m_state st) UNCONFIGURED); [destruct E; discriminate |].
  simpl in E. fold effective in E.
  destruct (resolve_pools _ _ _ _ _ _) as [[r0|] l'] eqn:Er;
    [| destruct E; discriminate].
  destruct E as ([= ->] & Hset).
  destruct (resolve_pools_again _ _ _ _ _ _ _ _ Hnd Er
              (vs_scalingMethod effective) (vs_renderViewMode effective)
              (vs_renderRotation effective))
    as ((Hin & Hnd' & Hpool & Hm & Hfrom) & _).
  rewrite Hset. unfold with_effective.
  split; [eapply update_renderer_elem; [exact Hin | reflexivity] |].
  split; [rewrite update_renderer_ptrs; exact Hnd' |].
  split; [reflexivity |]. split; [exact Hpool |]. split.
  - rewrite IsCompatible_settings. unfold matches in Hm.
    apply andb_true_iff in Hm as [_ Hm]. exact Hm.
  - intros other Hp. rewrite update_renderer_other by exact Hp.
    destruct Hfrom as [[-> _] | (-> & _ & _)]; [reflexivity |]. split.
    + intros Ho. apply set_insert_elem in Ho as [-> | Ho];
        [contradiction Hp; reflexivity | exact Ho].
    + apply set_insert_keeps.
Qed.

End Returned.

(** ** Every buffer of the set can be looked up *)

Section Reachable.
Context `{Collaborators}.

Lemma find_buffer_only h l ps b p st :
  buffers st = h -> Forall2 (holds h) l ps -> NoDup ps ->
  b ∈ l -> holds h b p ->
  find_buffer p l st = Ok (Some b) st.
Proof.
  intros Hh Hall. revert b p. induction Hall as [|x q l ps Hx Hall IH];
    intros b p Hnd Hb Hp; [inversion Hb |].
  apply NoDup_cons in Hnd as [Hq Hnd]. simpl.
  destruct Hx as (rbx & Hlx & Hpx & _).
  erewrite bind_Ok_l by (apply deref_run; rewrite Hh; exact Hlx).
  destruct Hp as (rb & Hlb & Hpb & Hrb).
  apply elem_of_cons in Hb as [-> | Hb].
  - assert (rbx = rb) as -> by congruence.
    rewrite bool_decide_eq_true_2 by exact Hpb. reflexivity.
  - rewrite bool_decide_eq_false_2.
    + apply IH; [exact Hnd | exact Hb |]. exists rb. auto.
    + intros Heq. apply Hq.
      apply list_elem_of_lookup in Hb as (i & Hi).
      destruct (Forall2_lookup_l _ _ _ _ _ Hall Hi) as (q' & Hq' & (rb' & Hl' & Hp' & _)).
      apply list_elem_of_lookup. exists i.
      assert (rb' = rb) as -> by congruence. congruence.
Qed.

(** X21. When the buffers of the render buffer set belong to pairwise
    different pools and a reference is held on each, none of them is hidden
    behind another: with no flush pending and the state CONFIGURED,
    GetRenderBuffer for the pool of any buffer of the set returns that
    buffer, with one more reference on it. *)
Theorem GetRenderBuffer_reaches_every_buffer :
  forall st b rb,
    BufferSetInv st ->
    m_bFlush st = false -> m_state st = CONFIGURED ->
    b ∈ m_renderBuffers st -> buffers st !! b = Some rb ->
    GetRenderBuffer (rb_pool rb) st
    = Ok (Some b)
        (set_trace (trace st ++ [EvAcquire b])
           (set_buffers (<[b := rb_with_refs (rb_refs rb + 1) rb]> (buffers st))
              st)).
Proof.
  intros st b rb (ps & Hnd & Hall) Hf Hs Hb Hl.
  assert (holds (buffers st) b (rb_pool rb)) as Hh.
  { apply list_elem_of_lookup in Hb as (i & Hi).
    destruct (Forall2_lookup_l _ _ _ _ _ Hall Hi) as (q & _ & (rb' & Hl' & _ & Hr')).
    assert (rb' = rb) as -> by congruence. exists rb. auto. }
  unfold GetRenderBuffer. erewrite bind_Ok_l by reflexivity.
  rewrite (open_guard _ Hf Hs).
  erewrite bind_Ok_l by (eapply find_buffer_only; eauto).
  unfold Acquire.
  erewrite bind_Ok_l
    by (erewrite bind_Ok_l by (apply deref_run; exact Hl); reflexivity).
  reflexivity.
Qed.

End Reachable.

Module EdgeSamples.
Import Sample.


Definition triggered : State :=
  after (run_all (H := collaborators)
           [CallTriggerUpdateResolution; CallUpdateResolution; CallFrameMove])
    fresh.

(** A flush and a reconfiguration on a manager with one renderer. *)
Definition reconfigured : State :=
  after (run_all (H := collaborators)
           [CallFlush; CallConfigure AV_PIX_FMT_RGB565 8 2 8 2; CallFrameMove])
    LifecycleSamples.flushing_frame.

(** A cached frame, then torn down and configured again with height 0. *)
Definition zero_height : State :=
  after (run_all (H := collaborators)
           [CallDeinitialize; CallConfigure AV_PIX_FMT_RGB565 4 0 4 0;
            CallFrameMove])
    CachedFrameSamples.cached16.

End EdgeSamples.


Lemma update_resolution_never_consumed_witness :
  m_bTriggerUpdateResolution EdgeSamples.triggered = true.
Proof.
  rewrite (proj1 (@update_resolution_never_consumed Sample.collaborators)
             [CallTriggerUpdateResolution; CallUpdateResolution; CallFrameMove]
             Sample.fresh EdgeSamples.triggered).
  - vm_compute. reflexivity.
  - vm_compute. reflexivity.
Defined.

Lemma calls_keep_registry_witness :
  bufferPools RenderSamples.rendered = bufferPools BufferSetSamples.once
  /\ SupportsScalingMethod (H := Sample.collaborators) 1%Z RenderSamples.rendered
     = SupportsScalingMethod (H := Sample.collaborators) 1%Z BufferSetSamples.once.
Proof.
  destruct (@calls_keep_registry Sample.collaborators RenderSamples.ticks
              BufferSetSamples.once RenderSamples.rendered)
    as (_ & Hp & _ & Hs & _).
  - vm_compute. reflexivity.
  - split; [exact Hp | apply Hs].
Defined.

Lemma renderers_only_added_witness :
  exists renderer',
    renderer' ∈ m_renderers EdgeSamples.reconfigured /\ rnd_ptr renderer' = 1%nat.
Proof.
  apply (@renderers_only_added Sample.collaborators
           [CallFlush; CallConfigure Sample.AV_PIX_FMT_RGB565 8 2 8 2; CallFrameMove]
           LifecycleSamples.flushing_frame EdgeSamples.reconfigured
           eq_refl)
    with (renderer := {| rnd_ptr := 1; rnd_impl := 0; rnd_bufferPool := 0;
                         rnd_scalingMethod := 1%Z; rnd_viewMode := 0%Z;
                         rnd_rotation := 0 |}).
  - vm_compute. reflexivity.
  - vm_compute. left.
Defined.

Lemma CopyFrame_edges_witness :
  CopyFrame (H := Sample.collaborators) 7 Sample.AV_PIX_FMT_RGB565 Sample.frame16
    16 4 0 CopyFrameSamples.with_padded_buffer = Crash DivisionByZero.
Proof.
  apply (proj2 (proj2 (@CopyFrame_edges Sample.collaborators 7%nat
                         Sample.AV_PIX_FMT_RGB565 Sample.frame16 16 4 0
                         CopyFrameSamples.with_padded_buffer))
           CopyFrameSamples.padded_buffer (replicate 40 x00)).
  - vm_compute. reflexivity.
  - vm_compute. reflexivity.
  - left. reflexivity.
Defined.

Lemma CreateRenderBuffer_zero_height_witness :
  CreateRenderBuffer (H := Sample.collaborators) 0 EdgeSamples.zero_height
  = Crash DivisionByZero.
Proof.
  eapply (@CreateRenderBuffer_zero_height Sample.collaborators 0%nat
            EdgeSamples.zero_height).
  - vm_compute. reflexivity.
  - vm_compute. reflexivity.
  - vm_compute. reflexivity.
  - vm_compute. reflexivity.
  - vm_compute. discriminate.
  - vm_compute. reflexivity.
  - vm_compute. reflexivity.
  - vm_compute. reflexivity.
  - vm_compute. reflexivity.
Defined.

Lemma GetRenderer_returns_member_witness :
  RenderCallSamples.found ∈ m_renderers RenderCallSamples.resolved
  /\ rnd_viewMode RenderCallSamples.found = 3%Z.
Proof.
  pose proof (@GetRenderer_returns_member Sample.collaborators Sample_renderers
                (Some RenderCallSamples.settings3) RenderCallSamples.fullscreen
                RenderCallSamples.found RenderCallSamples.resolved) as Hx.
  cbv zeta in Hx. destruct Hx as (Hin & _).
  - vm_compute. constructor.
  - vm_compute. reflexivity.
  - split; [exact Hin | reflexivity].
Defined.

Lemma GetRenderBuffer_reaches_every_buffer_witness :
  exists rb,
    buffers BufferSetSamples.once !! 1%nat = Some rb
    /\ GetRenderBuffer (rb_pool rb) BufferSetSamples.once
       = Ok (Some 1%nat)
           (set_trace (trace BufferSetSamples.once ++ [EvAcquire 1])
              (set_buffers
                 (<[1%nat := rb_with_refs (rb_refs rb + 1) rb]>
                    (buffers BufferSetSamples.once))
                 BufferSetSamples.once)).
Proof.
  eexists. split; [vm_compute; reflexivity |].
  apply GetRenderBuffer_reaches_every_buffer.
  - apply check_BufferSetInv_sound. vm_compute. reflexivity.
  - vm_compute. reflexivity.
  - vm_compute. reflexivity.
  - vm_compute. right. left.
  - vm_compute. reflexivity.
Defined.

(** ** Where a frame ends up *)

(** The buffers without their memory. *)
Definition shape (st : State) : gmap nat IRenderBuffer :=
  rb_with_memory None <$> buffers st.

(** The memory of [rb], if it has the format [format] and rows as long as
    those of a frame of [size] bytes and [height] rows, starts with the
    first [size] bytes of [data]. *)
Definition delivered (data : list byte) (size height : N) (format : AVPixelFormat)
    (rb : IRenderBuffer) : Prop :=
  forall target,
    rb_memory rb = Some target ->
    rb_format rb = format ->
    u32 (size / height) = u32 (rb_frameSize rb / rb_height rb) ->
    size <= N.of_nat (length target) /\ size <= N.of_nat (length data)
    /\ take (N.to_nat size) target = take (N.to_nat size) data.

(** The pools asked for a buffer, and the buffers they handed out, in the
    order of the calls. *)
Definition asked (tr : list Event) : list (nat * N) :=
  omap (fun e => match e with
                 | EvGetBuffer pool size _ => Some (pool, size)
                 | _ => None
                 end) tr.

Definition handed_out (tr : list Event) : list nat :=
  omap (fun e => match e with
                 | EvGetBuffer _ _ result => result
                 | _ => None
                 end) tr.

Definition not_GetBuffer (e : Event) : bool :=
  match e with EvGetBuffer _ _ _ => false | _ => true end.

Section Delivery.
Context `{Collaborators}.

Lemma shape_store_memory b rb m st :
  buffers st !! b = Some rb ->
  shape (set_buffers (<[b := rb_with_memory m rb]> (buffers st)) st) = shape st.
Proof.
  intros Hb. unfold shape. simpl. rewrite fmap_insert. apply insert_id.
  rewrite lookup_fmap, Hb. reflexivity.
Qed.

Lemma buffer_memcpy_shape b toff src soff n :
  keeps shape (buffer_memcpy b toff src soff n).
Proof.
  intros st a st' E. unfold buffer_memcpy in E.
  apply bind_Ok in E as (rb & st0 & E0 & E). apply deref_Ok in E0 as [-> Hb].
  destruct (rb_memory rb); [| inversion E].
  destruct (memcpy _ _ _ _ _); [| inversion E].
  unfold store in E. minv. apply shape_store_memory. exact Hb.
Qed.

Lemma CopyFrame_rows_shape n i b src ss ts wb :
  keeps shape (CopyFrame_rows n i b src ss ts wb).
Proof.
  revert i. induction n as [|n IH]; intros i; simpl.
  - apply keeps_ret.
  - apply keeps_bind; [apply buffer_memcpy_shape | intros _; apply IH].
Qed.

Lemma CopyFrame_shape b fmt data size w h :
  keeps shape (CopyFrame b fmt data size w h).
Proof.
  intros st a st' E. unfold CopyFrame in E.
  apply bind_Ok in E as (rb & st0 & E0 & E). apply deref_Ok in E0 as [-> Hb].
  apply bind_Ok in E as ([] & st1 & E1 & E).
  rewrite emit_run in E1. inversion E1; subst st1; clear E1.
  apply bind_Ok in E as ([] & st2 & E2 & E).
  rewrite emit_run in E. inversion E; subst st'; clear E.
  change (shape st2 = shape (set_trace (trace st ++ [EvGetMemory b]) st)).
  destruct (rb_memory rb) as [target|]; [| minv; reflexivity].
  apply bind_Ok in E2 as (q & s & Eq & E2). apply udiv_Ok in Eq as ->.
  apply bind_Ok in E2 as (q' & s & Eq & E2). apply udiv_Ok in Eq as ->.
  erewrite bind_Ok_l in E2 by reflexivity. simpl in E2.
  destruct (bool_decide _).
  - destruct (_ =? _).
    + exact (buffer_memcpy_shape _ _ _ _ _ _ _ _ E2).
    + destruct (0 <? _); [| minv; reflexivity].
      exact (CopyFrame_rows_shape _ _ _ _ _ _ _ _ _ _ E2).
  - apply bind_Ok in E2 as ([] & s & Em & E2). minv.
    destruct (sws_getCachedContext _ _ _ _ _ _ _ _); [| minv; reflexivity].
    unfold store in E2. minv.
    unfold shape. simpl. rewrite fmap_insert. apply insert_id.
    rewrite lookup_fmap, Hb. reflexivity.
Qed.

Lemma shape_lookup st st' b rb :
  shape st' = shape st -> buffers st !! b = Some rb ->
  exists rb', buffers st' !! b = Some rb'
              /\ rb_with_memory None rb' = rb_with_memory None rb.
Proof.
  intros Hs Hb.
  assert (shape st !! b = Some (rb_with_memory None rb)) as Hl.
  { unfold shape. rewrite lookup_fmap, Hb. reflexivity. }
  rewrite <- Hs in Hl. unfold shape in Hl. rewrite lookup_fmap in Hl.
  destruct (buffers st' !! b) as [rb'|]; [| discriminate].
  simpl in Hl. exists rb'. split; [reflexivity |].
  apply (inj Some). exact Hl.
Qed.

(** CopyFrame writes no buffer other than its own. *)
Lemma buffer_memcpy_others b toff src soff n :
  keeps (fun st => delete b (buffers st)) (buffer_memcpy b toff src soff n).
Proof.
  intros st a st' E. unfold buffer_memcpy in E.
  apply bind_Ok in E as (rb & st0 & E0 & E). apply deref_Ok in E0 as [-> Hb].
  destruct (rb_memory rb); [| inversion E].
  destruct (memcpy _ _ _ _ _); [| inversion E].
  unfold store in E. minv. simpl. apply delete_insert_eq.
Qed.

Lemma CopyFrame_rows_others n i b src ss ts wb :
  keeps (fun st => delete b (buffers st)) (CopyFrame_rows n i b src ss ts wb).
Proof.
  revert i. induction n as [|n IH]; intros i; simpl.
  - apply keeps_ret.
  - apply keeps_bind; [apply buffer_memcpy_others | intros _; apply IH].
Qed.

Lemma CopyFrame_others b fmt data size w h :
  keeps (fun st => delete b (buffers st)) (CopyFrame b fmt data size w h).
Proof.
  intros st a st' E. unfold CopyFrame in E.
  apply bind_Ok in E as (rb & st0 & E0 & E). apply deref_Ok in E0 as [-> Hb].
  apply bind_Ok in E as ([] & st1 & E1 & E).
  rewrite emit_run in E1. inversion E1; subst st1; clear E1.
  apply bind_Ok in E as ([] & st2 & E2 & E).
  rewrite emit_run in E. inversion E; subst st'; clear E.
  change (delete b (buffers st2) = delete b (buffers st)).
  destruct (rb_memory rb) as [target|]; [| minv; reflexivity].
  apply bind_Ok in E2 as (q & s & Eq & E2). apply udiv_Ok in Eq as ->.
  apply bind_Ok in E2 as (q' & s & Eq & E2). apply udiv_Ok in Eq as ->.
  erewrite bind_Ok_l in E2 by reflexivity. simpl in E2.
  destruct (bool_decide _).
  - destruct (_ =? _).
    + exact (buffer_memcpy_others _ _ _ _ _ _ _ _ E2).
    + destruct (0 <? _); [| minv; reflexivity].
      exact (CopyFrame_rows_others _ _ _ _ _ _ _ _ _ _ E2).
  - apply bind_Ok in E2 as ([] & s & Em & E2). minv.
    destruct (sws_getCachedContext _ _ _ _ _ _ _ _); [| minv; reflexivity].
    unfold store in E2. minv. simpl. apply delete_insert_eq.
Qed.

Lemma CopyFrame_other b fmt data size w h st st' b' :
  CopyFrame b fmt data size w h st = Ok tt st' -> b' <> b ->
  buffers st' !! b' = buffers st !! b'.
Proof.
  intros E Hne. pose proof (CopyFrame_others _ _ _ _ _ _ _ _ _ E) as Hd.
  simpl in Hd. apply (f_equal (fun m => m !! b')) in Hd.
  rewrite !lookup_delete_ne in Hd by congruence. exact Hd.
Qed.

Lemma udiv_Ok_value a b q st st' :
  udiv a b st = Ok q st' -> b <> 0 /\ q = a / b /\ st' = st.
Proof.
  unfold udiv. destruct (b =? 0) eqn:Hb; intros E; [inversion E |].
  apply N.eqb_neq in Hb. inversion E. auto.
Qed.

(** After CopyFrame the buffer is what it was, but for its memory, and a
    buffer of the manager's format with rows of the frame's length starts
    with the frame. *)
Lemma CopyFrame_delivers b fmt data size w h st st' rb0 :
  CopyFrame b fmt data size w h st = Ok tt st' ->
  buffers st !! b = Some rb0 ->
  exists rb,
    buffers st' !! b = Some rb
    /\ rb_with_memory None rb = rb_with_memory None rb0
    /\ delivered data size h (m_format st) rb.
Proof.
  intros E Hb0. pose proof (CopyFrame_shape _ _ _ _ _ _ _ _ _ E) as Hs.
  destruct (shape_lookup _ _ _ _ Hs Hb0) as (rb & Hb & Hsh).
  exists rb. split; [exact Hb |]. split; [exact Hsh |].
  intros target' Hm Hfmt Hstride.
  pose proof (f_equal rb_format Hsh) as Hf. simpl in Hf.
  pose proof (f_equal rb_frameSize Hsh) as Hfs. simpl in Hfs.
  pose proof (f_equal rb_height Hsh) as Hh. simpl in Hh.
  unfold CopyFrame in E.
  apply bind_Ok in E as (rb1 & s0 & E0 & E). apply deref_Ok in E0 as [-> Hb1].
  assert (rb1 = rb0) as -> by congruence.
  apply bind_Ok in E as ([] & s1 & E1 & E).
  rewrite emit_run in E1. inversion E1; subst s1; clear E1.
  apply bind_Ok in E as ([] & s2 & E2 & E).
  rewrite emit_run in E. inversion E; subst st'; clear E. simpl in Hb.
  destruct (rb_memory rb0) as [target|] eqn:Hm0.
  - apply bind_Ok in E2 as (q & s & Eq & E2).
    apply udiv_Ok_value in Eq as (_ & -> & ->).
    apply bind_Ok in E2 as (q' & s & Eq & E2).
    apply udiv_Ok_value in Eq as (_ & -> & ->).
    erewrite bind_Ok_l in E2 by reflexivity. simpl in E2.
    rewrite bool_decide_eq_true_2 in E2 by congruence.
    rewrite Hfs, Hh in Hstride. apply N.eqb_eq in Hstride. rewrite Hstride in E2.
    unfold buffer_memcpy in E2.
    erewrite bind_Ok_l in E2 by (apply deref_run; simpl; exact Hb0).
    rewrite Hm0 in E2.
    destruct (memcpy target 0 data 0 size) as [t'|] eqn:Em; [| inversion E2].
    unfold store in E2. minv. simpl in Hb. rewrite lookup_insert_eq in Hb.
    injection Hb as <-. simpl in Hm. injection Hm as <-.
    pose proof (memcpy_length _ _ _ _ _ _ Em) as Hlen.
    apply memcpy_prefix_inv in Em as (H1 & H2 & ->).
    split; [rewrite Hlen; exact H1 |]. split; [exact H2 |].
    rewrite take_app_le by (rewrite length_take; lia).
    rewrite take_take. f_equal. lia.
  - inversion E2; subst s2; clear E2. simpl in Hb.
    assert (rb = rb0) as -> by congruence. congruence.
Qed.

End Delivery.

(** The pools of the registry with a visible renderer. *)
Definition visible_pools (pools : list IRenderBufferPool) : list IRenderBufferPool :=
  List.filter pool_HasVisibleRenderer pools.

Section Asked.
Context `{Collaborators}.

Lemma asked_app t1 t2 : asked (t1 ++ t2) = asked t1 ++ asked t2.
Proof. apply omap_app. Qed.

Lemma handed_out_app t1 t2 : handed_out (t1 ++ t2) = handed_out t1 ++ handed_out t2.
Proof. apply omap_app. Qed.

Lemma not_GetBuffer_asked evs :
  forallb not_GetBuffer evs = true -> asked evs = [] /\ handed_out evs = [].
Proof.
  induction evs as [|e evs IH]; simpl; [auto |]. intros Hq.
  apply andb_true_iff in Hq as [He Hq]. destruct (IH Hq) as [IH1 IH2].
  unfold asked, handed_out in *. simpl. rewrite IH1, IH2.
  destruct e; simpl in *; try discriminate; auto.
Qed.

Lemma CopyFrame_rows_no_GetBuffer n i b src ss ts wb :
  follows (appends not_GetBuffer) (CopyFrame_rows n i b src ss ts wb).
Proof. revert i. induction n as [|n IH]; intros i; simpl; follows_prim appends_step. Qed.
#[local] Hint Resolve CopyFrame_rows_no_GetBuffer : follows.

Lemma CopyFrame_no_GetBuffer b fmt data size w h :
  follows (appends not_GetBuffer) (CopyFrame b fmt data size w h).
Proof. unfold CopyFrame. follows_prim appends_step. Qed.

Lemma AddFrame_cache_no_GetBuffer data size :
  follows (appends not_GetBuffer) (AddFrame_cache data size).
Proof. unfold AddFrame_cache. follows_prim appends_step. Qed.

Lemma forM_Release_no_GetBuffer l :
  follows (appends not_GetBuffer) (forM_ l Release).
Proof. follows_prim appends_step. Qed.

(** The loop of AddFrame asks the visible pools, in the order of the
    registry, and returns what they handed out. *)
Lemma AddFrame_pools_asks pools data size w h st rbs st' :
  AddFrame_pools pools data size w h st = Ok rbs st' ->
  exists evs,
    trace st' = trace st ++ evs
    /\ asked evs = map (fun p => (pool_ptr p, size)) (visible_pools pools)
    /\ handed_out evs = rbs.
Proof.
  revert st rbs st'. induction pools as [|p pools IH]; intros st rbs st' E;
    simpl in E.
  - minv. exists []. rewrite app_nil_r. auto.
  - unfold visible_pools. simpl. fold (visible_pools pools).
    destruct (pool_HasVisibleRenderer p); simpl in E; [| exact (IH _ _ _ E)].
    apply bind_Ok in E as (r & st1 & E1 & E).
    apply GetBuffer_Ok in E1 as (_ & _ & _ & Ht1).
    destruct r as [b|].
    + erewrite bind_Ok_l in E by reflexivity.
      apply bind_Ok in E as ([] & st2 & E2 & E).
      apply CopyFrame_no_GetBuffer in E2 as (ev2 & Ht2 & Hq2).
      apply not_GetBuffer_asked in Hq2 as [Ha2 Hh2].
      apply bind_Ok in E as (rbs' & st3 & E3 & E). minv.
      destruct (IH _ _ _ E3) as (ev3 & Ht3 & Ha3 & Hh3).
      exists (EvGetBuffer (pool_ptr p) size (Some b) :: ev2 ++ ev3).
      split; [rewrite Ht3, Ht2, Ht1, <- !app_assoc; reflexivity |].
      change (EvGetBuffer (pool_ptr p) size (Some b) :: ev2 ++ ev3)
        with ([EvGetBuffer (pool_ptr p) size (Some b)] ++ ev2 ++ ev3).
      rewrite !asked_app, !handed_out_app, Ha2, Hh2, Ha3, Hh3. simpl. auto.
    + destruct (IH _ _ _ E) as (ev3 & Ht3 & Ha3 & Hh3).
      exists (EvGetBuffer (pool_ptr p) size None :: ev3).
      split; [rewrite Ht3, Ht1, <- !app_assoc; reflexivity |].
      change (EvGetBuffer (pool_ptr p) size None :: ev3)
        with ([EvGetBuffer (pool_ptr p) size None] ++ ev3).
      rewrite !asked_app, !handed_out_app, Ha3, Hh3. simpl. auto.
Qed.

Lemma AddFrame_cache_keeps_set data size :
  keeps m_renderBuffers (AddFrame_cache data size).
Proof. unfold AddFrame_cache. keeps_prim. Qed.

(** X22. An accepted AddFrame asks exactly the pools of the registry that
    have a visible renderer, each once, in the order of the registry, for a
    buffer of the frame's size; a pool without a visible renderer is not
    asked.  The buffers the pools hand out, in that order, are the new
    render buffer set; a pool that hands out none is skipped. *)
Theorem AddFrame_asks_visible_pools :
  forall bytes size width height orientationDegCCW st st',
    m_bFlush st = false -> m_state st = CONFIGURED ->
    size <> 0 -> width <> 0 -> height <> 0 ->
    width = m_width st -> height = m_height st ->
    AddFrame (Some bytes) size width height orientationDegCCW st = Ok tt st' ->
    exists evs,
      trace st' = trace st ++ evs
      /\ asked evs
         = map (fun p => (pool_ptr p, size)) (visible_pools (bufferPools st))
      /\ handed_out evs = m_renderBuffers st'.
Proof.
  intros bytes size width height o st st' Hf Hs Hsize Hw Hh Hwe Hhe E.
  rewrite (AddFrame_accepted _ _ _ _ o st Hf Hs Hsize Hw Hh Hwe Hhe) in E.
  apply bind_Ok in E as ([] & s4 & E & Ec). unfold AddFrame_swap in E.
  apply bind_Ok in E as (rbs & s1 & E1 & E).
  apply AddFrame_pools_asks in E1 as (ev1 & Ht1 & Ha1 & Hh1).
  erewrite bind_Ok_l in E by reflexivity.
  apply bind_Ok in E as ([] & s2 & E2 & E).
  apply forM_Release_no_GetBuffer in E2 as (ev2 & Ht2 & Hq2).
  apply not_GetBuffer_asked in Hq2 as [Ha2 Hh2].
  unfold store_renderBuffers in E. minv.
  assert (m_renderBuffers st' = handed_out ev1) as Hset.
  { exact (AddFrame_cache_keeps_set bytes size _ _ _ Ec). }
  apply AddFrame_cache_no_GetBuffer in Ec as (ev3 & Ht3 & Hq3).
  apply not_GetBuffer_asked in Hq3 as [Ha3 Hh3]. simpl in Ht3.
  exists (ev1 ++ ev2 ++ [EvStoreRenderBuffers (handed_out ev1)] ++ ev3).
  split; [rewrite Ht3, Ht2, Ht1, <- !app_assoc; reflexivity |].
  rewrite !asked_app, !handed_out_app, Ha1, Ha2, Hh2, Ha3, Hh3, Hset.
  simpl. rewrite !app_nil_r. auto.
Qed.

End Asked.

Section Delivered.
Context `{PoolContract}.

(** The loop of AddFrame leaves a buffer on which a reference is held
    exactly as it was. *)
Lemma AddFrame_pools_keeps_referenced pools data size w h st rbs st' :
  AddFrame_pools pools data size w h st = Ok rbs st' ->
  forall b rb,
    buffers st !! b = Some rb -> (1 <= rb_refs rb)%Z ->
    buffers st' !! b = Some rb.
Proof.
  revert st rbs st'. induction pools as [|p pools IH]; intros st rbs st' E b rb Hb Hr;
    simpl in E.
  - minv. exact Hb.
  - destruct (pool_HasVisibleRenderer p); simpl in E; [| exact (IH _ _ _ E _ _ Hb Hr)].
    apply bind_Ok in E as (r & st1 & E1 & E).
    apply GetBuffer_Ok in E1 as (Hres & Hb1 & _ & _).
    assert (buffers st1 !! b = Some rb) as Hb1'
      by (rewrite Hb1; apply GetBuffer_keeps; assumption).
    destruct r as [b2|]; [| exact (IH _ _ _ E _ _ Hb1' Hr)].
    symmetry in Hres. destruct (GetBuffer_result _ _ _ _ Hres) as (Hfree & _).
    assert (b <> b2) as Hne.
    { intros ->. specialize (Hfree _ Hb). lia. }
    erewrite bind_Ok_l in E by reflexivity.
    apply bind_Ok in E as ([] & st2 & E2 & E).
    apply bind_Ok in E as (rbs' & st3 & E3 & E). minv.
    apply (IH _ _ _ E3); [| exact Hr].
    rewrite (CopyFrame_other _ _ _ _ _ _ _ _ _ E2 Hne). exact Hb1'.
Qed.

Lemma AddFrame_pools_delivers pools data size w h st rbs st' :
  AddFrame_pools pools data size w h st = Ok rbs st' ->
  Forall (fun b => exists rb,
            buffers st' !! b = Some rb /\ (1 <= rb_refs rb)%Z
            /\ delivered data size h (m_format st) rb) rbs.
Proof.
  revert st rbs st'. induction pools as [|p pools IH]; intros st rbs st' E;
    simpl in E.
  - minv. constructor.
  - destruct (pool_HasVisibleRenderer p); simpl in E; [| exact (IH _ _ _ E)].
    apply bind_Ok in E as (r & st1 & E1 & E).
    assert (m_format st1 = m_format st) as Hf1.
    { revert E1. apply keeps_GetBuffer; ign_auto. }
    apply GetBuffer_Ok in E1 as (Hres & Hb1 & _ & _).
    destruct r as [b|]; [| rewrite <- Hf1; exact (IH _ _ _ E)].
    symmetry in Hres.
    destruct (GetBuffer_result _ _ _ _ Hres) as (_ & rb1 & Hl1 & _ & Hr1).
    rewrite <- Hb1 in Hl1.
    erewrite bind_Ok_l in E by reflexivity.
    apply bind_Ok in E as ([] & st2 & E2 & E).
    assert (m_format st2 = m_format st1) as Hf2.
    { revert E2. apply CopyFrame_keeps; ign_auto. }
    destruct (CopyFrame_delivers _ _ _ _ _ _ _ _ _ E2 Hl1) as (rb2 & Hl2 & Hsh & Hd).
    apply bind_Ok in E as (rbs' & st3 & E3 & E). minv.
    assert (rb_refs rb2 = rb_refs rb1) as Hr2 by exact (f_equal rb_refs Hsh).
    constructor.
    + exists rb2. split.
      * apply (AddFrame_pools_keeps_referenced _ _ _ _ _ _ _ _ E3); [exact Hl2 | lia].
      * split; [lia |]. rewrite <- Hf1. exact Hd.
    + rewrite <- Hf1, <- Hf2. exact (IH _ _ _ E3).
Qed.

(** X23. If the pools hand out unreferenced buffers with a reference taken
    and a reference is held on every buffer of the old set, then after an
    accepted AddFrame a reference is held on every buffer of the new render
    buffer set, and every buffer of it that has memory, the manager's
    format and rows as long as the frame's starts with the frame: its first
    size bytes are the frame's first size bytes. *)
Theorem AddFrame_delivers_frame :
  forall bytes size width height orientationDegCCW st st',
    m_bFlush st = false -> m_state st = CONFIGURED ->
    size <> 0 -> width <> 0 -> height <> 0 ->
    width = m_width st -> height = m_height st ->
    SetRef st ->
    AddFrame (Some bytes) size width height orientationDegCCW st = Ok tt st' ->
    Forall (fun b => exists rb,
              buffers st' !! b = Some rb /\ (1 <= rb_refs rb)%Z
              /\ delivered bytes size height (m_format st) rb)
           (m_renderBuffers st').
Proof.
  intros bytes size width height o st st' Hf Hs Hsize Hw Hh Hwe Hhe Hset E.
  destruct (AddFrame_swaps _ _ _ _ _ _ _ Hf Hs Hsize Hw Hh Hwe Hhe E)
    as (rbs & sa & sb & tail & Ea & Er & _ & _ & -> & Hb).
  pose proof (AddFrame_pools_delivers _ _ _ _ _ _ _ _ Ea) as Hd.
  destruct (AddFrame_pools_collects _ _ _ _ _ _ _ _ Ea) as (_ & _ & Hnew & _).
  destruct (forM_Release _ _ _ Er) as (_ & _ & Hother).
  rewrite Forall_forall in Hd, Hnew. apply Forall_forall. intros b Hin.
  destruct (Hd _ Hin) as (rb & Hl & Hr & Hdel). exists rb.
  split; [| auto]. rewrite Hb, Hother; [exact Hl |].
  intros Hold. apply (Hnew _ Hin).
  unfold SetRef in Hset. rewrite Forall_forall in Hset. auto.
Qed.

(** What CreateRenderBuffer leaves: the set as it was, or with the buffer
    the pool handed out for the cached frame at its end. *)
Lemma CreateRenderBuffer_appends p st st' :
  CreateRenderBuffer p st = Ok tt st' ->
  (m_renderBuffers st' = m_renderBuffers st
   /\ (m_bFlush st = false -> m_state st = CONFIGURED ->
       HasRenderBuffer p st = Ok false st ->
       m_bHasCachedFrame st = true -> m_cachedFrame st <> [] ->
       (pool_GetBuffer p (N.of_nat (length (m_cachedFrame st))) (buffers st)).1
       = None))
  \/ exists b rb,
       m_renderBuffers st' = m_renderBuffers st ++ [b]
       /\ (pool_GetBuffer p (N.of_nat (length (m_cachedFrame st)))
             (buffers st)).1 = Some b
       /\ buffers st' !! b = Some rb
       /\ rb_pool rb = p /\ (1 <= rb_refs rb)%Z
       /\ delivered (m_cachedFrame st) (N.of_nat (length (m_cachedFrame st)))
            (m_height st) (m_format st) rb.
Proof.
  intros E. unfold CreateRenderBuffer in E.
  erewrite bind_Ok_l in E by reflexivity.
  destruct (m_bFlush st || negb (is_state (m_state st) CONFIGURED)) eqn:Hg.
  { minv. left. split; [reflexivity |]. intros Hf Hs.
    rewrite (open_guard _ Hf Hs) in Hg. discriminate. }
  apply bind_Ok in E as (has & s0 & E0 & E).
  pose proof E0 as Ehas. apply HasRenderBuffer_Ok in E0 as (-> & _).
  erewrite bind_Ok_l in E by reflexivity.
  destruct (negb has && m_bHasCachedFrame st) eqn:Hc.
  2:{ minv. left. split; [reflexivity |]. intros _ _ Hno Hhas.
      rewrite Hno in Ehas. injection Ehas as <-. rewrite Hhas in Hc. discriminate. }
  erewrite bind_Ok_l in E by reflexivity.
  destruct (negb (is_empty (m_cachedFrame st))) eqn:Hemp.
  2:{ minv. left. split; [reflexivity |]. intros _ _ _ _ Hne.
      rewrite (is_empty_false _ Hne) in Hemp. discriminate. }
  apply bind_Ok in E as (r & s1 & E1 & E).
  apply bind_Ok in E as ([] & s3 & E & E3).
  assert (m_format s1 = m_format st) as Hf1.
  { apply (keeps_GetBuffer m_format _ _ ltac:(ign_auto) ltac:(ign_auto) _ _ _ E1). }
  apply GetBuffer_Ok in E1 as (Hres & Hb1 & Hs1 & _). simpl in Hres, Hb1, Hs1.
  destruct r as [b|]; [| minv; simpl; left; auto].
  apply bind_Ok in E as ([] & s2 & E2 & E).
  symmetry in Hres.
  destruct (GetBuffer_result _ _ _ _ Hres) as (_ & rb1 & Hl1 & Hp1 & Hr1).
  rewrite <- Hb1 in Hl1.
  destruct (CopyFrame_delivers _ _ _ _ _ _ _ _ _ E2 Hl1) as (rb2 & Hl2 & Hsh & Hd).
  assert (m_renderBuffers s2 = m_renderBuffers s1) as Hs2.
  { revert E2. apply CopyFrame_keeps; ign_auto. }
  erewrite bind_Ok_l in E by reflexivity. unfold store_renderBuffers in E. minv.
  right. exists b, rb2. simpl. rewrite Hs2, Hs1.
  split; [reflexivity |]. split; [exact Hres |]. split; [exact Hl2 |].
  pose proof (f_equal rb_pool Hsh) as Hq. pose proof (f_equal rb_refs Hsh) as Hq'.
  simpl in Hq, Hq'.
  split; [congruence |]. split; [rewrite Hq'; exact Hr1 |].
  rewrite <- Hf1. exact Hd.
Qed.

(** X24. A buffer CreateRenderBuffer appends to the render buffer set
    carries the cached frame: if it has memory, the manager's format and
    rows as long as the rows of the cached frame at the configured height,
    it starts with the bytes of the cached frame.  The buffer is one the
    pool handed out for the size of the cached frame, and CreateRenderBuffer
    appends at most one buffer. *)
Theorem CreateRenderBuffer_delivers_cached_frame :
  forall bufferPool st st',
    CreateRenderBuffer bufferPool st = Ok tt st' ->
    m_renderBuffers st' = m_renderBuffers st
    \/ exists b rb,
         m_renderBuffers st' = m_renderBuffers st ++ [b]
         /\ (pool_GetBuffer bufferPool (N.of_nat (length (m_cachedFrame st)))
               (buffers st)).1 = Some b
         /\ buffers st' !! b = Some rb
         /\ rb_pool rb = bufferPool /\ (1 <= rb_refs rb)%Z
         /\ delivered (m_cachedFrame st) (N.of_nat (length (m_cachedFrame st)))
              (m_height st) (m_format st) rb.
Proof.
  intros p st st' E.
  destruct (CreateRenderBuffer_appends _ _ _ E) as [[Hsame _] | Happ].
  - left. exact Hsame.
  - right. destruct Happ as (b & rb & Hset & Hget & Hb & Hp & Hr & Hd).
    exists b, rb. auto 10.
Qed.

(** *** A paused frame on the screen *)

Lemma find_buffer_last p l b st :
  Forall (fun b0 => exists rb0, buffers st !! b0 = Some rb0 /\ rb_pool rb0 <> p) l ->
  holds (buffers st) b p ->
  find_buffer p (l ++ [b]) st = Ok (Some b) st.
Proof.
  intros Hl (rb & Hb & Hp & _). induction Hl as [|x l (rbx & Hx & Hpx) _ IH]; simpl.
  - erewrite bind_Ok_l by (apply deref_run; exact Hb).
    rewrite bool_decide_eq_true_2 by exact Hp. reflexivity.
  - erewrite bind_Ok_l by (apply deref_run; exact Hx).
    rewrite bool_decide_eq_false_2 by exact Hpx. exact IH.
Qed.

Lemma delivered_same data size h fmt rb rb' :
  rb_memory rb' = rb_memory rb -> rb_format rb' = rb_format rb ->
  rb_frameSize rb' = rb_frameSize rb -> rb_height rb' = rb_height rb ->
  delivered data size h fmt rb -> delivered data size h fmt rb'.
Proof.
  unfold delivered. intros -> -> -> -> Hd. exact Hd.
Qed.

(** X25. A frame cached while paused reaches a renderer that has no buffer.
    If the pools keep to their contract, a reference is held on every
    buffer of the set, no flush is pending, the state is CONFIGURED, the set
    has no buffer of the renderer's pool, a frame is cached and the pool
    hands out a buffer for it, then a RenderInternal that returns has
    appended that buffer to the render buffer set, filled from the cached
    frame, has marked it loaded, and has given back the reference it took
    for the draw: the set's own reference is still held. *)
Theorem RenderInternal_presents_cached_frame :
  forall renderer bClear alpha st st' b,
    m_bFlush st = false -> m_state st = CONFIGURED -> SetRef st ->
    HasRenderBuffer (rnd_bufferPool renderer) st = Ok false st ->
    m_bHasCachedFrame st = true -> m_cachedFrame st <> [] ->
    (pool_GetBuffer (rnd_bufferPool renderer)
       (N.of_nat (length (m_cachedFrame st))) (buffers st)).1 = Some b ->
    RenderInternal renderer bClear alpha st = Ok tt st' ->
    m_renderBuffers st' = m_renderBuffers st ++ [b]
    /\ exists rb,
         buffers st' !! b = Some rb
         /\ rb_pool rb = rnd_bufferPool renderer
         /\ (1 <= rb_refs rb)%Z /\ rb_loaded rb = true
         /\ delivered (m_cachedFrame st) (N.of_nat (length (m_cachedFrame st)))
              (m_height st) (m_format st) rb.
Proof.
  intros r c a st st' b Hf Hs Hset Hno Hhas Hne Hget E.
  set (p := rnd_bufferPool r) in *.
  apply HasRenderBuffer_Ok in Hno as (_ & Hold). specialize (Hold eq_refl).
  rewrite RenderInternal_split in E. fold p in E.
  apply bind_Ok in E as ([] & s0 & E0 & E). rewrite emit_run in E0.
  inversion E0; subst s0; clear E0.
  set (s0 := set_trace (trace st ++ [EvPreRender (rnd_ptr r) c]) st) in *.
  assert (forall l,
            Forall (fun b0 => exists rb0, buffers st !! b0 = Some rb0
                                          /\ rb_pool rb0 <> p) l ->
            find_buffer p l s0 = Ok None s0) as Hnone.
  { induction 1 as [|x l (rbx & Hx & Hpx) _ IH]; simpl; [reflexivity |].
    erewrite bind_Ok_l by (apply deref_run; exact Hx).
    rewrite bool_decide_eq_false_2 by exact Hpx. exact IH. }
  assert (Forall (fun b0 => exists rb0, buffers st !! b0 = Some rb0
                                        /\ rb_pool rb0 <> p)
            (m_renderBuffers st)) as Hall
    by (apply Forall_forall; exact Hold).
  assert (HasRenderBuffer p s0 = Ok false s0) as Hno0.
  { unfold HasRenderBuffer. erewrite bind_Ok_l by reflexivity.
    erewrite bind_Ok_l by (apply Hnone; exact Hall). reflexivity. }
  assert (GetRenderBuffer p s0 = Ok None s0) as Hg0.
  { unfold GetRenderBuffer. erewrite bind_Ok_l by reflexivity.
    rewrite (open_guard s0 Hf Hs).
    erewrite bind_Ok_l by (apply Hnone; exact Hall). reflexivity. }
  apply bind_Ok in E as (rbuf & s1 & E1 & E). unfold RenderInternal_acquire in E1.
  erewrite bind_Ok_l in E1 by exact Hg0. cbv beta iota in E1.
  apply bind_Ok in E1 as ([] & s2 & E2 & E1).
  assert (keeps (fun s => (m_bFlush s, m_state s)) (CreateRenderBuffer p)) as Hkg
    by (apply CreateRenderBuffer_keeps; ign_auto).
  pose proof (Hkg _ _ _ E2) as Hgate. simpl in Hgate.
  injection Hgate as Hf2 Hs2.
  destruct (CreateRenderBuffer_adds _ _ _ E2) as (Hk & _).
  destruct (CreateRenderBuffer_appends _ _ _ E2) as [[_ Hn] | Happ].
  { specialize (Hn Hf Hs Hno0 Hhas Hne). simpl in Hn. congruence. }
  destruct Happ as (b' & rb2 & Hset2 & Hget' & Hb2 & Hp2 & Hr2 & Hd).
  simpl in Hget', Hset2, Hd. assert (b' = b) as -> by congruence.
  assert (find_buffer p (m_renderBuffers s2) s2 = Ok (Some b) s2) as Hfind.
  { rewrite Hset2. apply find_buffer_last; [| exists rb2; auto].
    unfold SetRef in Hset. rewrite Forall_forall in Hset.
    apply Forall_forall. intros b0 Hb0.
    destruct (Hold _ Hb0) as (rb0 & Hl0 & Hp0).
    destruct (Hset _ Hb0) as (rb0' & Hl0' & Hr0).
    assert (rb0' = rb0) as -> by congruence.
    destruct (Hk b0 rb0 Hl0 Hr0) as (rb0'' & Hl'' & Hp'' & _).
    exists rb0''. split; [exact Hl'' | congruence]. }
  unfold GetRenderBuffer in E1. erewrite bind_Ok_l in E1 by reflexivity.
  rewrite (open_guard s2) in E1 by congruence.
  erewrite bind_Ok_l in E1 by exact Hfind. cbv beta iota in E1.
  apply bind_Ok in E1 as ([] & s3 & E3 & E1). inversion E1; subst rbuf s1; clear E1.
  apply Acquire_Ok in E3 as (rb2' & Hb2' & ->).
  assert (rb2' = rb2) as -> by congruence.
  apply bind_Ok in E as ([] & s4 & E4 & E). rewrite emit_run in E.
  inversion E; subst st'; clear E.
  apply RenderInternal_present_Ok in E4 as (rb3 & Hb3 & Hset4 & Hb4 & _).
  simpl in Hb3, Hset4. rewrite lookup_insert_eq in Hb3. injection Hb3 as <-.
  simpl. rewrite Hset4, Hset2. split; [reflexivity |].
  eexists. rewrite Hb4. split; [apply lookup_insert_eq |].
  unfold presented. simpl.
  destruct (rb_loaded rb2) eqn:Hl; simpl;
    (split; [exact Hp2 |]); (split; [lia |]);
    (split; [first [reflexivity | exact Hl] |]);
    (eapply delivered_same; [| | | | exact Hd]); reflexivity.
Qed.

End Delivered.

Module DeliverySamples.
Import Sample.

(** The cached frame of the paused manager made a render buffer of pool 0. *)
Definition shown : State :=
  after (CreateRenderBuffer (H := collaborators) 0) CachedFrameSamples.cached16.

(** A renderer on pool 0. *)
Definition renderer0 : CRPBaseRenderer :=
  {| rnd_ptr := 9; rnd_impl := 0; rnd_bufferPool := 0;
     rnd_scalingMethod := 1%Z; rnd_viewMode := 0%Z; rnd_rotation := 0 |}.

(** The paused manager after that renderer drew. *)
Definition drawn : State :=
  after (RenderInternal (H := collaborators) renderer0 true 255)
    CachedFrameSamples.cached16.

End DeliverySamples.

Lemma AddFrame_asks_visible_pools_witness :
  exists evs,
    trace BufferSetSamples.once = trace Sample.configured ++ evs
    /\ asked evs = [(0%nat, 16); (1%nat, 16)]
    /\ handed_out evs = m_renderBuffers BufferSetSamples.once.
Proof.
  destruct (@AddFrame_asks_visible_pools Sample.collaborators Sample.frame16
              16 4 2 0 Sample.configured BufferSetSamples.once)
    as (evs & Ht & Ha & Hh).
  - vm_compute. reflexivity.
  - vm_compute. reflexivity.
  - discriminate.
  - discriminate.
  - discriminate.
  - vm_compute. reflexivity.
  - vm_compute. reflexivity.
  - vm_compute. reflexivity.
  - exists evs. split; [exact Ht |]. split; [| exact Hh].
    rewrite Ha. vm_compute. reflexivity.
Defined.

Lemma AddFrame_delivers_frame_witness :
  Forall (fun b => exists rb,
            buffers BufferSetSamples.twice !! b = Some rb /\ (1 <= rb_refs rb)%Z
            /\ delivered Sample.frame16 16 2 (m_format BufferSetSamples.once) rb)
         (m_renderBuffers BufferSetSamples.twice).
Proof.
  apply (@AddFrame_delivers_frame Sample.collaborators Sample_contract
           Sample.frame16 16 4 2 0 BufferSetSamples.once BufferSetSamples.twice).
  - vm_compute. reflexivity.
  - vm_compute. reflexivity.
  - discriminate.
  - discriminate.
  - discriminate.
  - vm_compute. reflexivity.
  - vm_compute. reflexivity.
  - apply check_SetRef_sound. vm_compute. reflexivity.
  - vm_compute. reflexivity.
Defined.

Lemma CreateRenderBuffer_delivers_cached_frame_witness :
  m_renderBuffers DeliverySamples.shown
  = m_renderBuffers CachedFrameSamples.cached16
  \/ exists b rb,
       m_renderBuffers DeliverySamples.shown
       = m_renderBuffers CachedFrameSamples.cached16 ++ [b]
       /\ (pool_GetBuffer (Collaborators := Sample.collaborators) 0
             (N.of_nat (length (m_cachedFrame CachedFrameSamples.cached16)))
             (buffers CachedFrameSamples.cached16)).1 = Some b
       /\ buffers DeliverySamples.shown !! b = Some rb
       /\ rb_pool rb = 0%nat /\ (1 <= rb_refs rb)%Z
       /\ delivered (m_cachedFrame CachedFrameSamples.cached16)
            (N.of_nat (length (m_cachedFrame CachedFrameSamples.cached16)))
            (m_height CachedFrameSamples.cached16)
            (m_format CachedFrameSamples.cached16) rb.
Proof.
  apply (@CreateRenderBuffer_delivers_cached_frame Sample.collaborators
           Sample_contract 0%nat CachedFrameSamples.cached16 DeliverySamples.shown).
  vm_compute. reflexivity.
Defined.

Lemma RenderInternal_presents_cached_frame_witness :
  m_renderBuffers DeliverySamples.drawn
  = m_renderBuffers CachedFrameSamples.cached16 ++ [0%nat]
  /\ exists rb,
       buffers DeliverySamples.drawn !! 0%nat = Some rb /\ rb_loaded rb = true.
Proof.
  destruct (@RenderInternal_presents_cached_frame Sample.collaborators
              Sample_contract DeliverySamples.renderer0 true 255
              CachedFrameSamples.cached16 DeliverySamples.drawn 0%nat)
    as (Hs & rb & Hb & _ & _ & Hl & _).
  - vm_compute. reflexivity.
  - vm_compute. reflexivity.
  - apply check_SetRef_sound. vm_compute. reflexivity.
  - vm_compute. reflexivity.
  - vm_compute. reflexivity.
  - vm_compute. discriminate.
  - vm_compute. reflexivity.
  - vm_compute. reflexivity.
  - split; [exact Hs |]. exists rb. auto.
Defined.
